(** * Freezable viewer states of jdaviz ([jdaviz/core/freezable_state.py])

    A shallow embedding of the three classes of the module,
    [FreezableState], [FreezableProfileViewerState] and
    [FreezableBqplotImageViewerState], and the properties of their
    limit and zoom bookkeeping.

    Conventions of the embedding:
    - Python floats are IEEE 754 binary64 numbers, here the [spec_float]
      of the Standard Library at precision 53 and maximal exponent 1024;
    - [None] is the [None] of an [option];
    - a method that can raise returns an [outcome] when it only reads
      the object, and a [run] when it writes to it: the object as it is
      when the exception leaves the method is part of the result;
    - exceptions are instances of Python's [Exception]; the
      system-exiting ones (KeyboardInterrupt, SystemExit) are not part of
      the model;
    - the libraries the module builds on are not part of the module.
      echo's callback properties and [delay_callback] are modelled in
      [Echo]; what the module needs from glue and astropy (the aspect
      adjustment and [reset_limits] of the base class, the unit
      conversion, the coordinate transforms) is a class of its own,
      whose fields stand for the library's functions;
    - [Image] runs the callbacks that the module registers itself;
      [Aspect] runs [_set_zoom_radius_center] with the callbacks that
      glue's base class registers on the four limits as well;
    - [_convert_units_y_limits] and [_set_axes_aspect_ratio] consist of
      calls into astropy and glue and are not embedded. *)

From Stdlib Require Import ZArith Ascii.
From Stdlib Require Import Floats.SpecFloat.
From stdpp Require Import base decidable option list strings gmap.

Local Open Scope Z_scope.

(** ** Python values *)

Module Py.

(** *** Floats *)

Definition float : Type := spec_float.

Definition prec : Z := 53.
Definition emax : Z := 1024.

Definition fadd : float -> float -> float := SFadd prec emax.
Definition fsub : float -> float -> float := SFsub prec emax.
Definition fmul : float -> float -> float := SFmul prec emax.
Definition fabs : float -> float := SFabs.
Definition fneg : float -> float := SFopp.
Definition flt : float -> float -> bool := SFltb.
Definition feq : float -> float -> bool := SFeqb.

(** [float(z)] for an integer [z], and the literals of the module. *)
Definition of_Z (z : Z) : float := binary_normalize prec emax z 0 false.
Definition half : float := binary_normalize prec emax 1 (-1) false.
Definition inf : float := S754_infinity false.
Definition neg_inf : float := S754_infinity true.
Definition nan : float := S754_nan.

(** [np.isfinite] and [np.isnan] on one number. *)
Definition isfinite (x : float) : bool :=
  match x with
  | S754_zero _ | S754_finite _ _ _ => true
  | S754_infinity _ | S754_nan => false
  end.

Definition isnan (x : float) : bool :=
  match x with S754_nan => true | _ => false end.

(** The builtins [min(a, b)] and [max(a, b)]: the first argument is
    kept unless the second compares strictly below (above) it. *)
Definition min (a b : float) : float := if flt b a then b else a.
Definition max (a b : float) : float := if flt a b then b else a.

(** [np.nanmin] and [np.nanmax] of a non-empty array [x0 :: xs]: the
    extremum of the entries that are not NaN, NaN when there is none. *)
Definition nanmin_step (acc x : float) : float :=
  if isnan x then acc else if isnan acc then x else min acc x.
Definition nanmax_step (acc x : float) : float :=
  if isnan x then acc else if isnan acc then x else max acc x.
Definition nanmin1 (x0 : float) (xs : list float) : float :=
  foldl nanmin_step x0 xs.
Definition nanmax1 (x0 : float) (xs : list float) : float :=
  foldl nanmax_step x0 xs.

(** Nothing in [xs] compares below [m]; nothing in [xs] compares above
    [m]. With [m] itself in [xs], [m] is a minimum (maximum) of [xs]. *)
Definition lower_bound (m : float) (xs : list float) : Prop :=
  forall v, v ∈ xs -> flt v m = false.
Definition upper_bound (m : float) (xs : list float) : Prop :=
  forall v, v ∈ xs -> flt m v = false.

(** *** Exceptions and results *)

Inductive exn : Type :=
| IndexError
| AttributeError
| ValueError
| StopIteration
| Error (name : string).

(** Result of code that reads but does not write the object. *)
Inductive outcome (A : Type) : Type :=
| Return (a : A)
| Throw (e : exn).
Arguments Return {A} a.
Arguments Throw {A} e.

Definition obind {A B} (m : outcome A) (k : A -> outcome B) : outcome B :=
  match m with
  | Return a => k a
  | Throw e => Throw e
  end.

(** [np.nanmin(x)] and [np.nanmax(x)]: ValueError on an empty array. *)
Definition nanmin (x : list float) : outcome float :=
  match x with
  | [] => Throw ValueError
  | x0 :: xs => Return (nanmin1 x0 xs)
  end.
Definition nanmax (x : list float) : outcome float :=
  match x with
  | [] => Throw ValueError
  | x0 :: xs => Return (nanmax1 x0 xs)
  end.

(** [old != new] on values that are a float or [None]. *)
Definition ne (a b : option float) : bool :=
  match a, b with
  | None, None => false
  | Some x, Some y => negb (feq x y)
  | _, _ => true
  end.

(** [s.endswith(suffix)] *)
Fixpoint endswith (s suffix : string) : bool :=
  if String.eqb s suffix then true
  else match s with
       | EmptyString => false
       | String _ s' => endswith s' suffix
       end.

End Py.

Import Py.

Notation "x <-? m ; k" := (obind m (fun x => k))
  (at level 100, m at next level, right associativity).

(** ** [FreezableState] *)

Module FreezableState.

(** What [__setattr__] decides for an assignment. *)
Inductive verdict : Type := Store | Discard.

(** [k[0] == '_'], IndexError on the empty name. *)
Definition first_is_underscore (k : string) : outcome bool :=
  match k with
  | EmptyString => Throw IndexError
  | String c _ => Return (Ascii.eqb c "_"%char)
  end.

(** The two tests of [__setattr__]. [is_none] stands for
    [getattr(self, k) is None]; it is evaluated in the [elif] only. *)
Definition guard (frozen : list string) (k : string)
    (is_none : outcome bool) : outcome verdict :=
  u <-? first_is_underscore k;
  if u || negb (bool_decide (k ∈ frozen)) then Return Store
  else
    n <-? is_none;
    if n then Return Store else Return Discard.

(** A value held by an attribute. *)
Inductive value : Type :=
| VNone
| VBool (b : bool)
| VInt (z : Z)
| VFloat (x : float)
| VStr (s : string).

Definition is_None (v : value) : bool :=
  match v with VNone => true | _ => false end.

(** A state object: the class-level [_frozen_state] and the attributes
    of the instance. The frozen set is kept apart from [attrs]: the
    model covers the assignments that leave it alone, those to a name
    other than [_frozen_state] itself. *)
Record object : Type := Object {
  _frozen_state : list string;
  attrs : gmap string value
}.

(** [getattr(self, k)] *)
Definition getattr (self : object) (k : string) : outcome value :=
  match attrs self !! k with
  | Some v => Return v
  | None => Throw AttributeError
  end.

(** [super().__setattr__(k, v)] *)
Definition super_setattr (self : object) (k : string) (v : value) : object :=
  Object (_frozen_state self) (<[k := v]> (attrs self)).

(** [FreezableState.__setattr__(self, k, v)]: the object after the
    assignment, or the exception it raised. *)
Definition __setattr__ (self : object) (k : string) (v : value)
    : outcome object :=
  d <-? guard (_frozen_state self) k
          (c <-? getattr self k; Return (is_None c));
  match d with
  | Store => Return (super_setattr self k v)
  | Discard => Return self
  end.

End FreezableState.

(** The class attribute [_frozen_state = []]. Neither viewer-state class
    of the module overrides it. *)
Definition class_frozen_state : list string := [].

(** ** Methods that mutate the object *)

Module Run.

(** Result of a method run on a store [S]: it returned [a], it raised
    [e], or the model ran out of fuel (see [Image.run_callback]). The
    store is the one the method leaves behind. *)
Inductive run (S A : Type) : Type :=
| Done (a : A) (s : S)
| Raised (e : exn) (s : S)
| OutOfFuel.
Arguments Done {S A} a s.
Arguments Raised {S A} e s.
Arguments OutOfFuel {S A}.

Definition M (S A : Type) : Type := S -> run S A.

Definition ret {S A} (a : A) : M S A := fun s => Done a s.
Definition raise {S A} (e : exn) : M S A := fun s => Raised e s.
Definition bind {S A B} (m : M S A) (k : A -> M S B) : M S B :=
  fun s =>
    match m s with
    | Done a s' => k a s'
    | Raised e s' => Raised e s'
    | OutOfFuel => OutOfFuel
    end.
Definition get {S} : M S S := fun s => Done s s.
Definition modify {S} (f : S -> S) : M S unit := fun s => Done tt (f s).

(** An expression that may raise, evaluated inside a method. *)
Definition eval {S A} (o : outcome A) : M S A :=
  match o with
  | Return a => ret a
  | Throw e => raise e
  end.

(** [try: body finally: cleanup], also the shape of a [with] block
    whose exit does not swallow the exception. *)
Definition finally {S} (body cleanup : M S unit) : M S unit :=
  fun s =>
    match body s with
    | Done _ s' => cleanup s'
    | Raised e s' => bind cleanup (fun _ => raise e) s'
    | OutOfFuel => OutOfFuel
    end.

(** [for x in xs: body(x)] *)
Fixpoint for_each {S X} (xs : list X) (body : X -> M S unit) : M S unit :=
  match xs with
  | [] => ret tt
  | x :: xs' => bind (body x) (fun _ => for_each xs' body)
  end.

(** Weakest precondition: the run from [s] ends, in [Q] when it
    returns and in [E] when it raises. *)
Definition wp {S A} (m : M S A) (Q : A -> S -> Prop) (E : exn -> S -> Prop)
    (s : S) : Prop :=
  match m s with
  | Done a s' => Q a s'
  | Raised e s' => E e s'
  | OutOfFuel => False
  end.

(** The store a finished run leaves. *)
Definition final {S A} (r : run S A) : option S :=
  match r with
  | Done _ s | Raised _ s => Some s
  | OutOfFuel => None
  end.

End Run.

Import Run.

Notation "x <-! m ; k" := (bind m (fun x => k))
  (at level 100, m at next level, right associativity).
Notation "m ;! k" := (bind m (fun _ => k))
  (at level 100, right associativity).

(** ** Callback properties (echo)

    The axis limits and the zoom parameters are [CallbackProperty]s of
    the echo library. This module is the part of echo's behaviour the
    viewer states rely on:
    - assigning a property stores the value and, when the value differs
      from the old one ([!=]) and the property is not delayed, notifies
      the property's callbacks;
    - [delay_callback(self, props)] disables the properties on entry,
      remembering their values, and on exit (also when the block raised)
      notifies the callbacks of those whose value differs from the
      remembered one; nested blocks notify when the outermost is left.

    Callbacks of other code (the viewer, plugins) are observers: the
    model records in [seen] that they ran and which limits they found,
    and takes them not to write to the state. *)

Module Echo.

(** The four limit properties. *)
Inductive limit : Type := X_min | X_max | Y_min | Y_max.

#[global] Instance limit_eq_dec : EqDecision limit.
Proof. solve_decision. Defined.

Definition name (p : limit) : string :=
  match p with
  | X_min => "x_min" | X_max => "x_max"
  | Y_min => "y_min" | Y_max => "y_max"
  end.

Record limits : Type := Limits {
  x_min : option float;
  x_max : option float;
  y_min : option float;
  y_max : option float
}.

(** Limits at whole numbers. *)
Definition limits_of_Z (x0 x1 y0 y1 : Z) : limits :=
  Limits (Some (of_Z x0)) (Some (of_Z x1)) (Some (of_Z y0)) (Some (of_Z y1)).

Definition get_limit (p : limit) (l : limits) : option float :=
  match p with
  | X_min => x_min l | X_max => x_max l
  | Y_min => y_min l | Y_max => y_max l
  end.

Definition set_limit (p : limit) (v : option float) (l : limits) : limits :=
  match p with
  | X_min => Limits v (x_max l) (y_min l) (y_max l)
  | X_max => Limits (x_min l) v (y_min l) (y_max l)
  | Y_min => Limits (x_min l) (x_max l) v (y_max l)
  | Y_max => Limits (x_min l) (x_max l) (y_min l) v
  end.

(** The callbacks this module registers in
    [FreezableBqplotImageViewerState.__init__]. *)
Inductive callback : Type := SetZoomRadiusCenter | SetAxesLim.

#[global] Instance callback_eq_dec : EqDecision callback.
Proof. solve_decision. Defined.

(** What the instrumentation records, latest first. *)
Inductive event : Type :=
| Entered (c : callback)
    (* a callback of this module was called *)
| Notified (prop : string) (found : limits).
    (* the observers of [prop] were called and found these limits *)

(** How often the callback [c] was called. *)
Definition entries (c : callback) (t : list event) : nat :=
  length (List.filter (fun e => match e with
                                | Entered c' => bool_decide (c' = c)
                                | Notified _ _ => false
                                end) t).

(** A state object [obj] with echo's bookkeeping for it:
    [delay] is [delay_callback]'s table, one entry per disabled
    property with its nesting count and remembered value. *)
Record World (O : Type) : Type := MkWorld {
  obj : O;
  delay : list (limit * (nat * option float));
  seen : list event
}.
Arguments MkWorld {O} obj delay seen.
Arguments obj {O} w.
Arguments delay {O} w.
Arguments seen {O} w.

(** State objects with the four limit properties. *)
Class HasLimits (O : Type) : Type := {
  lims : O -> limits;
  with_lims : limits -> O -> O
}.

Section Properties.
Context {O : Type} `{HasLimits O}.

Definition with_obj (f : O -> O) (w : World O) : World O :=
  MkWorld (f (obj w)) (delay w) (seen w).
Definition record (e : event) (w : World O) : World O :=
  MkWorld (obj w) (delay w) (e :: seen w).
Definition with_delay (d : list (limit * (nat * option float)))
    (w : World O) : World O :=
  MkWorld (obj w) d (seen w).

Definition lookup_delay (p : limit)
    (d : list (limit * (nat * option float))) : option (nat * option float) :=
  snd <$> List.find (fun e => bool_decide (fst e = p)) d.
Definition remove_delay (p : limit)
    (d : list (limit * (nat * option float)))
    : list (limit * (nat * option float)) :=
  List.filter (fun e => negb (bool_decide (fst e = p))) d.

(** [p.enabled(instance)] *)
Definition enabled (p : limit) (w : World O) : bool :=
  match lookup_delay p (delay w) with
  | None => true
  | Some _ => false
  end.

(** [p.notify(instance, old, new)]: nothing while the property is
    disabled; else the observers, then the callbacks this module
    registered, through the dispatcher [call]. *)
Definition notify (registered : list callback)
    (call : callback -> M (World O) unit) (p : limit)
    : M (World O) unit :=
  w <-! get;
  if enabled p w then
    modify (record (Notified (name p) (lims (obj w)))) ;!
    for_each registered call
  else ret tt.

(** [self.<p> = v] for a limit property: through
    [FreezableState.__setattr__], then the property's [__set__]. *)
Definition assign (registered : list callback)
    (call : callback -> M (World O) unit) (p : limit) (v : option float)
    : M (World O) unit :=
  w <-! get;
  let old := get_limit p (lims (obj w)) in
  d <-! eval (FreezableState.guard class_frozen_state (name p)
                (Return (bool_decide (old = None))));
  match d with
  | FreezableState.Discard => ret tt
  | FreezableState.Store =>
      modify (with_obj (fun o => with_lims (set_limit p v (lims o)) o)) ;!
      if Py.ne old v then notify registered call p else ret tt
  end.

(** [delay_callback.__enter__] for one property. *)
Definition delay_enter (p : limit) (w : World O) : World O :=
  match lookup_delay p (delay w) with
  | None =>
      with_delay ((p, (1%nat, get_limit p (lims (obj w)))) :: delay w) w
  | Some (n, old) =>
      with_delay ((p, (S n, old)) :: remove_delay p (delay w)) w
  end.

(** [delay_callback.__exit__] for one property: the world with the
    property's count lowered, and whether its callbacks are due. *)
Definition delay_leave (p : limit) (w : World O) : World O * bool :=
  match lookup_delay p (delay w) with
  | None => (w, false)
  | Some (S (S n), old) =>
      (with_delay ((p, (S n, old)) :: remove_delay p (delay w)) w, false)
  | Some (_, old) =>
      (with_delay (remove_delay p (delay w)) w,
       Py.ne old (get_limit p (lims (obj w))))
  end.

(** [__exit__] over the properties of the block: counts first, then
    the notifications that are due, in the order of the properties. *)
Fixpoint delay_exit_scan (ps : list limit) (w : World O)
    : World O * list limit :=
  match ps with
  | [] => (w, [])
  | p :: ps' =>
      let '(w1, due) := delay_leave p w in
      let '(w2, rest) := delay_exit_scan ps' w1 in
      (w2, if due then p :: rest else rest)
  end.

Definition delay_exit (registered : list callback)
    (call : callback -> M (World O) unit) (ps : list limit)
    : M (World O) unit :=
  fun w =>
    let '(w1, due) := delay_exit_scan ps w in
    for_each due (notify registered call) w1.

(** [with delay_callback(self, *ps): body] *)
Definition delay_callback (registered : list callback)
    (call : callback -> M (World O) unit) (ps : list limit)
    (body : M (World O) unit) : M (World O) unit :=
  modify (fun w => foldl (fun w p => delay_enter p w) w ps) ;!
  finally body (delay_exit registered call ps).

(** An invariant that the observers and the delay table do not touch. *)
Definition stable (I : World O -> Prop) : Prop :=
  (forall w prop found, I w -> I (record (Notified prop found) w))
  /\ (forall w d, I w -> I (with_delay d w)).

(** The world after the store of [self.<p> = v]. *)
Definition stored (p : limit) (v : option float) (w : World O) : World O :=
  with_obj (fun o => with_lims (set_limit p v (lims o)) o) w.

(** An invariant that an observer notified of the limits as they are,
    and the delay table, do not touch. *)
Definition stable_here (I : World O -> Prop) : Prop :=
  (forall w prop, I w -> I (record (Notified prop (lims (obj w))) w))
  /\ (forall w d, I w -> I (with_delay d w)).

(** Since the world [w0], the observers of [w] were called only when
    the limits were [l]: the trace of [w] extends that of [w0] by events
    whose notifications all found [l]. *)
Definition observed_since (w0 w : World O) (l : limits) : Prop :=
  exists new, seen w = new ++ seen w0
              /\ forall prop found, Notified prop found ∈ new -> found = l.

End Properties.

End Echo.

Import Echo.

(** ** [FreezableProfileViewerState] *)

Module Profile.

(** astropy's part: [spectral_axis_conversion(values, old, new)] of
    [jdaviz.core.unit_conversion_utils], a function of the values and
    the two units that returns the converted array or raises. *)
Class UnitConversion : Type := {
  Unit : Type;
  spectral_axis_conversion : list float -> Unit -> Unit -> outcome (list float)
}.

(** A layer of the viewer, as far as this class reads it: [visible]
    is glue's flag of the layer state; [profile] is what the property
    [layer.profile] gives: an exception, [None], or the arrays
    [(x, y)]. *)
Record LayerState : Type := {
  visible : bool;
  profile : outcome (option (list float * list float))
}.

Record State : Type := MkState {
  reference_data : option string;
  x_att_pixel : option string;
  layers : list LayerState;
  limits_of : limits
}.

#[global] Instance state_limits : HasLimits State := {
  lims := limits_of;
  with_lims l s := MkState (reference_data s) (x_att_pixel s) (layers s) l
}.

(** No method of this class is registered as a callback. *)
Definition no_call : callback -> M (World State) unit := fun _ => ret tt.

Definition set_limit_property (p : limit) (v : option float)
    : M (World State) unit :=
  assign [] no_call p v.

(** One turn of the loop of [_reset_x_limits]. *)
Definition reset_x_step (acc : float * float) (layer : LayerState)
    : float * float :=
  match profile layer with
  | Throw _ => acc
  | Return None => acc
  | Return (Some (x, _)) =>
      match x with
      | [] => acc
      | x0 :: xs =>
          (Py.min (fst acc) (nanmin1 x0 xs), Py.max (snd acc) (nanmax1 x0 xs))
      end
  end.

(** The bounds [_reset_x_limits] has after its loop. *)
Definition reset_x_bounds (ls : list LayerState) : float * float :=
  foldl reset_x_step (inf, neg_inf) ls.

Definition _reset_x_limits : M (World State) unit :=
  w <-! get;
  match reference_data (obj w), x_att_pixel (obj w) with
  | Some _, Some _ =>
      let '(lo, hi) := reset_x_bounds (layers (obj w)) in
      if negb (isfinite lo && isfinite hi) then ret tt
      else
        delay_callback [] no_call [X_min; X_max]
          (set_limit_property X_min (Some lo) ;!
           set_limit_property X_max (Some hi))
  | _, _ => ret tt
  end.

Definition _convert_units_x_limits `{UnitConversion}
    (old_unit new_unit : option Unit) : M (World State) unit :=
  w <-! get;
  match x_min (lims (obj w)), x_max (lims (obj w)) with
  | Some lo, Some hi =>
      match old_unit, new_unit with
      | Some old, Some new =>
          x_lims_new <-! eval (spectral_axis_conversion [lo; hi] old new);
          lo' <-! eval (nanmin x_lims_new);
          set_limit_property X_min (Some lo') ;!
          hi' <-! eval (nanmax x_lims_new);
          set_limit_property X_max (Some hi')
      | _, _ => _reset_x_limits
      end
  | _, _ => ret tt
  end.

(** What the claimed specification of [_reset_x_limits] reads: the
    x-values of the visible layers that give a profile. *)
Definition visible_x_values (ls : list LayerState) : list float :=
  concat (omap (fun l =>
    if visible l then
      match profile l with
      | Return (Some (x, _)) => Some x
      | _ => None
      end
    else None) ls).

(** The x-values of all layers that give a profile. *)
Definition profile_x_values (ls : list LayerState) : list float :=
  concat (omap (fun l =>
    match profile l with
    | Return (Some (x, _)) => Some x
    | _ => None
    end) ls).

End Profile.

(** ** [FreezableBqplotImageViewerState] *)

Module Image.

(** astropy's part: a coordinate transform (WCS) and its four
    conversions. [*_values] take and give plain numbers, the other two
    go through a sky coordinate. *)
Record SkyCoord : Type := { ra : float; dec : float }.

Class WCS : Type := {
  wcs : Type;
  world_to_pixel_values :
    wcs -> float * float -> float * float
    -> outcome ((float * float) * (float * float));
  pixel_to_world_values :
    wcs -> float * float -> float * float
    -> outcome ((float * float) * (float * float));
  pixel_to_world : wcs -> Z -> Z -> outcome SkyCoord;
  world_to_pixel : wcs -> SkyCoord -> outcome (float * float)
}.

Section Records.
Context `{WCS}.

Record ComponentID : Type := { cid_label : string; axis : nat }.

(** A glue data object: label, shape, coordinates, pixel components. *)
Record Data : Type := {
  label : string;
  shape : list Z;
  coords : option wcs;
  pixel_component_ids : list ComponentID
}.

Definition ndim (d : Data) : nat := length (shape d).

(** A layer state: [visible] and [layer.layer] (with its [data]). *)
Record LayerState : Type := { visible : bool; layer : Data }.

(** The viewer, as far as the state reads it:
    [_viewer.jdaviz_app.config] and the coordinates of the image
    that [get_reference_image_data] gives for it. *)
Record Viewer : Type := {
  config : string;
  reference_coords : option wcs
}.

Record State : Type := MkState {
  limits_of : limits;
  zoom_radius : float;
  zoom_center_x : float;
  zoom_center_y : float;
  linked_by_wcs : bool;
  _during_zoom_sync : bool;
  (* [None]: the attribute is not set; [Some None]: it is [None] *)
  _viewer : option (option Viewer);
  reference_data : option Data;
  layers : list LayerState;
  data_collection : list Data
}.

Definition with_limits (l : limits) (s : State) : State :=
  MkState l (zoom_radius s) (zoom_center_x s) (zoom_center_y s)
    (linked_by_wcs s) (_during_zoom_sync s) (_viewer s)
    (reference_data s) (layers s) (data_collection s).

Definition with_during_zoom_sync (b : bool) (s : State) : State :=
  MkState (limits_of s) (zoom_radius s) (zoom_center_x s) (zoom_center_y s)
    (linked_by_wcs s) b (_viewer s)
    (reference_data s) (layers s) (data_collection s).

Definition with_viewer (v : option Viewer) (s : State) : State :=
  MkState (limits_of s) (zoom_radius s) (zoom_center_x s) (zoom_center_y s)
    (linked_by_wcs s) (_during_zoom_sync s) (Some v)
    (reference_data s) (layers s) (data_collection s).

(** The three zoom properties. *)
Inductive zoom : Type := Zoom_radius | Zoom_center_x | Zoom_center_y.

Definition zoom_name (z : zoom) : string :=
  match z with
  | Zoom_radius => "zoom_radius"
  | Zoom_center_x => "zoom_center_x"
  | Zoom_center_y => "zoom_center_y"
  end.

Definition get_zoom (z : zoom) (s : State) : float :=
  match z with
  | Zoom_radius => zoom_radius s
  | Zoom_center_x => zoom_center_x s
  | Zoom_center_y => zoom_center_y s
  end.

Definition set_zoom (z : zoom) (v : float) (s : State) : State :=
  MkState (limits_of s)
    (match z with Zoom_radius => v | _ => zoom_radius s end)
    (match z with Zoom_center_x => v | _ => zoom_center_x s end)
    (match z with Zoom_center_y => v | _ => zoom_center_y s end)
    (linked_by_wcs s) (_during_zoom_sync s) (_viewer s)
    (reference_data s) (layers s) (data_collection s).

(** [hasattr(self, '_viewer')] *)
Definition has_viewer (s : State) : bool :=
  match _viewer s with Some _ => true | None => false end.

End Records.

#[global] Instance state_limits `{WCS} : HasLimits State := {
  lims := limits_of;
  with_lims := with_limits
}.

(** What glue's [_adjust_limits_aspect] does with the limits it finds. *)
Inductive aspect_action : Type :=
| AspectKeep
| AspectSet (l : limits)
| AspectRaise (e : exn).

(** glue's part: the aspect-ratio adjustment of the base class, which
    reads the four limits (the layout of the viewer is fixed) and
    leaves them, replaces them inside a [delay_callback] block, or
    raises; and the [reset_limits] of the base class. *)
Class Glue `{WCS} : Type := {
  adjust_limits_aspect : limits -> aspect_action;
  super_reset_limits : M (World State) unit
}.

Section Methods.
Context `{Glue}.

Definition World : Type := Echo.World State.

(** The callbacks [__init__] registers: [_set_axes_lim] on the four
    limits, [_set_zoom_radius_center] on the three zoom properties. *)
Definition on_limit : list callback := [SetAxesLim].
Definition on_zoom : list callback := [SetZoomRadiusCenter].

(** [self.<p> = v] for a limit property. *)
Definition set_limit_property (call : callback -> M World unit)
    (p : limit) (v : option float) : M World unit :=
  assign on_limit call p v.

(** [self.<z> = v] for a zoom property: through
    [FreezableState.__setattr__], then the property's [__set__].
    No code of the module delays a zoom property. *)
Definition set_zoom_property (call : callback -> M World unit)
    (z : zoom) (v : float) : M World unit :=
  w <-! get;
  let old := get_zoom z (obj w) in
  d <-! eval (FreezableState.guard class_frozen_state (zoom_name z)
                (Return false));
  match d with
  | FreezableState.Discard => ret tt
  | FreezableState.Store =>
      modify (with_obj (set_zoom z v)) ;!
      if negb (feq old v) then
        w' <-! get;
        modify (record (Notified (zoom_name z) (lims (obj w')))) ;!
        for_each on_zoom call
      else ret tt
  end.

(** [self._during_zoom_sync = b], a private name. *)
Definition set_during_zoom_sync (b : bool) : M World unit :=
  d <-! eval (FreezableState.guard class_frozen_state "_during_zoom_sync"
                (Return false));
  match d with
  | FreezableState.Discard => ret tt
  | FreezableState.Store => modify (with_obj (with_during_zoom_sync b))
  end.

(** [with self.during_zoom_sync(): body] *)
Definition during_zoom_sync (body : M World unit) : M World unit :=
  set_during_zoom_sync true ;!
  finally body (set_during_zoom_sync false).

(** [self.x_min, self.x_max, self.y_min, self.y_max = a, b, c, d] *)
Definition set_four_limits (call : callback -> M World unit)
    (b : float * float * float * float) : M World unit :=
  let '(x0, x1, y0, y1) := b in
  set_limit_property call X_min (Some x0) ;!
  set_limit_property call X_max (Some x1) ;!
  set_limit_property call Y_min (Some y0) ;!
  set_limit_property call Y_max (Some y1).

Definition all_limits : list limit := [X_min; X_max; Y_min; Y_max].

(** [self._adjust_limits_aspect()] of the base class. *)
Definition _adjust_limits_aspect (call : callback -> M World unit)
    : M World unit :=
  w <-! get;
  match adjust_limits_aspect (lims (obj w)) with
  | AspectKeep => ret tt
  | AspectRaise e => raise e
  | AspectSet l =>
      delay_callback on_limit call all_limits
        (set_limit_property call X_min (x_min l) ;!
         set_limit_property call X_max (x_max l) ;!
         set_limit_property call Y_min (y_min l) ;!
         set_limit_property call Y_max (y_max l))
  end.

(** [self._viewer], then the coordinates of the reference image:
    AttributeError when the viewer or the coordinates are [None]. *)
Definition reference_wcs (s : State) : outcome wcs :=
  match _viewer s with
  | Some (Some v) =>
      match reference_coords v with
      | Some c => Return c
      | None => Throw AttributeError
      end
  | _ => Throw AttributeError
  end.

(** Centre and radius of the zoom circle in pixels of the reference
    data: lines 151 to 161. *)
Definition zoom_in_pixels (s : State) : outcome (float * float * float) :=
  if linked_by_wcs s then
    ref_wcs <-? reference_wcs s;
    cr <-? world_to_pixel_values ref_wcs
             (zoom_center_x s, fadd (zoom_center_x s) (fabs (zoom_radius s)))
             (zoom_center_y s, zoom_center_y s);
    let '((center_x, center_xr), (center_y, _)) := cr in
    Return (center_x, center_y, fabs (fsub center_xr center_x))
  else
    Return (zoom_center_x s, zoom_center_y s, fabs (zoom_radius s)).

(** Centre plus and minus radius: lines 166 to 169. *)
Definition zoom_box (c : float * float * float)
    : float * float * float * float :=
  let '(center_x, center_y, radius) := c in
  (fsub center_x radius, fadd center_x radius,
   fsub center_y radius, fadd center_y radius).

Definition _set_zoom_radius_center_body (call : callback -> M World unit)
    : M World unit :=
  w <-! get;
  if _during_zoom_sync (obj w) || negb (has_viewer (obj w)) then ret tt
  else
    c <-! eval (zoom_in_pixels (obj w));
    during_zoom_sync
      (set_four_limits call (zoom_box c) ;!
       _adjust_limits_aspect call).

(** The limits in axes units: lines 188 to 196. *)
Definition limits_in_axes_units (s : State)
    (x_min x_max y_min y_max : float)
    : outcome (float * float * float * float) :=
  if linked_by_wcs s then
    ref_wcs <-? reference_wcs s;
    l <-? pixel_to_world_values ref_wcs (x_min, x_max) (y_min, y_max);
    let '((x0, x1), (y0, y1)) := l in
    Return (x0, x1, y0, y1)
  else
    Return (x_min, x_max, y_min, y_max).

Definition _set_axes_lim_body (call : callback -> M World unit)
    : M World unit :=
  w <-! get;
  if _during_zoom_sync (obj w) || negb (has_viewer (obj w)) then ret tt
  else
    let l := lims (obj w) in
    match x_min l, x_max l, y_min l, y_max l with
    | Some x0, Some x1, Some y0, Some y1 =>
        b <-! eval (limits_in_axes_units (obj w) x0 x1 y0 y1);
        let '(x_min, x_max, y_min, y_max) := b in
        during_zoom_sync
          (set_zoom_property call Zoom_radius
             (fabs (fmul half (Py.min (fsub x_max x_min) (fsub y_max y_min)))) ;!
           set_zoom_property call Zoom_center_x
             (fmul half (fadd x_max x_min)) ;!
           set_zoom_property call Zoom_center_y
             (fmul half (fadd y_max y_min)))
    | _, _, _, _ => ret tt
    end.

(** A call of one of the two callbacks. The callbacks call each other
    through the properties they assign, so the model bounds the depth
    of the calls by [fuel]: a call at depth zero is [OutOfFuel]. The
    guard [_during_zoom_sync] makes depth two enough for every state. *)
Fixpoint run_callback (fuel : nat) (c : callback) : M World unit :=
  match fuel with
  | O => fun _ => OutOfFuel
  | S n =>
      modify (record (Entered c)) ;!
      match c with
      | SetZoomRadiusCenter => _set_zoom_radius_center_body (run_callback n)
      | SetAxesLim => _set_axes_lim_body (run_callback n)
      end
  end.

Definition _set_zoom_radius_center (fuel : nat) : M World unit :=
  run_callback fuel SetZoomRadiusCenter.

Definition _set_axes_lim (fuel : nat) : M World unit :=
  run_callback fuel SetAxesLim.

(** [self._viewer = viewer], a private name, then [_set_axes_lim()]. *)
Definition _set_viewer (fuel : nat) (viewer : option Viewer) : M World unit :=
  d <-! eval (FreezableState.guard class_frozen_state "_viewer"
                (Return false));
  match d with
  | FreezableState.Discard => ret tt
  | FreezableState.Store => modify (with_obj (with_viewer viewer))
  end ;!
  _set_axes_lim fuel.

(** [l[i]] *)
Definition index {A} (l : list A) (i : nat) : outcome A :=
  match nth_error l i with
  | Some a => Return a
  | None => Throw IndexError
  end.

(** [next(x for x in data_collection if x.label == lbl)] *)
Definition data_by_label (dc : list Data) (lbl : string) : outcome Data :=
  match List.find (fun d => String.eqb (label d) lbl) dc with
  | Some d => Return d
  | None => Throw StopIteration
  end.

(** One turn of the first loop of [_get_reset_limits]: the running
    bounds and [wcs_success]. *)
Definition wcs_step (return_as_world : bool) (s : State) (ref_coords : wcs)
    (acc : float * float * float * float * bool) (l : LayerState)
    : outcome (float * float * float * float * bool) :=
  let '(x_min, x_max, y_min, y_max, wcs_success) := acc in
  if negb (visible l) then Return acc
  else
    data <-? data_by_label (data_collection s) (label (layer l));
    match coords data with
    | None => Return acc
    | Some data_coords =>
        let pixel_ids := pixel_component_ids (layer l) in
        world_bottom_left <-? pixel_to_world data_coords 0 0;
        id1 <-? index pixel_ids 1;
        n1 <-? index (shape (layer l)) (axis id1);
        id0 <-? index pixel_ids 0;
        n0 <-? index (shape (layer l)) (axis id0);
        world_top_right <-? pixel_to_world data_coords (n1 - 1) (n0 - 1);
        if return_as_world then
          Return (Py.min x_min (ra world_bottom_left),
                  Py.max x_max (ra world_top_right),
                  Py.min y_min (dec world_bottom_left),
                  Py.max y_max (dec world_top_right), true)
        else
          bl <-? world_to_pixel ref_coords world_bottom_left;
          tr <-? world_to_pixel ref_coords world_top_right;
          let '(x_bl, y_bl) := bl in
          let '(x_tr, y_tr) := tr in
          let x_pix_min := Py.min x_bl x_tr in
          let x_pix_max := Py.max x_bl x_tr in
          let y_pix_min := Py.min y_bl y_tr in
          let y_pix_max := Py.max y_bl y_tr in
          Return (Py.min x_min (fsub x_pix_min half),
                  Py.max x_max (fadd x_pix_max half),
                  Py.min y_min (fsub y_pix_min half),
                  Py.max y_max (fadd y_pix_max half), true)
    end.

(** [for x in xs: acc = step(acc, x)] with a step that may raise. *)
Fixpoint fold_outcome {A X} (step : A -> X -> outcome A) (acc : A)
    (xs : list X) : outcome A :=
  match xs with
  | [] => Return acc
  | x :: xs' => acc' <-? step acc x; fold_outcome step acc' xs'
  end.

(** [[comp for comp in pixel_ids if comp.label.endswith(suffix)][0]] *)
Definition pixel_id (suffix : string) (pixel_ids : list ComponentID)
    : outcome ComponentID :=
  index (List.filter (fun comp => endswith (cid_label comp) suffix) pixel_ids) 0.

(** [layer.layer.data.shape[pixel_id.axis] - 0.5] for the pixel
    component whose label ends with [suffix]. *)
Definition extent (suffix : string) (l : LayerState) : outcome float :=
  id <-? pixel_id suffix (pixel_component_ids (layer l));
  n <-? index (shape (layer l)) (axis id);
  Return (fsub (of_Z n) half).

(** The layers the second loop does not skip. *)
Definition eligible (l : LayerState) : bool :=
  visible l && negb (Nat.eqb (ndim (layer l)) 1).

(** The values [shape - 0.5] of the eligible layers along the pixel axis
    whose label ends with [suffix]. *)
Definition extents (suffix : string) (ls : list LayerState) : list float :=
  omap (fun l => if eligible l
                 then match extent suffix l with
                      | Return v => Some v
                      | Throw _ => None
                      end
                 else None) ls.

(** One turn of the second loop of [_get_reset_limits]: the running
    [x_max] and [y_max]. *)
Definition pixel_step (acc : float * float) (l : LayerState)
    : outcome (float * float) :=
  let '(x_max, y_max) := acc in
  if negb (visible l) || Nat.eqb (ndim (layer l)) 1 then Return acc
  else
    let pixel_ids := pixel_component_ids (layer l) in
    pixel_id_x <-? pixel_id "[x]" pixel_ids;
    pixel_id_y <-? pixel_id "[y]" pixel_ids;
    n_x <-? index (shape (layer l)) (axis pixel_id_x);
    let x_max := Py.max x_max (fsub (of_Z n_x) half) in
    n_y <-? index (shape (layer l)) (axis pixel_id_y);
    Return (x_max, Py.max y_max (fsub (of_Z n_y) half)).

(** [self.reference_data.coords] *)
Definition reference_data_coords (s : State) : outcome (option wcs) :=
  match reference_data s with
  | Some d => Return (coords d)
  | None => Throw AttributeError
  end.

(** The first half of [_get_reset_limits]: the bounds from the
    coordinate transforms, when [wcs_success]. *)
Definition wcs_limits (return_as_world : bool) (s : State)
    : outcome (option (float * float * float * float)) :=
  if linked_by_wcs s then
    rc <-? reference_data_coords s;
    match rc with
    | None => Return None
    | Some ref_coords =>
        r <-? fold_outcome (wcs_step return_as_world s ref_coords)
                (inf, neg_inf, inf, neg_inf, false) (layers s);
        let '(x_min, x_max, y_min, y_max, wcs_success) := r in
        Return (if wcs_success then Some (x_min, x_max, y_min, y_max)
                else None)
    end
  else Return None.

Definition minus_half : float := fneg half.

(** The second half: the bounds from the shapes. *)
Definition pixel_limits (s : State)
    : outcome (float * float * float * float) :=
  m <-? fold_outcome pixel_step (neg_inf, neg_inf) (layers s);
  let '(x_max, y_max) := m in
  Return (minus_half, x_max, minus_half, y_max).

Definition _get_reset_limits (return_as_world : bool) (s : State)
    : outcome (float * float * float * float) :=
  r <-? wcs_limits return_as_world s;
  match r with
  | Some b => Return b
  | None => pixel_limits s
  end.

(** [getattr(self, '_viewer', None) is not None and
     self._viewer.jdaviz_app.config != 'imviz'] *)
Definition other_application (s : State) : bool :=
  match _viewer s with
  | Some (Some v) => negb (String.eqb (config v) "imviz")
  | _ => false
  end.

(** [np.any(~np.isfinite([a, b, c, d]))] *)
Definition any_not_finite (b : float * float * float * float) : bool :=
  let '(x0, x1, y0, y1) := b in
  negb (isfinite x0) || negb (isfinite x1)
  || negb (isfinite y0) || negb (isfinite y1).

Definition reset_limits (fuel : nat) : M World unit :=
  w <-! get;
  if other_application (obj w) then super_reset_limits
  else
    match reference_data (obj w) with
    | None => ret tt
    | Some _ =>
        b <-! eval (_get_reset_limits false (obj w));
        if any_not_finite b then ret tt
        else
          delay_callback on_limit (run_callback fuel) all_limits
            (set_four_limits (run_callback fuel) b ;!
             _adjust_limits_aspect (run_callback fuel))
    end.

(** The four bounds as limits. *)
Definition box_limits (b : float * float * float * float) : limits :=
  let '(x0, x1, y0, y1) := b in Limits (Some x0) (Some x1) (Some y0) (Some y1).

(** The limits [_adjust_limits_aspect] leaves when it finds [l]. *)
Definition adjusted (l : limits) : limits :=
  match adjust_limits_aspect l with
  | AspectSet l' => l'
  | AspectKeep | AspectRaise _ => l
  end.

(** A dispatcher whose callbacks come back at once, with the object as
    it was, whenever they are called during a zoom sync. *)
Definition quiet (call : callback -> M World unit) : Prop :=
  forall c w, _during_zoom_sync (obj w) = true ->
              call c w = Done tt (record (Entered c) w).

(** The object is [o], and the callback [c] was called [n] times. *)
Definition synced (o : State) (c : callback) (n : nat) (w : World) : Prop :=
  obj w = o /\ entries c (seen w) = n.

(** The zoom values [_set_axes_lim] derives from limits in axes units. *)
Definition zoom_of_limits (b : float * float * float * float) (s : State) : State :=
  let '(x_min, x_max, y_min, y_max) := b in
  set_zoom Zoom_center_y (fmul half (fadd y_max y_min))
    (set_zoom Zoom_center_x (fmul half (fadd x_max x_min))
       (set_zoom Zoom_radius
          (fabs (fmul half (Py.min (fsub x_max x_min) (fsub y_max y_min)))) s)).

(** Since the world [w0]: the limits have become [l], what is neither a
    limit nor a zoom property is as in [w0], and the observers were
    called only when the limits were [l]. *)
Definition kept (w0 : World) (l : limits) (f : State -> Prop) (w : World)
    : Prop :=
  lims (obj w) = l /\ f (obj w) /\ observed_since w0 w l.

(** What neither a limit nor a zoom property holds. *)
Definition frame (s : State)
    : bool * bool * option (option Viewer) * option Data
      * list LayerState * list Data :=
  (linked_by_wcs s, _during_zoom_sync s, _viewer s, reference_data s,
   layers s, data_collection s).

(** The state with other layers. *)
Definition with_layers (ls : list LayerState) (s : State) : State :=
  MkState (limits_of s) (zoom_radius s) (zoom_center_x s) (zoom_center_y s)
    (linked_by_wcs s) (_during_zoom_sync s) (_viewer s)
    (reference_data s) ls (data_collection s).

End Methods.

End Image.

(** ** The limits under the aspect callbacks of the base class

    [super().__init__] (line 129) runs the constructor of glue's
    [MatplotlibDataViewerState], which registers on each of the four
    limits, with priority 10000, a callback that runs the aspect
    adjustment of the base class: [_adjust_limits_aspect_x] on [x_min]
    and [x_max], [_adjust_limits_aspect_y] on [y_min] and [y_max]. echo
    calls the callbacks of a property by priority, so at an assignment
    of a limit that is not delayed the callback of the base class runs
    first, before the observers and before [_set_axes_lim]. The
    adjustment is decorated [avoid_circular]: a call of it made while
    one is running returns at once.

    [Image.run_callback] runs the callbacks this module registers. The
    dispatcher of this section runs those of the base class as well;
    it is the one to use where the limits that an assignment outside a
    [delay_callback] block leaves matter, as in line 170. Where the
    callbacks of the base class keep every box they find, the two runs
    of [_set_zoom_radius_center] are the same
    ([AspectFacts.set_zoom_radius_center_passive]). *)

Module Aspect.
Import Image.

(** glue's part: what the two callbacks of the base class do with the
    limits they find, as [adjust_limits_aspect] says it for the call
    without arguments. [adjust_limits_aspect_x] is the callback on
    [x_min] and [x_max], glue's [_adjust_limits_aspect_x], which lets the
    adjustment move the y-limits; [adjust_limits_aspect_y] is the one on
    [y_min] and [y_max]. *)
Class Callbacks `{Glue} : Type := {
  adjust_limits_aspect_x : limits -> aspect_action;
  adjust_limits_aspect_y : limits -> aspect_action
}.

Section Methods.
Context `{Callbacks}.

(** The callback of the base class on the limit [p]. *)
Definition on_assignment (p : limit) : limits -> aspect_action :=
  match p with
  | X_min | X_max => adjust_limits_aspect_x
  | Y_min | Y_max => adjust_limits_aspect_y
  end.

(** A call of the aspect adjustment of the base class. [running] says
    whether a call of it is running already ([avoid_circular]);
    [action] is what it does with the limits it finds; [call] is the
    dispatcher inside the call, where the callbacks of the base class
    return at once: the notifications that leave its [delay_callback]
    block reach the observers and [_set_axes_lim]. *)
Definition _adjust_limits_aspect (running : bool)
    (action : limits -> aspect_action) (call : callback -> M World unit)
    : M World unit :=
  if running then ret tt
  else
    w <-! get;
    match action (lims (obj w)) with
    | AspectKeep => ret tt
    | AspectRaise e => raise e
    | AspectSet l =>
        delay_callback on_limit call all_limits
          (Image.set_limit_property call X_min (x_min l) ;!
           Image.set_limit_property call X_max (x_max l) ;!
           Image.set_limit_property call Y_min (y_min l) ;!
           Image.set_limit_property call Y_max (y_max l))
    end.

(** The callbacks on the limit [p] that come after the one of the base
    class: the observers and [_set_axes_lim], as [Echo.notify] has
    them. *)
Definition notify_others (call : callback -> M World unit) (p : limit)
    : M World unit :=
  w <-! get;
  modify (record (Notified (name p) (lims (obj w)))) ;!
  for_each on_limit call.

(** [self.<p> = v] for a limit property: the store, then, when the value
    differs and the property is not delayed, the callback of the base
    class, the observers and [_set_axes_lim]. *)
Definition set_limit_property (running : bool)
    (call : bool -> callback -> M World unit) (p : limit) (v : option float)
    : M World unit :=
  w <-! get;
  let old := get_limit p (lims (obj w)) in
  d <-! eval (FreezableState.guard class_frozen_state (name p)
                (Return (bool_decide (old = None))));
  match d with
  | FreezableState.Discard => ret tt
  | FreezableState.Store =>
      modify (stored p v) ;!
      if Py.ne old v then
        w1 <-! get;
        if enabled p w1 then
          _adjust_limits_aspect running (on_assignment p) (call true) ;!
          notify_others (call running) p
        else ret tt
      else ret tt
  end.

(** [self.x_min, self.x_max, self.y_min, self.y_max = a, b, c, d] *)
Definition set_four_limits (running : bool)
    (call : bool -> callback -> M World unit)
    (b : float * float * float * float) : M World unit :=
  let '(x0, x1, y0, y1) := b in
  set_limit_property running call X_min (Some x0) ;!
  set_limit_property running call X_max (Some x1) ;!
  set_limit_property running call Y_min (Some y0) ;!
  set_limit_property running call Y_max (Some y1).

Definition _set_zoom_radius_center_body (running : bool)
    (call : bool -> callback -> M World unit) : M World unit :=
  w <-! get;
  if _during_zoom_sync (obj w) || negb (has_viewer (obj w)) then ret tt
  else
    c <-! eval (zoom_in_pixels (obj w));
    during_zoom_sync
      (set_four_limits running call (zoom_box c) ;!
       _adjust_limits_aspect running adjust_limits_aspect (call true)).

(** A call of one of the two callbacks of this module, at most [fuel]
    calls deep, while a call of the aspect adjustment is [running] or
    not. *)
Fixpoint run_callback (fuel : nat) (running : bool) (c : callback)
    : M World unit :=
  match fuel with
  | O => fun _ => OutOfFuel
  | S n =>
      modify (record (Entered c)) ;!
      match c with
      | SetZoomRadiusCenter =>
          _set_zoom_radius_center_body running (run_callback n)
      | SetAxesLim => _set_axes_lim_body (run_callback n running)
      end
  end.

Definition _set_zoom_radius_center (fuel : nat) : M World unit :=
  run_callback fuel false SetZoomRadiusCenter.

(** The limits a step leaves, and the exception it raised if any. *)
Definition after (a : aspect_action) (l : limits) : limits * option exn :=
  match a with
  | AspectKeep => (l, None)
  | AspectSet l' => (l', None)
  | AspectRaise e => (l, Some e)
  end.

(** What [self.<p> = v] leaves of the limits [l], outside any
    [delay_callback] block and during a zoom sync. *)
Definition assigned (p : limit) (v : float) (l : limits)
    : limits * option exn :=
  let l1 := set_limit p (Some v) l in
  if Py.ne (get_limit p l) (Some v) then after (on_assignment p l1) l1
  else (l1, None).

Definition and_then (r : limits * option exn)
    (step : limits -> limits * option exn) : limits * option exn :=
  match r with
  | (l, None) => step l
  | (l, Some e) => (l, Some e)
  end.

(** The steps in order, up to the first exception. *)
Fixpoint and_all (steps : list (limits -> limits * option exn)) (l : limits)
    : limits * option exn :=
  match steps with
  | [] => (l, None)
  | step :: rest => and_then (step l) (and_all rest)
  end.

(** What lines 170 and 172 leave of the limits [l] for the box [b]: the
    four assignments, each with the callback of the base class, then the
    adjustment; all of it up to the first exception. *)
Definition settled (b : float * float * float * float) (l : limits)
    : limits * option exn :=
  let '(x0, x1, y0, y1) := b in
  and_all [ assigned X_min x0; assigned X_max x1;
            assigned Y_min y0; assigned Y_max y1;
            fun l' => after (adjust_limits_aspect l') l' ] l.

(** During a zoom sync and outside any [delay_callback] block, [m]
    changes the limits as [step] says and nothing else of the object;
    it raises when [step] does, and leaves no property delayed. *)
Definition settles (m : M World unit)
    (step : limits -> limits * option exn) : Prop :=
  forall w, _during_zoom_sync (obj w) = true -> delay w = [] ->
    exists w',
      m w = match snd (step (lims (obj w))) with
            | None => Done tt w'
            | Some e => Raised e w'
            end
      /\ obj w' = with_limits (fst (step (lims (obj w)))) (obj w)
      /\ delay w' = [].

(** The world with the zoom radius replaced. *)
Definition with_radius (r : float) (w : World) : World :=
  with_obj (set_zoom Zoom_radius r) w.

(** A run with the world it leaves changed by [f]. *)
Definition map_run (f : World -> World) (r : run World unit)
    : run World unit :=
  match r with
  | Done a w => Done a (f w)
  | Raised e w => Raised e (f w)
  | OutOfFuel => OutOfFuel
  end.

(** During a zoom sync [m] does not read the zoom radius and does not
    write it: from the world with the radius replaced by [r] it runs to
    the same end, in the world it would have left with the radius
    replaced by [r]. It ends, and leaves the sync on. *)
Definition blind (r : float) (m : M World unit) : Prop :=
  forall w, _during_zoom_sync (obj w) = true ->
    m (with_radius r w) = map_run (with_radius r) (m w)
    /\ wp m (fun _ w' => _during_zoom_sync (obj w') = true)
            (fun _ w' => _during_zoom_sync (obj w') = true) w.

End Methods.

End Aspect.

(** ** Worlds and collaborators used as examples *)

Module Examples.

(** A unit conversion that knows nanometres and angstroms: one
    nanometre is ten angstroms. *)
#[local] Instance nm_angstrom : Profile.UnitConversion := {
  Profile.Unit := string;
  Profile.spectral_axis_conversion xs old new :=
    if String.eqb old new then Return xs
    else if String.eqb old "nm" && String.eqb new "Angstrom"
    then Return (map (fmul (of_Z 10)) xs)
    else Throw (Error "UnitConversionError")
}.

Definition profile_layer (visible : bool) (x : list Z) : Profile.LayerState :=
  {| Profile.visible := visible;
     Profile.profile := Return (Some (map of_Z x, map of_Z x)) |}.

(** A profile viewer with two layers, the first of them hidden but with
    a profile (glue keeps the cached profile of a layer that was
    hidden), and with the given x-limits. *)
Definition profile_world (lo hi : option Z) : World Profile.State :=
  MkWorld
    (Profile.MkState (Some "spectrum") (Some "Pixel Axis 0 [x]")
       [profile_layer false [1; 2]; profile_layer true [5; 6]]
       (Limits (of_Z <$> lo) (of_Z <$> hi) None None))
    [] [].

(** A viewer without coordinate transforms, where every conversion
    raises. *)
#[local] Instance no_wcs : Image.WCS := {
  Image.wcs := Empty_set;
  Image.world_to_pixel_values _ _ _ := Throw (Error "wcs");
  Image.pixel_to_world_values _ _ _ := Throw (Error "wcs");
  Image.pixel_to_world _ _ _ := Throw (Error "wcs");
  Image.world_to_pixel _ _ := Throw (Error "wcs")
}.

(** Coordinate transforms that shift both axes by a whole number: the
    world coordinates of a pixel are its pixel coordinates plus the
    shift. *)
Definition shift_wcs : Image.WCS := {|
  Image.wcs := Z;
  Image.world_to_pixel_values c xs ys :=
    Return ((fsub (fst xs) (of_Z c), fsub (snd xs) (of_Z c)),
            (fsub (fst ys) (of_Z c), fsub (snd ys) (of_Z c)));
  Image.pixel_to_world_values c xs ys :=
    Return ((fadd (fst xs) (of_Z c), fadd (snd xs) (of_Z c)),
            (fadd (fst ys) (of_Z c), fadd (snd ys) (of_Z c)));
  Image.pixel_to_world c x y :=
    Return {| Image.ra := of_Z (x + c); Image.dec := of_Z (y + c) |};
  Image.world_to_pixel c sky :=
    Return (fsub (Image.ra sky) (of_Z c), fsub (Image.dec sky) (of_Z c))
|}.

(** An aspect adjustment that leaves every box as it is (glue does so
    when the aspect is ['auto'], and when the box already has the ratio
    of the axes), and one that raises. *)
Definition keep_aspect : Image.Glue := {|
  Image.adjust_limits_aspect := fun _ => Image.AspectKeep;
  Image.super_reset_limits := ret tt
|}.

Definition failing_aspect : Image.Glue := {|
  Image.adjust_limits_aspect := fun _ => Image.AspectRaise (Error "aspect");
  Image.super_reset_limits := ret tt
|}.

(** The aspect adjustment of a viewer twice as wide as high, as far as
    the box 3, 7, 0, 4 goes: glue widens the box to 1, 9, 0, 4 around
    its centre. *)
Definition wide_aspect : Image.Glue := {|
  Image.adjust_limits_aspect := fun l =>
    match l with
    | Limits (Some x0) (Some x1) (Some y0) (Some y1) =>
        if feq x0 (of_Z 3) && feq x1 (of_Z 7)
           && feq y0 (of_Z 0) && feq y1 (of_Z 4)
        then Image.AspectSet (limits_of_Z 1 9 0 4) else Image.AspectKeep
    | _ => Image.AspectKeep
    end;
  Image.super_reset_limits := ret tt
|}.

(** An aspect adjustment after glue's for [aspect = 'equal'], in a
    viewer whose axes are twice as high as wide. A box whose ratio of
    height to width differs from 2 by more than one percent is resized
    about its midpoint: in width when [resize] is [Some true], in height
    when it is [Some false], and when it is [None] in width if the box
    is too high and in height if it is too wide. A box without width
    raises ZeroDivisionError; limits that are not all set are kept. *)
Definition equal_aspect (resize : option bool) (l : limits)
    : Image.aspect_action :=
  match l with
  | Limits (Some x0) (Some x1) (Some y0) (Some y1) =>
      let fdiv := SFdiv prec emax in
      let axes_ratio := of_Z 2 in
      let dx := fabs (fsub x1 x0) in
      let dy := fabs (fsub y1 y0) in
      if feq dx (of_Z 0) then Image.AspectRaise (Error "ZeroDivisionError")
      else
        let data_ratio := fdiv dy dx in
        if flt (fdiv (of_Z 1) (of_Z 100))
               (fdiv (fabs (fsub data_ratio axes_ratio))
                     (fmul half (fadd data_ratio axes_ratio)))
        then
          let in_width :=
            match resize with
            | Some b => b
            | None => flt axes_ratio data_ratio
            end in
          if in_width then
            let x_mid := fmul half (fadd x0 x1) in
            let x_width := fdiv dy axes_ratio in
            Image.AspectSet
              (Limits (Some (fsub x_mid (fdiv x_width (of_Z 2))))
                      (Some (fadd x_mid (fdiv x_width (of_Z 2))))
                      (Some y0) (Some y1))
          else
            let y_mid := fmul half (fadd y0 y1) in
            let y_width := fmul dx axes_ratio in
            Image.AspectSet
              (Limits (Some x0) (Some x1)
                      (Some (fsub y_mid (fdiv y_width (of_Z 2))))
                      (Some (fadd y_mid (fdiv y_width (of_Z 2)))))
        else Image.AspectKeep
  | _ => Image.AspectKeep
  end.

Definition tall_aspect : Image.Glue := {|
  Image.adjust_limits_aspect := equal_aspect None;
  Image.super_reset_limits := ret tt
|}.

(** The callbacks of the base class in that viewer: the one on the
    x-limits resizes the box in height, the one on the y-limits in
    width. *)
Definition tall_callbacks : @Aspect.Callbacks no_wcs tall_aspect := {|
  Aspect.adjust_limits_aspect_x := equal_aspect (Some false);
  Aspect.adjust_limits_aspect_y := equal_aspect (Some true)
|}.

(** Callbacks of the base class that leave every box as it is. *)
Definition no_callbacks `{Image.Glue} : Aspect.Callbacks := {|
  Aspect.adjust_limits_aspect_x := fun _ => Image.AspectKeep;
  Aspect.adjust_limits_aspect_y := fun _ => Image.AspectKeep
|}.

(** An Imviz image viewer, not linked by WCS, with the default zoom
    (radius 1 around the origin), the given limits and layers. *)
Definition image_state (l : limits) (sync : bool)
    (layers : list Image.LayerState) : Image.State :=
  Image.MkState l (of_Z 1) (of_Z 0) (of_Z 0) false sync
    (Some (Some {| Image.config := "imviz"; Image.reference_coords := None |}))
    (Image.layer <$> head layers) layers (Image.layer <$> layers).

Definition image_world (l : limits) (sync : bool)
    (layers : list Image.LayerState) : Image.World :=
  MkWorld (image_state l sync layers) [] [].

(** A visible two-dimensional image of the given shape [(ny, nx)]. *)
Definition image_layer (lbl : string) (ny nx : Z) : Image.LayerState :=
  {| Image.visible := true;
     Image.layer :=
       {| Image.label := lbl; Image.shape := [ny; nx]; Image.coords := None;
          Image.pixel_component_ids :=
            [ {| Image.cid_label := "Pixel Axis 0 [y]"; Image.axis := 0 |};
              {| Image.cid_label := "Pixel Axis 1 [x]"; Image.axis := 1 |} ] |} |}.

End Examples.

(** * Properties *)

(** ** [FreezableState.__setattr__] *)

Module FreezableStateFacts.
Import FreezableState.

Lemma guard_private (frozen : list string) (rest : string) (n : outcome bool) :
  guard frozen (String "_" rest) n = Return Store.
Proof. reflexivity. Qed.

Lemma guard_not_frozen (frozen : list string) (k : string) (n : outcome bool) :
  k ≠ "" -> k ∉ frozen -> guard frozen k n = Return Store.
Proof.
  intros Hk Hf. destruct k as [|c k']; [done|].
  unfold guard; simpl. rewrite (bool_decide_eq_false_2 _ Hf).
  now rewrite orb_true_r.
Qed.

Lemma guard_frozen (frozen : list string) (k : string) (n : outcome bool) :
  k ≠ "" -> k ∈ frozen -> (forall rest, k ≠ String "_" rest) ->
  guard frozen k n = (b <-? n; Return (if b then Store else Discard)).
Proof.
  intros Hk Hf Hu. destruct k as [|c k']; [done|].
  unfold guard; simpl.
  destruct (Ascii.eqb_spec c "_"%char) as [->|_]; [now destruct (Hu k')|].
  rewrite (bool_decide_eq_true_2 _ Hf); simpl.
  now destruct n as [[]|].
Qed.

Lemma getattr_super_setattr (self : object) (k : string) (v : value) :
  getattr (super_setattr self k v) k = Return v.
Proof. unfold getattr, super_setattr; simpl. now rewrite lookup_insert_eq. Qed.

Lemma getattr_super_setattr_ne (self : object) (k j : string) (v : value) :
  k ≠ j -> getattr (super_setattr self k v) j = getattr self j.
Proof.
  intros. unfold getattr, super_setattr; simpl. now rewrite lookup_insert_ne.
Qed.




End FreezableStateFacts.

(** ** The order of the floats *)

Module FloatFacts.

(** A float that is not NaN, as a key ordered lexicographically: the
    class (infinities outside, zeros in the middle), then exponent and
    mantissa, both negated below zero. *)
Lemma flt_key (a b : float) :
  flt a b = true <->
  exists a1 a2 a3 b1 b2 b3 : Z,
    (match a with
     | S754_nan => None
     | S754_zero _ => Some (0, 0, 0)
     | S754_infinity s => Some (if s then -2 else 2, 0, 0)
     | S754_finite s m e =>
         Some (if s then (-1, - e, - Zpos m) else (1, e, Zpos m))
     end = Some (a1, a2, a3))
    /\ (match b with
        | S754_nan => None
        | S754_zero _ => Some (0, 0, 0)
        | S754_infinity s => Some (if s then -2 else 2, 0, 0)
        | S754_finite s m e =>
            Some (if s then (-1, - e, - Zpos m) else (1, e, Zpos m))
        end = Some (b1, b2, b3))
    /\ (a1 < b1 \/ (a1 = b1 /\ (a2 < b2 \/ (a2 = b2 /\ a3 < b3)))).
Proof.
  unfold flt, SFltb, SFcompare.
  destruct a as [sa|sa| |sa ma ea], b as [sb|sb| |sb mb eb]; simpl;
    try destruct sa; try destruct sb; simpl;
    try rewrite Pos.compare_cont_spec; simpl;
    try destruct (Z.compare_spec ea eb); try destruct (Pos.compare_spec ma mb);
    simpl;
    (split;
     [ first [ discriminate
             | intros _; do 6 eexists;
               split; [reflexivity|split; [reflexivity|lia]] ]
     | first [ reflexivity
             | intros (a1 & a2 & a3 & b1 & b2 & b3 & Ha & Hb & Hk);
               first [ discriminate Ha | discriminate Hb
                     | injection Ha as <- <- <-; injection Hb as <- <- <-; lia ] ] ]).
Qed.

Lemma flt_irrefl (a : float) : flt a a = false.
Proof.
  destruct (flt a a) eqn:E; [|reflexivity].
  apply flt_key in E as (a1 & a2 & a3 & b1 & b2 & b3 & Ha & Hb & Hk).
  rewrite Ha in Hb. injection Hb as <- <- <-. lia.
Qed.

Lemma flt_trans (a b c : float) :
  flt a b = true -> flt b c = true -> flt a c = true.
Proof.
  intros (a1 & a2 & a3 & b1 & b2 & b3 & Ha & Hb & Hk)%flt_key
         (b1' & b2' & b3' & c1 & c2 & c3 & Hb' & Hc & Hk')%flt_key.
  rewrite Hb in Hb'. injection Hb' as <- <- <-.
  apply flt_key. exists a1, a2, a3, c1, c2, c3. repeat split; try assumption. lia.
Qed.

(** A float that is not NaN lies on one side of every strict pair. *)
Lemma flt_cotrans (a b c : float) :
  isnan b = false -> flt a c = true -> flt a b = true \/ flt b c = true.
Proof.
  intros Hb (a1 & a2 & a3 & c1 & c2 & c3 & Ha & Hc & Hk)%flt_key.
  assert (exists b1 b2 b3 : Z,
    match b with
    | S754_nan => None
    | S754_zero _ => Some (0, 0, 0)
    | S754_infinity s => Some (if s then -2 else 2, 0, 0)
    | S754_finite s m e =>
        Some (if s then (-1, - e, - Zpos m) else (1, e, Zpos m))
    end = Some (b1, b2, b3)) as (b1 & b2 & b3 & Hkb).
  { destruct b as [s|s| |s m e]; try discriminate Hb; try destruct s;
      do 3 eexists; reflexivity. }
  assert (Hcases : (a1 < b1 \/ (a1 = b1 /\ (a2 < b2 \/ (a2 = b2 /\ a3 < b3))))
                   \/ (b1 < c1 \/ (b1 = c1 /\ (b2 < c2 \/ (b2 = c2 /\ b3 < c3)))))
    by lia.
  destruct Hcases as [Hl|Hr]; [left|right]; apply flt_key.
  - exists a1, a2, a3, b1, b2, b3. repeat split; assumption.
  - exists b1, b2, b3, c1, c2, c3. repeat split; assumption.
Qed.

Lemma flt_nan_l (a b : float) : isnan a = true -> flt a b = false.
Proof. now destruct a. Qed.

Lemma flt_true_not_nan (a b : float) :
  flt a b = true -> isnan a = false /\ isnan b = false.
Proof. destruct a, b; simpl; try discriminate; auto. Qed.

Lemma flt_nan_r (a b : float) : isnan b = true -> flt a b = false.
Proof. now destruct a, b. Qed.

(** How a running minimum and a running maximum move on: [x] is the
    NaN-ignoring extremum of the new values [xs]. *)
Lemma lower_bound_min (m x : float) (vs xs : list float) :
  lower_bound m vs -> lower_bound x xs ->
  (isnan x = true -> forall v, v ∈ xs -> isnan v = true) ->
  lower_bound (Py.min m x) (vs ++ xs).
Proof.
  intros Hvs Hxs Hnan v [Hv|Hv]%elem_of_app; unfold Py.min.
  - destruct (flt x m) eqn:E; [|now apply Hvs].
    destruct (flt v x) eqn:E'; [|reflexivity].
    rewrite <- (Hvs v Hv). symmetry. now apply flt_trans with x.
  - destruct (flt x m) eqn:E; [now apply Hxs|].
    destruct (isnan x) eqn:Nx.
    + apply flt_nan_l. now apply Hnan.
    + destruct (flt v m) eqn:E'; [|reflexivity].
      destruct (flt_cotrans v x m Nx E') as [C|C].
      * now rewrite (Hxs v Hv) in C.
      * now rewrite E in C.
Qed.

Lemma upper_bound_max (m x : float) (vs xs : list float) :
  upper_bound m vs -> upper_bound x xs ->
  (isnan x = true -> forall v, v ∈ xs -> isnan v = true) ->
  upper_bound (Py.max m x) (vs ++ xs).
Proof.
  intros Hvs Hxs Hnan v [Hv|Hv]%elem_of_app; unfold Py.max.
  - destruct (flt m x) eqn:E; [|now apply Hvs].
    destruct (flt x v) eqn:E'; [|reflexivity].
    rewrite <- (Hvs v Hv). symmetry. now apply flt_trans with x.
  - destruct (flt m x) eqn:E; [now apply Hxs|].
    destruct (isnan x) eqn:Nx.
    + apply flt_nan_r. now apply Hnan.
    + destruct (flt m v) eqn:E'; [|reflexivity].
      destruct (flt_cotrans m x v Nx E') as [C|C].
      * now rewrite E in C.
      * now rewrite (Hxs v Hv) in C.
Qed.

Lemma min_not_nan (m x : float) : isnan m = false -> isnan (Py.min m x) = false.
Proof.
  intros Hm. unfold Py.min. destruct (flt x m) eqn:E; [|assumption].
  now apply flt_true_not_nan in E.
Qed.

Lemma max_not_nan (m x : float) : isnan m = false -> isnan (Py.max m x) = false.
Proof.
  intros Hm. unfold Py.max. destruct (flt m x) eqn:E; [|assumption].
  now apply flt_true_not_nan in E.
Qed.

Lemma min_cases (m x : float) : Py.min m x = m \/ (Py.min m x = x /\ isnan x = false).
Proof.
  unfold Py.min. destruct (flt x m) eqn:E; [right|now left].
  split; [reflexivity|]. now apply flt_true_not_nan in E.
Qed.

Lemma max_cases (m x : float) : Py.max m x = m \/ (Py.max m x = x /\ isnan x = false).
Proof.
  unfold Py.max. destruct (flt m x) eqn:E; [right|now left].
  split; [reflexivity|]. now apply flt_true_not_nan in E.
Qed.

(** [np.nanmin] of a non-empty array: below nothing in the array, one
    of its entries unless all are NaN. *)
Lemma nanmin1_spec (x0 : float) (xs : list float) :
  lower_bound (nanmin1 x0 xs) (x0 :: xs)
  /\ (isnan (nanmin1 x0 xs) = true -> forall v, v ∈ x0 :: xs -> isnan v = true)
  /\ nanmin1 x0 xs ∈ x0 :: xs.
Proof.
  unfold nanmin1. revert x0. induction xs as [|x xs IH]; intros x0; simpl.
  - split; [|split].
    + intros v ->%list_elem_of_singleton. apply flt_irrefl.
    + now intros Hn v ->%list_elem_of_singleton.
    + apply list_elem_of_here.
  - destruct (IH (nanmin_step x0 x)) as (Hlb & Hnan & Hin).
    set (m := foldl nanmin_step (nanmin_step x0 x) xs) in *.
    assert (Hstep : nanmin_step x0 x = x0 \/ nanmin_step x0 x = x).
    { unfold nanmin_step, Py.min.
      destruct (isnan x), (isnan x0), (flt x x0); auto. }
    split; [|split].
    + intros v Hv.
      apply elem_of_cons in Hv as [->|[->|Hv]%elem_of_cons].
      * (* x0 *)
        pose proof (Hlb _ (list_elem_of_here _ _)) as Hs.
        unfold nanmin_step in Hs.
        destruct (isnan x) eqn:Nx; [assumption|].
        destruct (isnan x0) eqn:N0; [now apply flt_nan_l|].
        unfold Py.min in Hs. destruct (flt x x0) eqn:E; [|assumption].
        destruct (flt x0 m) eqn:E'; [|reflexivity].
        rewrite <- Hs. symmetry. now apply flt_trans with x0.
      * (* x *)
        pose proof (Hlb _ (list_elem_of_here _ _)) as Hs.
        unfold nanmin_step in Hs.
        destruct (isnan x) eqn:Nx; [now apply flt_nan_l|].
        destruct (isnan x0) eqn:N0; [assumption|].
        unfold Py.min in Hs. destruct (flt x x0) eqn:E; [assumption|].
        destruct (flt x m) eqn:E'; [|reflexivity].
        destruct (flt_cotrans x x0 m N0 E') as [C|C].
        -- now rewrite E in C.
        -- now rewrite Hs in C.
      * apply Hlb. now apply list_elem_of_further.
    + intros Hn v Hv.
      assert (Hs : isnan (nanmin_step x0 x) = true)
        by (apply Hnan; [assumption|apply list_elem_of_here]).
      apply elem_of_cons in Hv as [->|[->|Hv]%elem_of_cons].
      * unfold nanmin_step in Hs.
        destruct (isnan x) eqn:Nx; [assumption|].
        destruct (isnan x0) eqn:N0; [reflexivity|].
        now rewrite min_not_nan in Hs.
      * unfold nanmin_step in Hs.
        destruct (isnan x) eqn:Nx; [reflexivity|].
        destruct (isnan x0) eqn:N0; [congruence|].
        now rewrite min_not_nan in Hs.
      * apply Hnan; [assumption|]. now apply list_elem_of_further.
    + apply elem_of_cons in Hin as [Hin|Hin].
      * rewrite Hin. destruct Hstep as [->| ->].
        -- apply list_elem_of_here.
        -- apply list_elem_of_further, list_elem_of_here.
      * now do 2 apply list_elem_of_further.
Qed.

(** A running maximum from [m], as in [for x in xs: m = max(m, x)]: it
    is above everything it has met, and it is one of the values it has
    met unless it is still [m]. *)
Lemma running_max_spec (xs vs : list float) (m : float) :
  upper_bound m vs ->
  upper_bound (foldl Py.max m xs) (vs ++ xs)
  /\ (foldl Py.max m xs = m \/ foldl Py.max m xs ∈ xs).
Proof.
  revert vs m. induction xs as [|x xs IH]; intros vs m Hm; simpl.
  - rewrite app_nil_r. split; [exact Hm|now left].
  - destruct (IH (vs ++ [x]) (Py.max m x)) as [Hub Hin].
    + apply upper_bound_max; [exact Hm| |].
      * intros v ->%list_elem_of_singleton. apply flt_irrefl.
      * now intros Hn v ->%list_elem_of_singleton.
    + rewrite <- app_assoc in Hub. split; [exact Hub|].
      destruct Hin as [->|Hin].
      * destruct (max_cases m x) as [->|[-> _]]; [now left|right].
        apply list_elem_of_here.
      * right. now apply list_elem_of_further.
Qed.

(** [np.nanmax] of a non-empty array. *)
Lemma nanmax1_spec (x0 : float) (xs : list float) :
  upper_bound (nanmax1 x0 xs) (x0 :: xs)
  /\ (isnan (nanmax1 x0 xs) = true -> forall v, v ∈ x0 :: xs -> isnan v = true)
  /\ nanmax1 x0 xs ∈ x0 :: xs.
Proof.
  unfold nanmax1. revert x0. induction xs as [|x xs IH]; intros x0; simpl.
  - split; [|split].
    + intros v ->%list_elem_of_singleton. apply flt_irrefl.
    + now intros Hn v ->%list_elem_of_singleton.
    + apply list_elem_of_here.
  - destruct (IH (nanmax_step x0 x)) as (Hub & Hnan & Hin).
    set (m := foldl nanmax_step (nanmax_step x0 x) xs) in *.
    assert (Hstep : nanmax_step x0 x = x0 \/ nanmax_step x0 x = x).
    { unfold nanmax_step, Py.max.
      destruct (isnan x), (isnan x0), (flt x0 x); auto. }
    split; [|split].
    + intros v Hv.
      apply elem_of_cons in Hv as [->|[->|Hv]%elem_of_cons].
      * pose proof (Hub _ (list_elem_of_here _ _)) as Hs.
        unfold nanmax_step in Hs.
        destruct (isnan x) eqn:Nx; [assumption|].
        destruct (isnan x0) eqn:N0; [now apply flt_nan_r|].
        unfold Py.max in Hs. destruct (flt x0 x) eqn:E; [|assumption].
        destruct (flt m x0) eqn:E'; [|reflexivity].
        rewrite <- Hs. symmetry. now apply flt_trans with x0.
      * pose proof (Hub _ (list_elem_of_here _ _)) as Hs.
        unfold nanmax_step in Hs.
        destruct (isnan x) eqn:Nx; [now apply flt_nan_r|].
        destruct (isnan x0) eqn:N0; [assumption|].
        unfold Py.max in Hs. destruct (flt x0 x) eqn:E; [assumption|].
        destruct (flt m x) eqn:E'; [|reflexivity].
        destruct (flt_cotrans m x0 x N0 E') as [C|C].
        -- now rewrite Hs in C.
        -- now rewrite E in C.
      * apply Hub. now apply list_elem_of_further.
    + intros Hn v Hv.
      assert (Hs : isnan (nanmax_step x0 x) = true)
        by (apply Hnan; [assumption|apply list_elem_of_here]).
      apply elem_of_cons in Hv as [->|[->|Hv]%elem_of_cons].
      * unfold nanmax_step in Hs.
        destruct (isnan x) eqn:Nx; [assumption|].
        destruct (isnan x0) eqn:N0; [reflexivity|].
        now rewrite max_not_nan in Hs.
      * unfold nanmax_step in Hs.
        destruct (isnan x) eqn:Nx; [reflexivity|].
        destruct (isnan x0) eqn:N0; [congruence|].
        now rewrite max_not_nan in Hs.
      * apply Hnan; [assumption|]. now apply list_elem_of_further.
    + apply elem_of_cons in Hin as [Hin|Hin].
      * rewrite Hin. destruct Hstep as [->| ->].
        -- apply list_elem_of_here.
        -- apply list_elem_of_further, list_elem_of_here.
      * now do 2 apply list_elem_of_further.
Qed.

End FloatFacts.

(** ** Reasoning about runs *)

Module RunFacts.

Section Rules.
Context {S : Type}.

Lemma wp_ret {A} (a : A) (Q : A -> S -> Prop) E s :
  Q a s -> wp (ret a) Q E s.
Proof. exact (fun q => q). Qed.

Lemma wp_raise {A} (e : exn) (Q : A -> S -> Prop) (E : exn -> S -> Prop) s :
  E e s -> wp (raise e) Q E s.
Proof. exact (fun q => q). Qed.

Lemma wp_get (Q : S -> S -> Prop) E s : Q s s -> wp get Q E s.
Proof. exact (fun q => q). Qed.

Lemma wp_modify (f : S -> S) (Q : unit -> S -> Prop) E s :
  Q tt (f s) -> wp (modify f) Q E s.
Proof. exact (fun q => q). Qed.

Lemma wp_eval {A} (o : outcome A) (Q : A -> S -> Prop) (E : exn -> S -> Prop) s :
  match o with Return a => Q a s | Throw e => E e s end ->
  wp (eval o) Q E s.
Proof. now destruct o. Qed.

Lemma wp_bind {A B} (m : M S A) (k : A -> M S B) Q E s :
  wp m (fun a s' => wp (k a) Q E s') E s -> wp (bind m k) Q E s.
Proof. unfold wp, bind. now destruct (m s). Qed.

Lemma wp_mono {A} (m : M S A) (Q Q' : A -> S -> Prop) (E E' : exn -> S -> Prop) s :
  wp m Q E s ->
  (forall a s', Q a s' -> Q' a s') -> (forall e s', E e s' -> E' e s') ->
  wp m Q' E' s.
Proof. unfold wp. destruct (m s); auto. Qed.

Lemma wp_finally (body cleanup : M S unit) Q E s :
  wp body (fun _ s' => wp cleanup Q E s')
          (fun e s' => wp cleanup (fun _ s'' => E e s'') E s') s ->
  wp (finally body cleanup) Q E s.
Proof.
  unfold wp, finally, bind. destruct (body s) as [[] s'|e s'|]; auto.
  now destruct (cleanup s').
Qed.

(** A loop keeps what each of its turns keeps. *)
Lemma wp_for_each {X} (xs : list X) (body : X -> M S unit)
    (I : S -> Prop) (E : exn -> S -> Prop) s :
  I s ->
  (forall x s', x ∈ xs -> I s' -> wp (body x) (fun _ s'' => I s'') E s') ->
  wp (for_each xs body) (fun _ s' => I s') E s.
Proof.
  revert s. induction xs as [|x xs IH]; intros s Hs Hbody; simpl.
  - exact Hs.
  - apply wp_bind. eapply wp_mono.
    + apply Hbody; [apply list_elem_of_here|exact Hs].
    + intros [] s' Hs'. apply IH; [exact Hs'|].
      intros y s'' Hy. apply Hbody. now apply list_elem_of_further.
    + auto.
Qed.

(** A run that ends in [Q] without raising is a [Done]. *)
Lemma wp_done {A} (m : M S A) (Q : A -> S -> Prop) s :
  wp m Q (fun _ _ => False) s -> exists a s', m s = Done a s' /\ Q a s'.
Proof. unfold wp. destruct (m s) as [a s'|e s'|]; [eauto|done|done]. Qed.

(** A run that ends in [Q] either way leaves a store in [Q]. *)
Lemma wp_final {A} (m : M S A) (Q : S -> Prop) s :
  wp m (fun _ s' => Q s') (fun _ s' => Q s') s ->
  exists s', final (m s) = Some s' /\ Q s'.
Proof. unfold wp. destruct (m s) as [a s'|e s'|]; [eauto|eauto|done]. Qed.

Lemma done_wp {A} (m : M S A) (Q : A -> S -> Prop) E s a s' :
  m s = Done a s' -> Q a s' -> wp m Q E s.
Proof. unfold wp. now intros ->. Qed.

End Rules.

End RunFacts.

(** ** Callback properties *)

Module EchoFacts.
Import RunFacts.

Section Properties.
Context {O : Type} `{HasLimits O}.

Lemma notify_eq (registered : list callback) call (p : limit) (w : World O) :
  notify registered call p w =
  if enabled p w
  then for_each registered call (record (Notified (name p) (lims (obj w))) w)
  else Done tt w.
Proof. unfold notify, bind, get. now destruct (enabled p w). Qed.

(** No limit is frozen in the viewer-state classes: the assignment
    stores, then notifies when the value differs. *)
Lemma assign_eq (registered : list callback) call (p : limit) v (w : World O) :
  assign registered call p v w =
  if Py.ne (get_limit p (lims (obj w))) v
  then notify registered call p (stored p v w)
  else Done tt (stored p v w).
Proof.
  unfold assign, bind, get. destruct p; simpl;
    now destruct (Py.ne _ v).
Qed.

Section Invariant.
Variable registered : list callback.
Variable call : callback -> M (World O) unit.
Variable I : World O -> Prop.
Variable E : exn -> World O -> Prop.
Hypothesis I_stable : stable I.
Hypothesis call_keeps :
  forall c w, c ∈ registered -> I w -> wp (call c) (fun _ w' => I w') E w.

Lemma notify_wp (p : limit) (w : World O) :
  I w -> wp (notify registered call p) (fun _ w' => I w') E w.
Proof.
  intros Hw. unfold wp. rewrite notify_eq. destruct (enabled p w); [|exact Hw].
  apply (wp_for_each registered call I E).
  - now apply I_stable.
  - intros c w' Hc Hw'. now apply call_keeps.
Qed.

Lemma assign_wp (p : limit) (v : option float) (w : World O) :
  I (stored p v w) -> wp (assign registered call p v) (fun _ w' => I w') E w.
Proof.
  intros Hw. unfold wp. rewrite assign_eq.
  destruct (Py.ne _ v); [|exact Hw]. now apply notify_wp.
Qed.

Lemma delay_exit_scan_keeps (ps : list limit) (w : World O) :
  I w -> I (fst (delay_exit_scan ps w)).
Proof.
  revert w. induction ps as [|p ps IH]; intros w Hw; simpl; [exact Hw|].
  assert (Hl : I (fst (delay_leave p w))).
  { unfold delay_leave. destruct (lookup_delay p (delay w)) as [[[|[|n]] old]|];
      simpl; try exact Hw; now apply I_stable. }
  destruct (delay_leave p w) as [w1 due]. specialize (IH w1 Hl).
  now destruct (delay_exit_scan ps w1) as [w2 rest].
Qed.

Lemma delay_exit_wp (ps : list limit) (w : World O) :
  I w -> wp (delay_exit registered call ps) (fun _ w' => I w') E w.
Proof.
  intros Hw. unfold wp, delay_exit.
  pose proof (delay_exit_scan_keeps ps w Hw) as Hs.
  destruct (delay_exit_scan ps w) as [w1 due].
  apply (wp_for_each due (notify registered call) I E); [exact Hs|].
  intros p w' _ Hw'. now apply notify_wp.
Qed.

Lemma delay_enter_keeps (ps : list limit) (w : World O) :
  I w -> I (foldl (fun w p => delay_enter p w) w ps).
Proof.
  revert w. induction ps as [|p ps IH]; intros w Hw; simpl; [exact Hw|].
  apply IH. unfold delay_enter.
  destruct (lookup_delay p (delay w)) as [[n old]|]; now apply I_stable.
Qed.

End Invariant.

(** A [delay_callback] block: the body runs from the world with the
    properties disabled; the exit keeps what the body established. *)
Lemma delay_callback_wp (registered : list callback) call (ps : list limit)
    (body : M (World O) unit) (I0 I1 : World O -> Prop)
    (E : exn -> World O -> Prop) (w : World O) :
  stable I0 -> stable I1 -> (forall e, stable (E e)) ->
  (forall c w', c ∈ registered -> I1 w' -> wp (call c) (fun _ w'' => I1 w'') E w') ->
  (forall e c w', c ∈ registered -> E e w' ->
     wp (call c) (fun _ w'' => E e w'') E w') ->
  I0 w ->
  (forall w', I0 w' -> wp body (fun _ w'' => I1 w'') E w') ->
  wp (delay_callback registered call ps body) (fun _ w' => I1 w') E w.
Proof.
  intros S0 S1 SE Hcall HcallE Hw Hbody.
  unfold delay_callback. apply wp_bind, wp_modify, wp_finally.
  eapply wp_mono.
  - apply Hbody. now apply delay_enter_keeps.
  - intros [] w' Hw'. now apply delay_exit_wp.
  - intros e w' Hw'. simpl.
    eapply wp_mono.
    + apply (delay_exit_wp registered call (E e) E (SE e) (HcallE e) ps w' Hw').
    + auto.
    + auto.
Qed.

(** The same with the body taken from the world the block enters. *)
Lemma delay_callback_entered_wp (registered : list callback) call
    (ps : list limit) (body : M (World O) unit) (I : World O -> Prop)
    (w : World O) :
  stable I ->
  (forall c w', c ∈ registered -> I w' ->
     wp (call c) (fun _ w'' => I w'') (fun _ w'' => I w'') w') ->
  wp body (fun _ w' => I w') (fun _ w' => I w')
     (foldl (fun w p => delay_enter p w) w ps) ->
  wp (delay_callback registered call ps body)
     (fun _ w' => I w') (fun _ w' => I w') w.
Proof.
  intros SI Hcall Hbody.
  unfold delay_callback. apply wp_bind, wp_modify, wp_finally.
  eapply wp_mono; [exact Hbody| |].
  - intros [] w' Hw'. now apply delay_exit_wp.
  - intros e w' Hw'. simpl.
    eapply wp_mono;
      [apply (delay_exit_wp registered call I (fun _ w'' => I w'') SI Hcall ps w' Hw')
      |auto|auto].
Qed.

(** *** The delay table *)

Lemma lookup_delay_here (p : limit) e (d : list (limit * (nat * option float))) :
  lookup_delay p ((p, e) :: d) = Some e.
Proof. unfold lookup_delay; simpl. now rewrite bool_decide_eq_true_2. Qed.

Lemma lookup_delay_further (p q : limit) e
    (d : list (limit * (nat * option float))) :
  q <> p -> lookup_delay p ((q, e) :: d) = lookup_delay p d.
Proof.
  intros Hq. unfold lookup_delay; simpl. now rewrite bool_decide_eq_false_2.
Qed.

Lemma lookup_remove_delay (p q : limit) (d : list (limit * (nat * option float))) :
  q <> p -> lookup_delay p (remove_delay q d) = lookup_delay p d.
Proof.
  intros Hq. induction d as [|[r e] d IH]; [reflexivity|].
  unfold remove_delay; simpl. destruct (decide (r = q)) as [->|Hr].
  - rewrite bool_decide_eq_true_2 by reflexivity; simpl.
    rewrite lookup_delay_further by assumption. exact IH.
  - rewrite bool_decide_eq_false_2 by assumption; simpl.
    destruct (decide (r = p)) as [->|Hp].
    + now rewrite !lookup_delay_here.
    + rewrite !lookup_delay_further by assumption. exact IH.
Qed.

Lemma enabled_delay_enter (p q : limit) (w : World O) :
  q = p \/ enabled p w = false -> enabled p (delay_enter q w) = false.
Proof.
  intros Hc. unfold enabled, delay_enter.
  destruct (decide (q = p)) as [->|Hq].
  - destruct (lookup_delay p (delay w)) as [[n old]|]; simpl;
      now rewrite lookup_delay_here.
  - destruct Hc as [?|Hen]; [contradiction|]. unfold enabled in Hen.
    destruct (lookup_delay q (delay w)) as [[n old]|]; simpl;
      rewrite lookup_delay_further by assumption;
      rewrite ?lookup_remove_delay by assumption; exact Hen.
Qed.

(** Inside the block every property of the block is disabled. *)
Lemma enabled_delay_enter_all (p : limit) (ps : list limit) (w : World O) :
  p ∈ ps \/ enabled p w = false ->
  enabled p (foldl (fun w p => delay_enter p w) w ps) = false.
Proof.
  revert w. induction ps as [|q ps IH]; intros w Hc; simpl.
  - destruct Hc as [Hc|Hc]; [now apply elem_of_nil in Hc|exact Hc].
  - apply IH. destruct Hc as [[->|Hc]%elem_of_cons|Hc].
    + right. apply enabled_delay_enter. now left.
    + now left.
    + right. apply enabled_delay_enter. now right.
Qed.

Lemma obj_delay_enter_all (ps : list limit) (w : World O) :
  obj (foldl (fun w p => delay_enter p w) w ps) = obj w.
Proof.
  revert w. induction ps as [|q ps IH]; intros w; simpl; [reflexivity|].
  rewrite IH. unfold delay_enter.
  now destruct (lookup_delay q (delay w)) as [[n old]|].
Qed.

(** An assignment to a disabled property is its store: no callback
    runs, no observer is notified. *)
Lemma assign_disabled (registered : list callback) call (p : limit)
    (v : option float) (w : World O) :
  enabled p w = false -> assign registered call p v w = Done tt (stored p v w).
Proof.
  intros Hen. rewrite assign_eq, notify_eq.
  replace (enabled p (stored p v w)) with false by exact (eq_sym Hen).
  now destruct (Py.ne _ v).
Qed.

End Properties.

End EchoFacts.

(** ** [FreezableProfileViewerState] *)

Module ProfileFacts.
Import RunFacts EchoFacts FloatFacts Profile.

(** The x-values one layer contributes. *)
Lemma profile_x_values_cons (l : LayerState) (ls : list LayerState) :
  profile_x_values (l :: ls) =
  match profile l with
  | Return (Some (x, _)) => x
  | _ => []
  end ++ profile_x_values ls.
Proof.
  unfold profile_x_values; simpl.
  now destruct (profile l) as [[[x y]|]|e].
Qed.

(** The loop of [_reset_x_limits], from any bounds that are right for
    the values [vs] seen so far. *)
Lemma reset_x_bounds_from (ls : list LayerState) (acc : float * float)
    (vs : list float) :
  lower_bound (fst acc) vs -> (fst acc = inf \/ fst acc ∈ vs) ->
  upper_bound (snd acc) vs -> (snd acc = neg_inf \/ snd acc ∈ vs) ->
  let r := foldl reset_x_step acc ls in
  lower_bound (fst r) (vs ++ profile_x_values ls)
  /\ (fst r = inf \/ fst r ∈ vs ++ profile_x_values ls)
  /\ upper_bound (snd r) (vs ++ profile_x_values ls)
  /\ (snd r = neg_inf \/ snd r ∈ vs ++ profile_x_values ls).
Proof.
  revert acc vs. induction ls as [|l ls IH]; intros [lo hi] vs Hlo Hlo' Hhi Hhi'.
  - simpl. unfold profile_x_values; simpl. now rewrite app_nil_r.
  - simpl foldl. rewrite profile_x_values_cons, app_assoc.
    simpl in Hlo, Hlo', Hhi, Hhi'.
    unfold reset_x_step at 2.
    destruct (profile l) as [[[x y]|]|e]; simpl; rewrite ?app_nil_r;
      try (now apply IH).
    destruct x as [|x0 xs]; rewrite ?app_nil_r; [now apply IH|].
    destruct (nanmin1_spec x0 xs) as (Lb & Ln & Lin).
    destruct (nanmax1_spec x0 xs) as (Ub & Un & Uin).
    apply IH; simpl.
    + now apply lower_bound_min.
    + destruct (min_cases lo (nanmin1 x0 xs)) as [-> | [-> _]].
      * destruct Hlo' as [?|?]; [now left|right]. apply elem_of_app. now left.
      * right. apply elem_of_app. now right.
    + now apply upper_bound_max.
    + destruct (max_cases hi (nanmax1 x0 xs)) as [-> | [-> _]].
      * destruct Hhi' as [?|?]; [now left|right]. apply elem_of_app. now left.
      * right. apply elem_of_app. now right.
Qed.

Lemma reset_x_bounds_spec (ls : list LayerState) :
  let r := reset_x_bounds ls in
  lower_bound (fst r) (profile_x_values ls)
  /\ (fst r = inf \/ fst r ∈ profile_x_values ls)
  /\ upper_bound (snd r) (profile_x_values ls)
  /\ (snd r = neg_inf \/ snd r ∈ profile_x_values ls).
Proof.
  apply (reset_x_bounds_from ls (inf, neg_inf) []); simpl.
  - intros v Hv. now apply elem_of_nil in Hv.
  - now left.
  - intros v Hv. now apply elem_of_nil in Hv.
  - now left.
Qed.

(** No method of the class is registered, so an assignment is its store,
    with the observers notified. *)
Lemma set_limit_property_obj (p : limit) (v : option float) (w : World State) :
  exists w', set_limit_property p v w = Done tt w'
             /\ obj w' = obj (stored p v w) /\ delay w' = delay w.
Proof.
  unfold set_limit_property. rewrite assign_eq.
  destruct (Py.ne _ v); [|now eexists].
  rewrite notify_eq. destruct (enabled p _); now eexists.
Qed.

Lemma stable_obj (P : State -> Prop) : stable (fun w : World State => P (obj w)).
Proof. split; intros; assumption. Qed.

Lemma stable_False : stable (fun _ : World State => False).
Proof. split; intros; assumption. Qed.

(** [_reset_x_limits] with bounds that are finite: both limits are
    stored, nothing is raised. *)
Lemma reset_x_limits_finite (w : World State) (lo hi : float) :
  is_Some (reference_data (obj w)) -> is_Some (x_att_pixel (obj w)) ->
  reset_x_bounds (layers (obj w)) = (lo, hi) ->
  isfinite lo && isfinite hi = true ->
  exists w', _reset_x_limits w = Done tt w'
    /\ obj w' = with_lims (set_limit X_max (Some hi)
                            (set_limit X_min (Some lo) (lims (obj w)))) (obj w).
Proof.
  intros [r Hr] [a Ha] Hb Hfin.
  set (target := with_lims (set_limit X_max (Some hi)
                              (set_limit X_min (Some lo) (lims (obj w)))) (obj w)).
  destruct (wp_done _reset_x_limits (fun _ w' => obj w' = target) w)
    as ([] & w' & Hrun & Hobj); [|now exists w'].
  unfold _reset_x_limits. apply wp_bind, wp_get.
  rewrite Hr, Ha, Hb, Hfin; simpl negb; cbv iota.
  apply (delay_callback_wp [] no_call [X_min; X_max] _
           (fun w' => obj w' = obj w) (fun w' => obj w' = target)
           (fun _ _ => False)).
  - apply (stable_obj (fun o => o = obj w)).
  - apply (stable_obj (fun o => o = target)).
  - intros _. apply stable_False.
  - intros c w' Hc. now apply elem_of_nil in Hc.
  - intros e c w' Hc. now apply elem_of_nil in Hc.
  - reflexivity.
  - intros w0 Hw0. apply wp_bind.
    destruct (set_limit_property_obj X_min (Some lo) w0) as (w1 & R1 & O1 & _).
    apply (done_wp _ _ _ _ tt w1 R1).
    destruct (set_limit_property_obj X_max (Some hi) w1) as (w2 & R2 & O2 & _).
    apply (done_wp _ _ _ _ tt w2 R2).
    rewrite O2. unfold stored; simpl. rewrite O1. unfold stored; simpl.
    now rewrite Hw0.
Qed.

(** C4, as amended: with reference data and a pixel x-attribute,
    [_reset_x_limits] takes the minimum and the maximum over the
    profile x-values of all layers that give a profile, visible or not
    (a layer whose profile raises gives none, and nothing is raised);
    it stores them as [x_min] and [x_max] when both are finite, and
    leaves the state as it is when they are not. *)
Theorem reset_x_limits_all_layers (w : World State) :
  is_Some (reference_data (obj w)) -> is_Some (x_att_pixel (obj w)) ->
  let xs := profile_x_values (layers (obj w)) in
  let lo := fst (reset_x_bounds (layers (obj w))) in
  let hi := snd (reset_x_bounds (layers (obj w))) in
  (lower_bound lo xs /\ (lo = inf \/ lo ∈ xs))
  /\ (upper_bound hi xs /\ (hi = neg_inf \/ hi ∈ xs))
  /\ (isfinite lo && isfinite hi = true ->
      exists w', _reset_x_limits w = Done tt w'
        /\ x_min (lims (obj w')) = Some lo /\ x_max (lims (obj w')) = Some hi
        /\ y_min (lims (obj w')) = y_min (lims (obj w))
        /\ y_max (lims (obj w')) = y_max (lims (obj w)))
  /\ (isfinite lo && isfinite hi = false -> _reset_x_limits w = Done tt w).
Proof.
  intros Hr Ha xs lo hi.
  destruct (reset_x_bounds_spec (layers (obj w))) as (L1 & L2 & U1 & U2).
  split; [now split|]. split; [now split|]. split.
  - intros Hfin.
    destruct (reset_x_limits_finite w lo hi Hr Ha) as (w' & Hrun & Hobj);
      [subst lo hi; now destruct (reset_x_bounds _)|assumption|].
    exists w'. split; [assumption|]. now rewrite Hobj.
  - intros Hfin. destruct Hr as [r Hr], Ha as [a Ha].
    unfold _reset_x_limits, bind, get. rewrite Hr, Ha.
    subst lo hi. destruct (reset_x_bounds _) as [lo hi]; simpl in *.
    now rewrite Hfin.
Qed.

(** The amended C4 on the example viewer: the hidden layer counts. *)
Lemma reset_x_limits_all_layers_witness :
  exists w', _reset_x_limits (Examples.profile_world None None) = Done tt w'
    /\ x_min (lims (obj w')) = Some (of_Z 1)
    /\ x_max (lims (obj w')) = Some (of_Z 6).
Proof.
  destruct (reset_x_limits_all_layers (Examples.profile_world None None))
    as (_ & _ & Hfin & _).
  - now eexists.
  - now eexists.
  - destruct Hfin as (w' & Hrun & Hlo & Hhi & _); [reflexivity|].
    exists w'. split; [assumption|]. split; assumption.
Defined.

(** C4, as stated, fails on a hidden layer that gives a profile: the
    hidden layer of the example has the x-values 1 and 2, the visible
    one 5 and 6; [_reset_x_limits] sets [x_min] to 1, which is not an
    x-value of a visible layer. *)
Lemma reset_x_limits_visible_counterexample :
  let w := Examples.profile_world None None in
  visible_x_values (layers (obj w)) = [of_Z 5; of_Z 6]
  /\ exists w', _reset_x_limits w = Done tt w'
       /\ x_min (lims (obj w')) = Some (of_Z 1)
       /\ of_Z 1 ∉ visible_x_values (layers (obj w)).
Proof.
  split; [reflexivity|]. eexists. split; [reflexivity|]. split; [reflexivity|].
  vm_compute. intros Hin.
  repeat (apply elem_of_cons in Hin as [Hin|Hin]; [discriminate Hin|]).
  now apply elem_of_nil in Hin.
Qed.

Section Conversion.
Context `{UnitConversion}.

(** Without both limits the conversion does nothing, whatever the units. *)
Lemma convert_units_x_limits_unset (w : World State) (old new : option Unit) :
  x_min (lims (obj w)) = None \/ x_max (lims (obj w)) = None ->
  _convert_units_x_limits old new w = Done tt w.
Proof.
  intros Hn. unfold _convert_units_x_limits, bind, get.
  destruct Hn as [-> | ->]; [reflexivity|].
  now destruct (x_min _).
Qed.

(** C3, as amended: when both x-limits are set, converting from no unit
    is [_reset_x_limits]; when one of them is unset, the conversion does
    nothing. *)
Theorem convert_units_x_limits_fallback (w : World State) (new : Unit) :
  (is_Some (x_min (lims (obj w))) -> is_Some (x_max (lims (obj w))) ->
   _convert_units_x_limits None (Some new) w = _reset_x_limits w)
  /\ (x_min (lims (obj w)) = None \/ x_max (lims (obj w)) = None ->
      _convert_units_x_limits None (Some new) w = Done tt w).
Proof.
  split.
  - intros [lo Hlo] [hi Hhi]. unfold _convert_units_x_limits, bind at 1, get.
    now rewrite Hlo, Hhi.
  - apply convert_units_x_limits_unset.
Qed.

End Conversion.

(** The amended C3 on the example viewer with the limits 5 and 6. *)
Lemma convert_units_x_limits_fallback_witness :
  let w := Examples.profile_world (Some 5) (Some 6) in
  @_convert_units_x_limits Examples.nm_angstrom None (Some "nm"%string) w
  = _reset_x_limits w.
Proof.
  apply (proj1 (@convert_units_x_limits_fallback Examples.nm_angstrom
                  (Examples.profile_world (Some 5) (Some 6)) "nm"%string));
    now eexists.
Defined.

(** C3, as stated, fails when a limit is unset: on the example viewer
    with no limits, the conversion from no unit leaves the limits unset,
    and [_reset_x_limits] sets them to 1 and 6. *)
Lemma convert_units_x_limits_null_counterexample :
  let w := Examples.profile_world None None in
  @_convert_units_x_limits Examples.nm_angstrom None (Some "nm"%string) w
  = Done tt w
  /\ (exists w', _reset_x_limits w = Done tt w'
        /\ x_min (lims (obj w')) = Some (of_Z 1)
        /\ x_max (lims (obj w')) = Some (of_Z 6))
  /\ @_convert_units_x_limits Examples.nm_angstrom None (Some "nm"%string) w
     <> _reset_x_limits w.
Proof.
  split; [reflexivity|]. split.
  - eexists. split; [reflexivity|]. split; reflexivity.
  - vm_compute. discriminate.
Qed.

End ProfileFacts.

(** ** [FreezableBqplotImageViewerState] *)

Module ImageFacts.
Import RunFacts EchoFacts Image.

Section Facts.
Context `{Glue}.

Lemma set_during_zoom_sync_eq (b : bool) (w : World) :
  set_during_zoom_sync b w = Done tt (with_obj (with_during_zoom_sync b) w).
Proof. reflexivity. Qed.

(** No zoom property is frozen: the assignment stores, then notifies
    when the value differs. *)
Lemma set_zoom_property_eq call (z : zoom) (v : float) (w : World) :
  set_zoom_property call z v w =
  if negb (feq (get_zoom z (obj w)) v)
  then for_each on_zoom call
         (record (Notified (zoom_name z) (lims (obj w)))
            (with_obj (set_zoom z v) w))
  else Done tt (with_obj (set_zoom z v) w).
Proof.
  unfold set_zoom_property, bind, get. destruct z; simpl;
    now destruct (negb (feq _ v)).
Qed.

(** During a sync both callbacks come back at once. *)
Lemma run_callback_quiet (n : nat) : quiet (run_callback (S n)).
Proof.
  intros c w Hs. simpl. unfold bind, modify.
  destruct c; unfold _set_zoom_radius_center_body, _set_axes_lim_body, bind, get;
    simpl; now rewrite Hs.
Qed.

Lemma entries_record_notified (c : callback) prop found (w : World) :
  entries c (seen (record (Notified prop found) w)) = entries c (seen w).
Proof. reflexivity. Qed.

Lemma entries_record_other (c c' : callback) (w : World) :
  c' <> c -> entries c (seen (record (Entered c') w)) = entries c (seen w).
Proof.
  intros Hc. unfold entries; simpl. now rewrite bool_decide_eq_false_2.
Qed.

Lemma entries_record_same (c : callback) (w : World) :
  entries c (seen (record (Entered c) w)) = S (entries c (seen w)).
Proof. unfold entries; simpl. now rewrite bool_decide_eq_true_2. Qed.

Lemma stable_synced (o : State) (c : callback) (n : nat) : stable (synced o c n).
Proof.
  split; [intros w ? ? [Ho Hn]|intros w ? [Ho Hn]]; split; assumption.
Qed.

Lemma stable_never : stable (fun _ : World => False).
Proof. split; intros; assumption. Qed.

Lemma quiet_keeps_synced call (o : State) (c0 c : callback) (n : nat) (w : World) :
  quiet call -> _during_zoom_sync o = true -> c <> c0 ->
  synced o c0 n w ->
  wp (call c) (fun _ w' => synced o c0 n w') (fun _ _ => False) w.
Proof.
  intros Hq Hs Hc [Ho Hn]. unfold wp. rewrite Hq by now rewrite Ho.
  split; [exact Ho|]. now rewrite entries_record_other.
Qed.

Lemma wp_set_during_zoom_sync (b : bool) (Q : unit -> World -> Prop) E (w : World) :
  Q tt (with_obj (with_during_zoom_sync b) w) ->
  wp (set_during_zoom_sync b) Q E w.
Proof. exact (fun q => q). Qed.

(** One limit assigned during a sync. *)
Lemma set_limit_property_synced call (o : State) (n : nat) (p : limit)
    (v : option float) (w : World) :
  quiet call -> _during_zoom_sync o = true ->
  synced o SetZoomRadiusCenter n w ->
  wp (set_limit_property call p v)
     (fun _ w' => synced (with_limits (set_limit p v (limits_of o)) o)
                    SetZoomRadiusCenter n w')
     (fun _ _ => False) w.
Proof.
  intros Hq Hs [Ho Hn].
  apply (assign_wp on_limit call
           (synced (with_limits (set_limit p v (limits_of o)) o)
              SetZoomRadiusCenter n) (fun _ _ => False)).
  - apply stable_synced.
  - intros c w' Hc%list_elem_of_singleton Hw'. subst c.
    apply quiet_keeps_synced; [assumption|now destruct o|discriminate|assumption].
  - split; [|exact Hn]. unfold stored; simpl. now rewrite Ho.
Qed.

(** One more assignment of a run of assignments during a sync. *)
Ltac assign_synced Hq Hprev :=
  eapply wp_mono;
  [ eapply set_limit_property_synced; [exact Hq| |exact Hprev];
    simpl; assumption
  | | intros ? ? [] ].

Lemma set_four_limits_synced call (o : State) (n : nat)
    (b : float * float * float * float) (w : World) :
  quiet call -> _during_zoom_sync o = true ->
  synced o SetZoomRadiusCenter n w ->
  wp (set_four_limits call b)
     (fun _ w' => synced (with_limits (box_limits b) o) SetZoomRadiusCenter n w')
     (fun _ _ => False) w.
Proof.
  intros Hq Hs Hw. destruct b as [[[x0 x1] y0] y1]. unfold set_four_limits.
  apply wp_bind. assign_synced Hq Hw.
  intros [] w1 H1. apply wp_bind. assign_synced Hq H1.
  intros [] w2 H2. apply wp_bind. assign_synced Hq H2.
  intros [] w3 H3. assign_synced Hq H3.
  intros [] w4 H4. exact H4.
Qed.

(** The aspect adjustment during a sync. *)
Lemma adjust_limits_aspect_synced call (o : State) (n : nat) (w : World) :
  quiet call -> _during_zoom_sync o = true ->
  synced o SetZoomRadiusCenter n w ->
  wp (_adjust_limits_aspect call)
     (fun _ w' =>
        (forall e, adjust_limits_aspect (limits_of o) <> AspectRaise e)
        /\ synced (with_limits (adjusted (limits_of o)) o)
             SetZoomRadiusCenter n w')
     (fun e w' =>
        adjust_limits_aspect (limits_of o) = AspectRaise e
        /\ synced (with_limits (adjusted (limits_of o)) o)
             SetZoomRadiusCenter n w') w.
Proof.
  intros Hq Hs Hw. unfold _adjust_limits_aspect. apply wp_bind, wp_get.
  destruct Hw as [Ho Hn]. simpl lims. rewrite Ho. unfold adjusted.
  destruct (adjust_limits_aspect (limits_of o)) as [|l|e] eqn:Ha.
  - apply wp_ret. split; [discriminate|]. split; [|exact Hn].
    rewrite Ho. now destruct o.
  - eapply wp_mono.
    + apply (delay_callback_wp on_limit call all_limits _
               (synced o SetZoomRadiusCenter n)
               (synced (with_limits l o) SetZoomRadiusCenter n)
               (fun _ _ => False)).
      * apply stable_synced.
      * apply stable_synced.
      * intros _. apply stable_never.
      * intros c w' Hc%list_elem_of_singleton Hw'. subst c.
        apply quiet_keeps_synced;
          [assumption|now destruct o|discriminate|assumption].
      * intros e c w' _ [].
      * now split.
      * intros w0 Hw0.
        apply wp_bind. assign_synced Hq Hw0.
        intros [] w1 H1. apply wp_bind. assign_synced Hq H1.
        intros [] w2 H2. apply wp_bind. assign_synced Hq H2.
        intros [] w3 H3. assign_synced Hq H3.
        intros [] w4 H4. destruct o, l; exact H4.
    + intros [] w' Hw'. split; [discriminate|exact Hw'].
    + intros e w' [].
  - apply wp_raise. split; [reflexivity|]. split; [|exact Hn].
    rewrite Ho. now destruct o.
Qed.

Lemma leave_sync_limits (l : limits) (o : State) :
  _during_zoom_sync o = false ->
  with_during_zoom_sync false (with_limits l (with_during_zoom_sync true o))
  = with_limits l o.
Proof. destruct o; simpl; now intros ->. Qed.

Lemma with_limits_twice (l l' : limits) (o : State) :
  with_limits l (with_limits l' o) = with_limits l o.
Proof. reflexivity. Qed.

(** The body of [_set_zoom_radius_center], past its guard, with
    callbacks that are quiet during the sync: the limits become the
    zoom box, as the aspect adjustment leaves it; nothing else of the
    object changes; the run raises exactly when the adjustment does;
    [_set_zoom_radius_center] is not called again. *)
Lemma set_zoom_radius_center_body_spec call (w : World)
    (c : float * float * float) :
  quiet call ->
  _during_zoom_sync (obj w) = false -> has_viewer (obj w) = true ->
  zoom_in_pixels (obj w) = Return c ->
  let l0 := box_limits (zoom_box c) in
  let post w' :=
    synced (with_limits (adjusted l0) (obj w)) SetZoomRadiusCenter
      (entries SetZoomRadiusCenter (seen w)) w' in
  wp (_set_zoom_radius_center_body call)
     (fun _ w' => (forall e, adjust_limits_aspect l0 <> AspectRaise e) /\ post w')
     (fun e w' => adjust_limits_aspect l0 = AspectRaise e /\ post w') w.
Proof.
  intros Hq Hs Hv Hz l0 post. unfold _set_zoom_radius_center_body.
  apply wp_bind, wp_get. rewrite Hs, Hv; simpl.
  apply wp_bind, wp_eval. rewrite Hz.
  unfold during_zoom_sync. apply wp_bind, wp_set_during_zoom_sync, wp_finally.
  apply wp_bind.
  eapply wp_mono;
    [apply (set_four_limits_synced call (with_during_zoom_sync true (obj w))
              (entries SetZoomRadiusCenter (seen w)) (zoom_box c));
     [exact Hq|reflexivity|now split] | |intros ? ? []].
  intros [] w1 H1.
  eapply wp_mono;
    [eapply (adjust_limits_aspect_synced call); [exact Hq| |exact H1]; reflexivity| |].
  - intros [] w2 [Hne [Ho Hn]]. apply wp_set_during_zoom_sync.
    split; [exact Hne|]. split; [|exact Hn].
    simpl. rewrite Ho. simpl limits_of. rewrite with_limits_twice.
    now apply leave_sync_limits.
  - intros e w2 [Ha [Ho Hn]]. apply wp_set_during_zoom_sync.
    split; [exact Ha|]. split; [|exact Hn].
    simpl. rewrite Ho. simpl limits_of. rewrite with_limits_twice.
    now apply leave_sync_limits.
Qed.

(** One zoom property assigned during a sync. *)
Lemma set_zoom_property_synced call (o : State) (n : nat) (z : zoom)
    (v : float) (w : World) :
  quiet call -> _during_zoom_sync o = true ->
  synced o SetAxesLim n w ->
  wp (set_zoom_property call z v)
     (fun _ w' => synced (set_zoom z v o) SetAxesLim n w')
     (fun _ _ => False) w.
Proof.
  intros Hq Hs [Ho Hn]. unfold wp. rewrite set_zoom_property_eq.
  destruct (negb (feq _ v)).
  - simpl. unfold bind. rewrite Hq by (simpl; rewrite Ho; now destruct o).
    unfold ret. split; [simpl; now rewrite Ho|].
    rewrite entries_record_other by discriminate. exact Hn.
  - split; [simpl; now rewrite Ho|exact Hn].
Qed.

Lemma leave_sync_zoom (b : float * float * float * float) (o : State) :
  _during_zoom_sync o = false ->
  with_during_zoom_sync false (zoom_of_limits b (with_during_zoom_sync true o))
  = zoom_of_limits b o.
Proof. destruct o, b as [[[x0 x1] y0] y1]; simpl; now intros ->. Qed.

(** The body of [_set_axes_lim], past its guards, with callbacks that
    are quiet during the sync: the zoom properties are derived from the
    limits, nothing else of the object changes, nothing is raised, and
    [_set_axes_lim] is not called again. *)
Lemma set_axes_lim_body_spec call (w : World) (x0 x1 y0 y1 : float)
    (b : float * float * float * float) :
  quiet call ->
  _during_zoom_sync (obj w) = false -> has_viewer (obj w) = true ->
  lims (obj w) = Limits (Some x0) (Some x1) (Some y0) (Some y1) ->
  limits_in_axes_units (obj w) x0 x1 y0 y1 = Return b ->
  wp (_set_axes_lim_body call)
     (fun _ w' => synced (zoom_of_limits b (obj w)) SetAxesLim
                    (entries SetAxesLim (seen w)) w')
     (fun _ _ => False) w.
Proof.
  intros Hq Hs Hv Hl Hb. unfold _set_axes_lim_body.
  apply wp_bind, wp_get. rewrite Hs, Hv; simpl. simpl in Hl. rewrite Hl; simpl.
  apply wp_bind, wp_eval. rewrite Hb. destruct b as [[[a0 a1] b0] b1].
  unfold during_zoom_sync. apply wp_bind, wp_set_during_zoom_sync, wp_finally.
  apply wp_bind.
  eapply wp_mono;
    [apply (set_zoom_property_synced call (with_during_zoom_sync true (obj w))
              (entries SetAxesLim (seen w)) Zoom_radius);
     [exact Hq|reflexivity|now split]| |intros ? ? []].
  intros [] w1 H1. apply wp_bind.
  eapply wp_mono;
    [eapply (set_zoom_property_synced call _ _ Zoom_center_x);
     [exact Hq| |exact H1]; reflexivity| |intros ? ? []].
  intros [] w2 H2.
  eapply wp_mono;
    [eapply (set_zoom_property_synced call _ _ Zoom_center_y);
     [exact Hq| |exact H2]; reflexivity| |intros ? ? []].
  intros [] w3 [Ho Hn]. apply wp_set_during_zoom_sync.
  split; [|exact Hn]. simpl. rewrite Ho.
  now apply (leave_sync_zoom (a0, a1, b0, b1)).
Qed.

Lemma set_zoom_radius_center_unfold (n : nat) (w : World) :
  _set_zoom_radius_center (S n) w =
  _set_zoom_radius_center_body (run_callback n)
    (record (Entered SetZoomRadiusCenter) w).
Proof. reflexivity. Qed.

Lemma set_axes_lim_unfold (n : nat) (w : World) :
  _set_axes_lim (S n) w =
  _set_axes_lim_body (run_callback n) (record (Entered SetAxesLim) w).
Proof. reflexivity. Qed.

(** The guards of the two callbacks. *)
Lemma set_zoom_radius_center_body_guard call (w : World) :
  _during_zoom_sync (obj w) || negb (has_viewer (obj w)) = true ->
  _set_zoom_radius_center_body call w = Done tt w.
Proof.
  intros Hg. unfold _set_zoom_radius_center_body, bind, get. now rewrite Hg.
Qed.

Lemma set_axes_lim_body_guard call (w : World) :
  _during_zoom_sync (obj w) || negb (has_viewer (obj w)) = true ->
  _set_axes_lim_body call w = Done tt w.
Proof.
  intros Hg. unfold _set_axes_lim_body, bind, get. now rewrite Hg.
Qed.

(** An exception of the conversion to pixels leaves before the sync. *)
Lemma set_zoom_radius_center_body_throw call (w : World) (e : exn) :
  _during_zoom_sync (obj w) || negb (has_viewer (obj w)) = false ->
  zoom_in_pixels (obj w) = Throw e ->
  _set_zoom_radius_center_body call w = Raised e w.
Proof.
  intros Hg Hz. unfold _set_zoom_radius_center_body, bind, get.
  now rewrite Hg, Hz.
Qed.

(** [_set_zoom_radius_center] at call depth two or more, on a state
    that is attached and not in a sync, when the zoom circle converts to
    pixels. *)
Lemma set_zoom_radius_center_spec (n : nat) (w : World)
    (c : float * float * float) :
  _during_zoom_sync (obj w) = false -> has_viewer (obj w) = true ->
  zoom_in_pixels (obj w) = Return c ->
  let l0 := box_limits (zoom_box c) in
  let post w' :=
    obj w' = with_limits (adjusted l0) (obj w)
    /\ entries SetZoomRadiusCenter (seen w')
       = S (entries SetZoomRadiusCenter (seen w)) in
  match _set_zoom_radius_center (S (S n)) w with
  | Done _ w' => (forall e, adjust_limits_aspect l0 <> AspectRaise e) /\ post w'
  | Raised e w' => adjust_limits_aspect l0 = AspectRaise e /\ post w'
  | OutOfFuel => False
  end.
Proof.
  intros Hs Hv Hz l0 post. rewrite set_zoom_radius_center_unfold.
  pose proof (set_zoom_radius_center_body_spec (run_callback (S n))
                (record (Entered SetZoomRadiusCenter) w) c
                (run_callback_quiet n) Hs Hv Hz) as Hb.
  unfold wp in Hb. rewrite entries_record_same in Hb.
  exact Hb.
Qed.

(** C6: while [_during_zoom_sync] is true both callbacks come back at
    once and leave the object as it is; and a call of
    [_set_zoom_radius_center], on any state, ends within call depth two,
    with [_set_zoom_radius_center] entered once, by that call alone:
    the calls of [_set_axes_lim] it causes do not call it again. *)
Theorem zoom_sync_no_reentry (w : World) (n : nat) :
  (forall (c : callback) (m : nat) (w0 : World),
     _during_zoom_sync (obj w0) = true ->
     run_callback (S m) c w0 = Done tt (record (Entered c) w0)
     /\ obj (record (Entered c) w0) = obj w0)
  /\ exists w',
       final (_set_zoom_radius_center (S (S n)) w) = Some w'
       /\ entries SetZoomRadiusCenter (seen w')
          = S (entries SetZoomRadiusCenter (seen w)).
Proof.
  split.
  - intros c m w0 Hs. split; [now apply run_callback_quiet|reflexivity].
  - destruct (_during_zoom_sync (obj w) || negb (has_viewer (obj w))) eqn:Hg.
    + exists (record (Entered SetZoomRadiusCenter) w).
      rewrite set_zoom_radius_center_unfold.
      rewrite set_zoom_radius_center_body_guard by exact Hg.
      split; [reflexivity|apply entries_record_same].
    + pose proof Hg as Hg'.
      apply orb_false_iff in Hg as [Hs Hv]. apply negb_false_iff in Hv.
      destruct (zoom_in_pixels (obj w)) as [c|e] eqn:Hz.
      * pose proof (set_zoom_radius_center_spec n w c Hs Hv Hz) as Hr.
        destruct (_set_zoom_radius_center (S (S n)) w) as [[] w'|e w'|];
          [| |contradiction]; exists w'; split; try reflexivity; apply Hr.
      * exists (record (Entered SetZoomRadiusCenter) w).
        rewrite set_zoom_radius_center_unfold.
        rewrite (set_zoom_radius_center_body_throw _ _ e) by assumption.
        split; [reflexivity|apply entries_record_same].
Qed.

(** C5: when the aspect adjustment raises [e] on the zoom box, the call
    of [_set_zoom_radius_center] raises [e], and the state it leaves has
    [_during_zoom_sync] false. *)
Theorem zoom_sync_cleared_on_error (w : World) (n : nat)
    (c : float * float * float) (e : exn) :
  _during_zoom_sync (obj w) = false -> has_viewer (obj w) = true ->
  zoom_in_pixels (obj w) = Return c ->
  adjust_limits_aspect (box_limits (zoom_box c)) = AspectRaise e ->
  exists w', _set_zoom_radius_center (S (S n)) w = Raised e w'
             /\ _during_zoom_sync (obj w') = false.
Proof.
  intros Hs Hv Hz Ha.
  pose proof (set_zoom_radius_center_spec n w c Hs Hv Hz) as Hr.
  destruct (_set_zoom_radius_center (S (S n)) w) as [[] w'|e' w'|];
    [|  |contradiction].
  - destruct Hr as [Hne _]. now destruct (Hne e).
  - destruct Hr as [Ha' [Ho _]]. rewrite Ha in Ha'. injection Ha' as <-.
    exists w'. split; [reflexivity|]. rewrite Ho. simpl. exact Hs.
Qed.

(** [_set_axes_lim] at call depth two or more, on a state that is
    attached and not in a sync, with all four limits set, when the
    limits convert to axes units. *)
Lemma set_axes_lim_spec (n : nat) (w : World) (x0 x1 y0 y1 : float)
    (b : float * float * float * float) :
  _during_zoom_sync (obj w) = false -> has_viewer (obj w) = true ->
  lims (obj w) = Limits (Some x0) (Some x1) (Some y0) (Some y1) ->
  limits_in_axes_units (obj w) x0 x1 y0 y1 = Return b ->
  exists w', _set_axes_lim (S (S n)) w = Done tt w'
    /\ obj w' = zoom_of_limits b (obj w)
    /\ entries SetAxesLim (seen w') = S (entries SetAxesLim (seen w)).
Proof.
  intros Hs Hv Hl Hb. rewrite set_axes_lim_unfold.
  pose proof (set_axes_lim_body_spec (run_callback (S n))
                (record (Entered SetAxesLim) w) x0 x1 y0 y1 b
                (run_callback_quiet n) Hs Hv Hl Hb) as Hr.
  apply wp_done in Hr as ([] & w' & Hrun & Ho & Hn).
  exists w'. split; [exact Hrun|]. split; [exact Ho|].
  now rewrite Hn, entries_record_same.
Qed.

(** C2, as amended: on a state that is attached, not linked by WCS and
    not in a sync, with the limits 0, 10, 0 and 4, [_set_axes_lim] gives
    the zoom centre (5, 2) and the zoom radius 2; from the state it
    leaves, [_set_zoom_radius_center] gives the limits 3, 7, 0 and 4,
    provided the aspect adjustment of the base class leaves that box as
    it is. *)
Theorem zoom_round_trip (w : World) (n : nat) :
  _during_zoom_sync (obj w) = false -> has_viewer (obj w) = true ->
  linked_by_wcs (obj w) = false ->
  lims (obj w) = limits_of_Z 0 10 0 4 ->
  adjust_limits_aspect (limits_of_Z 3 7 0 4) = AspectKeep ->
  exists w1,
    _set_axes_lim (S (S n)) w = Done tt w1
    /\ zoom_center_x (obj w1) = of_Z 5
    /\ zoom_center_y (obj w1) = of_Z 2
    /\ zoom_radius (obj w1) = of_Z 2
    /\ exists w2,
         _set_zoom_radius_center (S (S n)) w1 = Done tt w2
         /\ lims (obj w2) = limits_of_Z 3 7 0 4.
Proof.
  intros Hs Hv Hl Hlims Ha.
  destruct (set_axes_lim_spec n w (of_Z 0) (of_Z 10) (of_Z 0) (of_Z 4)
              (of_Z 0, of_Z 10, of_Z 0, of_Z 4) Hs Hv Hlims)
    as (w1 & R1 & O1 & _).
  { unfold limits_in_axes_units. now rewrite Hl. }
  exists w1. split; [exact R1|].
  assert (Zx : zoom_center_x (obj w1) = of_Z 5) by (rewrite O1; reflexivity).
  assert (Zy : zoom_center_y (obj w1) = of_Z 2) by (rewrite O1; reflexivity).
  assert (Zr : zoom_radius (obj w1) = of_Z 2) by (rewrite O1; reflexivity).
  repeat (split; [assumption|]).
  assert (Hs1 : _during_zoom_sync (obj w1) = false)
    by (rewrite O1; now destruct (obj w)).
  assert (Hv1 : has_viewer (obj w1) = true)
    by (rewrite O1; now destruct (obj w)).
  assert (Hz1 : zoom_in_pixels (obj w1) = Return (of_Z 5, of_Z 2, of_Z 2)).
  { unfold zoom_in_pixels.
    replace (linked_by_wcs (obj w1)) with false
      by (rewrite O1; now destruct (obj w)).
    now rewrite Zx, Zy, Zr. }
  pose proof (set_zoom_radius_center_spec n w1 _ Hs1 Hv1 Hz1) as H2.
  cbv zeta in H2.
  change (box_limits (zoom_box (of_Z 5, of_Z 2, of_Z 2)))
    with (limits_of_Z 3 7 0 4) in H2.
  unfold adjusted in H2. rewrite Ha in H2.
  destruct (_set_zoom_radius_center (S (S n)) w1) as [[] w2|e w2|].
  - exists w2. split; [reflexivity|].
    destruct H2 as [_ [O2 _]]. now rewrite O2.
  - destruct H2 as [H2 _]. discriminate H2.
  - contradiction.
Qed.

(** *** Outside a sync *)

Lemma set_axes_lim_body_unset call (w : World) :
  x_min (lims (obj w)) = None \/ x_max (lims (obj w)) = None
  \/ y_min (lims (obj w)) = None \/ y_max (lims (obj w)) = None ->
  _set_axes_lim_body call w = Done tt w.
Proof.
  intros Hn. unfold _set_axes_lim_body, bind, get.
  destruct (_ || _); [reflexivity|].
  destruct (x_min _), (x_max _), (y_min _), (y_max _); try reflexivity;
    destruct Hn as [Hn|[Hn|[Hn|Hn]]]; discriminate Hn.
Qed.

Lemma set_axes_lim_body_throw call (w : World) (x0 x1 y0 y1 : float) (e : exn) :
  _during_zoom_sync (obj w) || negb (has_viewer (obj w)) = false ->
  lims (obj w) = Limits (Some x0) (Some x1) (Some y0) (Some y1) ->
  limits_in_axes_units (obj w) x0 x1 y0 y1 = Throw e ->
  _set_axes_lim_body call w = Raised e w.
Proof.
  intros Hg Hl Ht. unfold _set_axes_lim_body, bind, get.
  rewrite Hg. simpl. simpl in Hl. rewrite Hl; simpl. now rewrite Ht.
Qed.

(** [_set_axes_lim] never writes a limit. *)
Lemma set_axes_lim_keeps_limits (n : nat) (l : limits) (c : callback) (w : World) :
  c ∈ on_limit -> lims (obj w) = l ->
  wp (run_callback (S (S n)) c)
     (fun _ w' => lims (obj w') = l) (fun _ w' => lims (obj w') = l) w.
Proof.
  intros ->%list_elem_of_singleton Hl. unfold wp.
  change (run_callback (S (S n)) SetAxesLim w) with (_set_axes_lim (S (S n)) w).
  destruct (_during_zoom_sync (obj w) || negb (has_viewer (obj w))) eqn:Hg.
  - rewrite set_axes_lim_unfold, set_axes_lim_body_guard by exact Hg. exact Hl.
  - destruct (x_min (lims (obj w))) as [x0|] eqn:E0;
      [|rewrite set_axes_lim_unfold, set_axes_lim_body_unset; [exact Hl|auto]].
    destruct (x_max (lims (obj w))) as [x1|] eqn:E1;
      [|rewrite set_axes_lim_unfold, set_axes_lim_body_unset; [exact Hl|auto]].
    destruct (y_min (lims (obj w))) as [y0|] eqn:E2;
      [|rewrite set_axes_lim_unfold, set_axes_lim_body_unset; [exact Hl|auto]].
    destruct (y_max (lims (obj w))) as [y1|] eqn:E3;
      [|rewrite set_axes_lim_unfold, set_axes_lim_body_unset; [exact Hl|auto]].
    assert (Hlims : lims (obj w) = Limits (Some x0) (Some x1) (Some y0) (Some y1))
      by (destruct (lims (obj w)); simpl in *; congruence).
    destruct (limits_in_axes_units (obj w) x0 x1 y0 y1) as [b|e] eqn:Hb.
    + pose proof Hg as Hg'.
      apply orb_false_iff in Hg' as [Hs Hv]. apply negb_false_iff in Hv.
      destruct (set_axes_lim_spec n w x0 x1 y0 y1 b Hs Hv Hlims Hb)
        as (w' & -> & Ho & _).
      rewrite Ho. destruct b as [[[a0 a1] b0] b1]. simpl. now rewrite <- Hl.
    + rewrite set_axes_lim_unfold.
      rewrite (set_axes_lim_body_throw _ _ x0 x1 y0 y1 e); [|exact Hg|exact Hlims|exact Hb].
      simpl. now rewrite <- Hl.
Qed.

Lemma stable_limits (l : limits) : stable (fun w : World => lims (obj w) = l).
Proof. split; intros; assumption. Qed.

(** Four assignments inside a [delay_callback] block on the limits. *)
Lemma four_assignments_delayed call (v0 v1 v2 v3 : option float) (w : World) :
  (forall p, enabled p w = false) ->
  exists w',
    (set_limit_property call X_min v0 ;!
     set_limit_property call X_max v1 ;!
     set_limit_property call Y_min v2 ;!
     set_limit_property call Y_max v3) w = Done tt w'
    /\ obj w' = with_limits (Limits v0 v1 v2 v3) (obj w)
    /\ delay w' = delay w.
Proof.
  intros Hall. unfold set_limit_property, bind.
  rewrite assign_disabled by apply Hall.
  rewrite assign_disabled by exact (Hall _).
  rewrite assign_disabled by exact (Hall _).
  rewrite assign_disabled by exact (Hall _).
  eexists. split; [reflexivity|]. split; reflexivity.
Qed.

Lemma all_limits_disabled (w : World) (p : limit) :
  enabled p (foldl (fun w p => delay_enter p w) w all_limits) = false.
Proof.
  apply enabled_delay_enter_all. left. unfold all_limits.
  destruct p; repeat first [apply list_elem_of_here|apply list_elem_of_further].
Qed.

(** The aspect adjustment outside a sync: the limits it leaves are those
    glue computes from the limits it finds, whether it returns or
    raises. *)
Lemma adjust_limits_aspect_limits (n : nat) (w : World) :
  wp (_adjust_limits_aspect (run_callback (S (S n))))
     (fun _ w' => lims (obj w') = adjusted (lims (obj w)))
     (fun _ w' => lims (obj w') = adjusted (lims (obj w))) w.
Proof.
  unfold _adjust_limits_aspect. apply wp_bind, wp_get. unfold adjusted.
  destruct (adjust_limits_aspect (lims (obj w))) as [|l|e] eqn:Ha.
  - now apply wp_ret.
  - apply (delay_callback_entered_wp on_limit (run_callback (S (S n)))
             all_limits _ (fun w' => lims (obj w') = l)).
    + apply stable_limits.
    + intros c w' Hc Hw'. now apply set_axes_lim_keeps_limits.
    + destruct (four_assignments_delayed (run_callback (S (S n)))
                  (x_min l) (x_max l) (y_min l) (y_max l)
                  (foldl (fun w p => delay_enter p w) w all_limits)
                  (all_limits_disabled w)) as (w' & Hrun & Ho & _).
      unfold wp. rewrite Hrun, Ho. now destruct l.
  - now apply wp_raise.
Qed.

(** C7: in the Imviz-style configuration, with reference data, when
    [_get_reset_limits] gives the bounds [b]: if one of them is not
    finite, [reset_limits] leaves the state as it is; otherwise the four
    limits are assigned from [b] and handed to the aspect adjustment,
    and the run ends with the limits that the adjustment leaves for
    them, which are [b] itself unless the adjustment replaces them. *)
Theorem reset_limits_finite_or_unchanged (w : World) (n : nat)
    (b : float * float * float * float) :
  other_application (obj w) = false ->
  is_Some (reference_data (obj w)) ->
  _get_reset_limits false (obj w) = Return b ->
  (any_not_finite b = true -> reset_limits (S (S n)) w = Done tt w)
  /\ (any_not_finite b = false ->
      exists w', final (reset_limits (S (S n)) w) = Some w'
        /\ lims (obj w') = adjusted (box_limits b)
        /\ ((forall l, adjust_limits_aspect (box_limits b) <> AspectSet l) ->
            lims (obj w') = box_limits b)).
Proof.
  intros Happ [d Hd] Hb. split; intros Hfin.
  - unfold reset_limits, bind, get. rewrite Happ, Hd, Hb. unfold eval, ret.
    now rewrite Hfin.
  - assert (Hwp : wp (reset_limits (S (S n)))
                    (fun _ w' => lims (obj w') = adjusted (box_limits b))
                    (fun _ w' => lims (obj w') = adjusted (box_limits b)) w).
    { unfold reset_limits. apply wp_bind, wp_get. rewrite Happ, Hd.
      apply wp_bind, wp_eval. rewrite Hb, Hfin.
      apply (delay_callback_entered_wp on_limit (run_callback (S (S n)))
               all_limits _ (fun w' => lims (obj w') = adjusted (box_limits b))).
      - apply stable_limits.
      - intros c w' Hc Hw'. now apply set_axes_lim_keeps_limits.
      - apply wp_bind. destruct b as [[[x0 x1] y0] y1].
        destruct (four_assignments_delayed (run_callback (S (S n)))
                    (Some x0) (Some x1) (Some y0) (Some y1)
                    (foldl (fun w p => delay_enter p w) w all_limits)
                    (all_limits_disabled w)) as (w1 & Hrun & Ho & _).
        apply (done_wp _ _ _ _ tt w1 Hrun).
        eapply wp_mono; [apply adjust_limits_aspect_limits| |];
          intros ? w2 Hw2; rewrite Hw2, Ho; reflexivity. }
    apply wp_final in Hwp as (w' & Hrun & Hl).
    exists w'. split; [exact Hrun|]. split; [exact Hl|].
    intros Hkeep. rewrite Hl. unfold adjusted.
    destruct (adjust_limits_aspect (box_limits b)) as [|l|e]; try reflexivity.
    now destruct (Hkeep l).
Qed.

(** *** [_get_reset_limits] *)

Lemma eligible_not_skipped (l : LayerState) :
  negb (visible l) || Nat.eqb (ndim (layer l)) 1 = negb (eligible l).
Proof. unfold eligible. now destruct (visible l), (Nat.eqb _ 1). Qed.

(** The second loop, when every eligible layer has pixel components
    labelled [x] and [y] that index its shape: the running maxima of the
    extents. *)
Lemma pixel_loop_spec (ls : list LayerState) (ax ay : float) :
  (forall l, l ∈ ls -> eligible l = true ->
     exists ex ey, extent "[x]" l = Return ex /\ extent "[y]" l = Return ey) ->
  fold_outcome pixel_step (ax, ay) ls =
  Return (foldl Py.max ax (extents "[x]" ls), foldl Py.max ay (extents "[y]" ls)).
Proof.
  revert ax ay. induction ls as [|l ls IH]; intros ax ay Hwf; [reflexivity|].
  assert (Hwf' : forall l', l' ∈ ls -> eligible l' = true ->
            exists ex ey, extent "[x]" l' = Return ex /\ extent "[y]" l' = Return ey)
    by (intros l' Hl'; apply Hwf; now apply list_elem_of_further).
  simpl fold_outcome. unfold pixel_step at 1. rewrite eligible_not_skipped.
  unfold extents; simpl omap.
  destruct (eligible l) eqn:El; simpl.
  - destruct (Hwf l (list_elem_of_here _ _) El) as (ex & ey & Hx & Hy).
    rewrite Hx, Hy. unfold extent in Hx, Hy.
    destruct (pixel_id "[x]" _) as [idx|]; [|discriminate Hx].
    destruct (pixel_id "[y]" _) as [idy|]; [|discriminate Hy].
    simpl in Hx, Hy |- *.
    destruct (index (shape (layer l)) (axis idx)) as [nx|]; [|discriminate Hx].
    destruct (index (shape (layer l)) (axis idy)) as [ny|]; [|discriminate Hy].
    simpl in Hx, Hy |- *. injection Hx as <-. injection Hy as <-.
    now apply IH.
  - now apply IH.
Qed.

(** The first loop leaves [wcs_success] false when no visible layer has
    a coordinate transform. *)
Lemma wcs_loop_none (r : bool) (s : State) (ref_coords : wcs)
    (ls : list LayerState) (acc : float * float * float * float) :
  (forall l, l ∈ ls -> visible l = true ->
     exists d, data_by_label (data_collection s) (label (layer l)) = Return d
               /\ coords d = None) ->
  fold_outcome (wcs_step r s ref_coords) (acc, false) ls = Return (acc, false).
Proof.
  induction ls as [|l ls IH]; intros Hno; [reflexivity|].
  simpl. destruct acc as [[[x0 x1] y0] y1]. unfold wcs_step at 1.
  destruct (visible l) eqn:Hv; simpl.
  - destruct (Hno l (list_elem_of_here _ _) Hv) as (d & -> & Hc). simpl.
    rewrite Hc. apply IH. intros l' Hl'. apply Hno. now apply list_elem_of_further.
  - apply IH. intros l' Hl'. apply Hno. now apply list_elem_of_further.
Qed.

(** C8: when [linked_by_wcs] is false, or the reference data or every
    visible layer has no coordinate transform, and every visible layer
    that is not one-dimensional has its [x] and [y] pixel components,
    [_get_reset_limits] returns -0.5 for [x_min] and [y_min], and for
    [x_max] and [y_max] the running maximum, from minus infinity, of
    [shape - 0.5] along that pixel axis over those layers: a value above
    all of them, and one of them unless there is none, when it is minus
    infinity, which is not finite. *)
Theorem get_reset_limits_pixel_fallback (r : bool) (s : State) :
  (linked_by_wcs s = false
   \/ (exists d, reference_data s = Some d /\ coords d = None)
   \/ (is_Some (reference_data s)
       /\ forall l, l ∈ layers s -> visible l = true ->
            exists d, data_by_label (data_collection s) (label (layer l))
                      = Return d /\ coords d = None)) ->
  (forall l, l ∈ layers s -> eligible l = true ->
     exists ex ey, extent "[x]" l = Return ex /\ extent "[y]" l = Return ey) ->
  let xs := extents "[x]" (layers s) in
  let ys := extents "[y]" (layers s) in
  exists mx my,
    _get_reset_limits r s = Return (fneg half, mx, fneg half, my)
    /\ mx = foldl Py.max neg_inf xs /\ my = foldl Py.max neg_inf ys
    /\ upper_bound mx xs /\ (mx = neg_inf \/ mx ∈ xs)
    /\ upper_bound my ys /\ (my = neg_inf \/ my ∈ ys)
    /\ (List.filter eligible (layers s) = [] ->
        mx = neg_inf /\ my = neg_inf
        /\ any_not_finite (fneg half, mx, fneg half, my) = true).
Proof.
  intros Hno Hwf xs ys.
  exists (foldl Py.max neg_inf xs), (foldl Py.max neg_inf ys).
  assert (Hw : wcs_limits r s = Return None).
  { unfold wcs_limits. destruct (linked_by_wcs s); [|reflexivity].
    destruct Hno as [Hno|[(d & Hd & Hc)|([d Hd] & Hno)]].
    - discriminate Hno.
    - unfold reference_data_coords. now rewrite Hd, Hc.
    - unfold reference_data_coords. rewrite Hd; simpl.
      destruct (coords d) as [rc|]; [|reflexivity].
      now rewrite (wcs_loop_none r s rc (layers s) (inf, neg_inf, inf, neg_inf) Hno). }
  split.
  { unfold _get_reset_limits. rewrite Hw; simpl. unfold pixel_limits.
    now rewrite (pixel_loop_spec (layers s) neg_inf neg_inf Hwf). }
  split; [reflexivity|]. split; [reflexivity|].
  destruct (FloatFacts.running_max_spec xs [] neg_inf) as [Ux Mx];
    [intros v Hv; now apply elem_of_nil in Hv|].
  destruct (FloatFacts.running_max_spec ys [] neg_inf) as [Uy My];
    [intros v Hv; now apply elem_of_nil in Hv|].
  repeat (split; [assumption|]).
  intros Hnone.
  assert (Hx : xs = [] /\ ys = []).
  { subst xs ys. unfold extents. clear -Hnone.
    induction (layers s) as [|l ls IH]; [now split|].
    simpl in Hnone. destruct (eligible l) eqn:El; [discriminate Hnone|].
    simpl. rewrite El. now apply IH. }
  destruct Hx as [-> ->]. now repeat split.
Qed.

End Facts.

Import Examples.

(** The amended C2 on the example viewer, with an aspect adjustment that
    leaves every box as it is. *)
Lemma zoom_round_trip_witness :
  exists w1,
    @_set_axes_lim no_wcs keep_aspect 2
      (image_world (limits_of_Z 0 10 0 4) false []) = Done tt w1
    /\ zoom_center_x (obj w1) = of_Z 5
    /\ zoom_center_y (obj w1) = of_Z 2
    /\ zoom_radius (obj w1) = of_Z 2
    /\ exists w2,
         @_set_zoom_radius_center no_wcs keep_aspect 2 w1 = Done tt w2
         /\ lims (obj w2) = limits_of_Z 3 7 0 4.
Proof.
  apply (@zoom_round_trip no_wcs keep_aspect
           (image_world (limits_of_Z 0 10 0 4) false []) 0); reflexivity.
Defined.

(** C2, as stated, fails on a state that is inside a sync: there
    [_set_axes_lim] returns at its guard and the zoom stays at its
    default, radius 1 around the origin. And the second half depends on
    the aspect adjustment: in a viewer twice as wide as high,
    [_set_zoom_radius_center] ends with the limits 1, 9, 0 and 4. *)
Lemma zoom_round_trip_counterexample :
  (let w := image_world (limits_of_Z 0 10 0 4) true [] in
   has_viewer (obj w) = true /\ linked_by_wcs (obj w) = false
   /\ lims (obj w) = limits_of_Z 0 10 0 4
   /\ exists w1, @_set_axes_lim no_wcs keep_aspect 2 w = Done tt w1
        /\ zoom_center_x (obj w1) = of_Z 0 /\ zoom_center_y (obj w1) = of_Z 0
        /\ zoom_radius (obj w1) = of_Z 1
        /\ zoom_center_x (obj w1) <> of_Z 5)
  /\ (let w := image_world (limits_of_Z 0 10 0 4) false [] in
      exists w1 w2,
        @_set_axes_lim no_wcs wide_aspect 2 w = Done tt w1
        /\ zoom_center_x (obj w1) = of_Z 5 /\ zoom_center_y (obj w1) = of_Z 2
        /\ zoom_radius (obj w1) = of_Z 2
        /\ @_set_zoom_radius_center no_wcs wide_aspect 2 w1 = Done tt w2
        /\ lims (obj w2) = limits_of_Z 1 9 0 4
        /\ lims (obj w2) <> limits_of_Z 3 7 0 4).
Proof.
  split.
  - cbv zeta. repeat (split; [reflexivity|]).
    eexists. repeat (split; [reflexivity|]). discriminate.
  - cbv zeta. eexists. eexists.
    split; [vm_compute; reflexivity|].
    do 3 (split; [reflexivity|]).
    split; [vm_compute; reflexivity|].
    split; [reflexivity|]. discriminate.
Qed.

(** C5 on the example viewer, with an aspect adjustment that raises. *)
Lemma zoom_sync_cleared_on_error_witness :
  exists w',
    @_set_zoom_radius_center no_wcs failing_aspect 2
      (image_world (limits_of_Z 0 10 0 4) false []) = Raised (Error "aspect") w'
    /\ _during_zoom_sync (obj w') = false.
Proof.
  apply (@zoom_sync_cleared_on_error no_wcs failing_aspect
           (image_world (limits_of_Z 0 10 0 4) false []) 0
           (of_Z 0, of_Z 0, of_Z 1) (Error "aspect")); reflexivity.
Defined.

(** C6 on the example viewer, inside and outside a sync. *)
Lemma zoom_sync_no_reentry_witness :
  @run_callback no_wcs keep_aspect 1 SetAxesLim
    (image_world (limits_of_Z 0 10 0 4) true [])
  = Done tt (record (Entered SetAxesLim)
               (image_world (limits_of_Z 0 10 0 4) true []))
  /\ exists w',
       final (@_set_zoom_radius_center no_wcs keep_aspect 2
                (image_world (limits_of_Z 0 10 0 4) false [])) = Some w'
       /\ entries SetZoomRadiusCenter (seen w') = 1%nat.
Proof.
  destruct (@zoom_sync_no_reentry no_wcs keep_aspect
              (image_world (limits_of_Z 0 10 0 4) false []) 0) as [Hg Hr].
  split.
  - apply (Hg SetAxesLim 0%nat (image_world (limits_of_Z 0 10 0 4) true [])).
    reflexivity.
  - exact Hr.
Defined.

(** C7 on the example viewer with one image of 20 by 30 pixels, and on
    the example viewer without layers, where the upper bounds are minus
    infinity. *)
Lemma reset_limits_finite_or_unchanged_witness :
  (exists w',
     final (@reset_limits no_wcs keep_aspect 2
              (image_world (limits_of_Z 0 10 0 4) false [image_layer "a" 20 30]))
     = Some w'
     /\ lims (obj w')
        = Limits (Some (fneg half)) (Some (fsub (of_Z 30) half))
                 (Some (fneg half)) (Some (fsub (of_Z 20) half)))
  /\ @reset_limits no_wcs keep_aspect 2
       (MkWorld (MkState (limits_of_Z 0 10 0 4) (of_Z 1) (of_Z 0) (of_Z 0)
                   false false None (Some (layer (image_layer "a" 20 30)))
                   [] []) [] [])
     = Done tt
         (MkWorld (MkState (limits_of_Z 0 10 0 4) (of_Z 1) (of_Z 0) (of_Z 0)
                     false false None (Some (layer (image_layer "a" 20 30)))
                     [] []) [] []).
Proof.
  split.
  - destruct (@reset_limits_finite_or_unchanged no_wcs keep_aspect
                (image_world (limits_of_Z 0 10 0 4) false [image_layer "a" 20 30])
                0 (fneg half, fsub (of_Z 30) half, fneg half, fsub (of_Z 20) half))
      as [_ Hfin]; [reflexivity|now eexists|reflexivity|].
    destruct Hfin as (w' & Hrun & Hl & _); [reflexivity|].
    exists w'. split; [exact Hrun|exact Hl].
  - apply (@reset_limits_finite_or_unchanged no_wcs keep_aspect _ 0
             (fneg half, neg_inf, fneg half, neg_inf));
      [reflexivity|now eexists|reflexivity|reflexivity].
Defined.

(** C8 on a viewer with two images, of 20 by 30 and of 40 by 10 pixels. *)
Lemma get_reset_limits_pixel_fallback_witness :
  @_get_reset_limits no_wcs false
    (image_state (limits_of_Z 0 10 0 4) false
       [image_layer "a" 20 30; image_layer "b" 40 10])
  = Return (fneg half, fsub (of_Z 30) half, fneg half, fsub (of_Z 40) half).
Proof.
  destruct (@get_reset_limits_pixel_fallback no_wcs false
              (image_state (limits_of_Z 0 10 0 4) false
                 [image_layer "a" 20 30; image_layer "b" 40 10]))
    as (mx & my & Hrun & -> & -> & _).
  - left. reflexivity.
  - intros l Hl _.
    apply elem_of_cons in Hl as [->|Hl]; [do 2 eexists; split; reflexivity|].
    apply elem_of_cons in Hl as [->|Hl]; [do 2 eexists; split; reflexivity|].
    now apply elem_of_nil in Hl.
  - exact Hrun.
Defined.

(** C8, as stated, fails on a visible layer that has no pixel component
    labelled [x]: glue gives the pixel components of data of four or
    more dimensions labels without an axis letter, the list of the
    components whose label ends in [[x]] is empty, and its first element
    is an IndexError. The state is not linked by WCS, and
    [_get_reset_limits] returns no bounds at all. *)
Lemma get_reset_limits_pixel_fallback_counterexample :
  let hypercube :=
    {| visible := true;
       layer := {| label := "c"; shape := [2; 3; 4; 5]; coords := None;
                   pixel_component_ids :=
                     [ {| cid_label := "Pixel Axis 0"; axis := 0 |};
                       {| cid_label := "Pixel Axis 1"; axis := 1 |};
                       {| cid_label := "Pixel Axis 2"; axis := 2 |};
                       {| cid_label := "Pixel Axis 3"; axis := 3 |} ] |} |} in
  let s := image_state (limits_of_Z 0 1 0 1) false [hypercube] in
  linked_by_wcs s = false
  /\ eligible hypercube = true
  /\ @_get_reset_limits no_wcs false s = Throw IndexError
  /\ ~ exists mx my,
         @_get_reset_limits no_wcs false s = Return (fneg half, mx, fneg half, my).
Proof.
  cbv zeta. split; [reflexivity|]. split; [reflexivity|].
  split; [reflexivity|]. intros (mx & my & Hrun). discriminate Hrun.
Qed.

End ImageFacts.


(** ** What the observers of the limits find *)

Module Atomicity.
Import Examples.

(** C9 fails on [_convert_units_x_limits] and on
    [_set_zoom_radius_center]: both assign the limits one at a time,
    outside any [delay_callback] block. Converting the limits 1 and 2
    from nanometres to angstroms, the observers of [x_min] are called
    when [x_min] is 10 and [x_max] is still 2; zooming to radius 1
    around the origin from the limits 0, 10, 0 and 4, the observers of
    [x_min] are called when [x_min] is -1 and the other three limits
    are still 10, 0 and 4. *)
Theorem limits_not_batched :
  (exists w',
     @Profile._convert_units_x_limits nm_angstrom
       (Some "nm"%string) (Some "Angstrom"%string)
       (profile_world (Some 1) (Some 2)) = Done tt w'
     /\ lims (obj w') = Limits (Some (of_Z 10)) (Some (of_Z 20)) None None
     /\ seen w'
        = [ Notified "x_max" (Limits (Some (of_Z 10)) (Some (of_Z 20)) None None);
            Notified "x_min" (Limits (Some (of_Z 10)) (Some (of_Z 2)) None None) ])
  /\ (exists w',
        @Image._set_zoom_radius_center no_wcs keep_aspect 2
          (image_world (limits_of_Z 0 10 0 4) false []) = Done tt w'
        /\ lims (obj w') = limits_of_Z (-1) 1 (-1) 1
        /\ Notified "x_min" (limits_of_Z (-1) 10 0 4) ∈ seen w').
Proof.
  split.
  - eexists. split; [vm_compute; reflexivity|]. split; reflexivity.
  - eexists. split; [vm_compute; reflexivity|]. split; [reflexivity|].
    do 7 apply list_elem_of_further. apply list_elem_of_here.
Qed.

(** The sibling paths do batch: [_reset_x_limits] on the same viewer
    calls the observers once both limits are written, and so does
    [reset_limits] for the four limits of an image viewer. *)
Lemma limits_batched :
  (exists w',
     Profile._reset_x_limits (profile_world (Some 3) (Some 4)) = Done tt w'
     /\ seen w'
        = [ Notified "x_max" (Limits (Some (of_Z 1)) (Some (of_Z 6)) None None);
            Notified "x_min" (Limits (Some (of_Z 1)) (Some (of_Z 6)) None None) ])
  /\ (exists w',
        @Image.reset_limits no_wcs keep_aspect 2
          (image_world (limits_of_Z 0 10 0 4) false [image_layer "a" 20 30])
        = Done tt w'
        /\ forall prop found,
             Notified prop found ∈ seen w' ->
             prop ∈ ["x_min"; "x_max"; "y_min"; "y_max"]%string ->
             found = lims (obj w')).
Proof.
  split.
  - eexists. split; [vm_compute; reflexivity|reflexivity].
  - eexists. split; [vm_compute; reflexivity|].
    intros prop found Hin Hprop. cbn in Hin.
    repeat (apply elem_of_cons in Hin as [Hin|Hin];
            [first [discriminate Hin
                   | injection Hin as -> ->; first [reflexivity
                       | exfalso; clear -Hprop;
                         repeat (apply elem_of_cons in Hprop as [Hprop|Hprop];
                                 [discriminate Hprop|]);
                         now apply elem_of_nil in Hprop ] ]|]).
    now apply elem_of_nil in Hin.
Qed.

End Atomicity.


(** * Further properties *)

(** ** [FreezableState.__setattr__]: errors, frame, first write *)

Module FreezableStateMore.
Import FreezableState FreezableStateFacts.

(** X1: assigning to a frozen public name that the object does not have
    raises AttributeError: [getattr(self, k)] has no default. *)
Theorem setattr_frozen_missing (self : object) (k : string) (v : value) :
  k ≠ "" -> k ∈ _frozen_state self -> (forall rest, k ≠ String "_" rest) ->
  attrs self !! k = None ->
  __setattr__ self k v = Throw AttributeError.
Proof.
  intros Hk Hf Hu Hn. unfold __setattr__. rewrite guard_frozen by assumption.
  unfold getattr. now rewrite Hn.
Qed.

Lemma setattr_frozen_missing_witness :
  __setattr__ (Object ["x_att"] ∅) "x_att" (VStr "flux") = Throw AttributeError.
Proof.
  apply setattr_frozen_missing.
  - discriminate.
  - apply list_elem_of_singleton. reflexivity.
  - discriminate.
  - reflexivity.
Defined.



(** X3: the first value wins. A frozen public name that holds [None]
    takes the first value other than [None] assigned to it, and from
    then on every assignment to it returns the object as it is. *)
Theorem setattr_first_write_wins (self : object) (k : string) (v : value) :
  k ≠ "" -> k ∈ _frozen_state self -> (forall rest, k ≠ String "_" rest) ->
  getattr self k = Return VNone -> v ≠ VNone ->
  exists self1,
    __setattr__ self k v = Return self1
    /\ getattr self1 k = Return v
    /\ forall v', __setattr__ self1 k v' = Return self1.
Proof.
  intros Hk Hf Hu Hn Hv. exists (super_setattr self k v).
  split; [|split].
  - unfold __setattr__. rewrite guard_frozen by assumption. now rewrite Hn.
  - apply getattr_super_setattr.
  - intros v'. unfold __setattr__.
    rewrite guard_frozen by assumption.
    rewrite getattr_super_setattr; simpl. now destruct v.
Qed.

Lemma setattr_first_write_wins_witness :
  exists self1,
    __setattr__ (Object ["x_att"] {["x_att" := VNone]}) "x_att" (VStr "a")
    = Return self1
    /\ getattr self1 "x_att" = Return (VStr "a")
    /\ forall v', __setattr__ self1 "x_att" v' = Return self1.
Proof.
  apply setattr_first_write_wins.
  - discriminate.
  - apply list_elem_of_singleton. reflexivity.
  - discriminate.
  - reflexivity.
  - discriminate.
Defined.

End FreezableStateMore.

(** ** Callback properties: what a block lets the observers see *)

Module EchoMore.
Import RunFacts EchoFacts.

Section Properties.
Context {O : Type} `{HasLimits O}.

Lemma observed_since_refl (w : World O) (l : limits) : observed_since w w l.
Proof. exists []. split; [reflexivity|]. intros ? ? Hin. now apply elem_of_nil in Hin. Qed.

Lemma observed_since_trans (w0 w1 w2 : World O) (l : limits) :
  observed_since w0 w1 l -> observed_since w1 w2 l -> observed_since w0 w2 l.
Proof.
  intros (n1 & E1 & H1) (n2 & E2 & H2). exists (n2 ++ n1). split.
  - now rewrite E2, E1, app_assoc.
  - intros prop found [Hin|Hin]%elem_of_app; eauto.
Qed.

Lemma observed_since_seen (w0 w1 w2 : World O) (l : limits) :
  seen w1 = seen w0 -> observed_since w1 w2 l -> observed_since w0 w2 l.
Proof. intros Hs (n & E & Hn). exists n. now rewrite E, Hs. Qed.

Lemma observed_since_notified (w : World O) (prop : string) :
  observed_since w (record (Notified prop (lims (obj w))) w) (lims (obj w)).
Proof.
  exists [Notified prop (lims (obj w))]. split; [reflexivity|].
  intros p f [= _ <-]%list_elem_of_singleton. reflexivity.
Qed.

Lemma observed_since_entered (w : World O) (c : callback) (l : limits) :
  observed_since w (record (Entered c) w) l.
Proof.
  exists [Entered c]. split; [reflexivity|].
  intros p f Hin%list_elem_of_singleton. discriminate Hin.
Qed.

Lemma delay_leave_obj_seen (p : limit) (w : World O) :
  obj (fst (delay_leave p w)) = obj w /\ seen (fst (delay_leave p w)) = seen w.
Proof.
  unfold delay_leave.
  now destruct (lookup_delay p (delay w)) as [[[|[|n]] old]|].
Qed.

Lemma delay_exit_scan_obj_seen (ps : list limit) (w : World O) :
  obj (fst (delay_exit_scan ps w)) = obj w
  /\ seen (fst (delay_exit_scan ps w)) = seen w.
Proof.
  revert w. induction ps as [|p ps IH]; intros w; simpl; [now split|].
  destruct (delay_leave_obj_seen p w) as [Ho Hs].
  destruct (delay_leave p w) as [w1 due]. simpl in Ho, Hs.
  destruct (IH w1) as [Ho' Hs'].
  destruct (delay_exit_scan ps w1) as [w2 rest]. simpl in *.
  split; congruence.
Qed.

Lemma delay_enter_all_seen (ps : list limit) (w : World O) :
  seen (foldl (fun w p => delay_enter p w) w ps) = seen w.
Proof.
  revert w. induction ps as [|q ps IH]; intros w; simpl; [reflexivity|].
  rewrite IH. unfold delay_enter.
  now destruct (lookup_delay q (delay w)) as [[n old]|].
Qed.

(** Without registered callbacks a round of notifications returns, and
    the observers find the limits as they are. *)
Lemma notify_round_observers call (due : list limit) (w : World O) :
  exists w', for_each due (notify [] call) w = Done tt w'
             /\ obj w' = obj w
             /\ observed_since w w' (lims (obj w)).
Proof.
  revert w. induction due as [|p due IH]; intros w; simpl.
  - exists w. split; [reflexivity|]. split; [reflexivity|apply observed_since_refl].
  - unfold bind. rewrite notify_eq. destruct (enabled p w); simpl.
    + destruct (IH (record (Notified (name p) (lims (obj w))) w))
        as (w' & Hrun & Ho & Hs).
      exists w'. split; [exact Hrun|]. split; [exact Ho|].
      eapply observed_since_trans; [apply observed_since_notified|exact Hs].
    + apply IH.
Qed.

(** The exit of a block of an object without registered callbacks. *)
Lemma delay_exit_observers call (ps : list limit) (w : World O) :
  exists w', delay_exit [] call ps w = Done tt w'
             /\ obj w' = obj w
             /\ observed_since w w' (lims (obj w)).
Proof.
  unfold delay_exit.
  destruct (delay_exit_scan_obj_seen ps w) as [Ho Hs].
  destruct (delay_exit_scan ps w) as [w1 due]. simpl in Ho, Hs.
  destruct (notify_round_observers call due w1) as (w' & Hrun & Ho' & Hs').
  exists w'. split; [exact Hrun|]. split; [congruence|].
  rewrite Ho in Hs'. eapply observed_since_seen; [|exact Hs']. exact Hs.
Qed.

End Properties.

End EchoMore.


(** ** [FreezableProfileViewerState]: further properties *)

Module ProfileMore.
Import RunFacts EchoFacts EchoMore FloatFacts Profile ProfileFacts.

Lemma inf_not_finite (x : float) : x = inf -> isfinite x = false.
Proof. now intros ->. Qed.

(** The three ways [_reset_x_limits] goes. *)
Lemma reset_x_limits_cases (w : World State) :
  (_reset_x_limits w = Done tt w
   /\ (reference_data (obj w) = None \/ x_att_pixel (obj w) = None
       \/ isfinite (fst (reset_x_bounds (layers (obj w))))
          && isfinite (snd (reset_x_bounds (layers (obj w)))) = false))
  \/ (is_Some (reference_data (obj w)) /\ is_Some (x_att_pixel (obj w))
      /\ isfinite (fst (reset_x_bounds (layers (obj w))))
         && isfinite (snd (reset_x_bounds (layers (obj w)))) = true).
Proof.
  destruct (reference_data (obj w)) as [r|] eqn:Hr;
    [|left; split; [|now left]; unfold _reset_x_limits, bind, get; now rewrite Hr].
  destruct (x_att_pixel (obj w)) as [a|] eqn:Ha;
    [|left; split; [|now (right; left)];
      unfold _reset_x_limits, bind, get; now rewrite Hr, Ha].
  destruct (isfinite (fst (reset_x_bounds (layers (obj w))))
            && isfinite (snd (reset_x_bounds (layers (obj w))))) eqn:Hf.
  - right. repeat split; eauto.
  - left. split; [|now (right; right)].
    unfold _reset_x_limits, bind, get. rewrite Hr, Ha.
    destruct (reset_x_bounds _) as [lo hi]. simpl in Hf. now rewrite Hf.
Qed.

(** X4: when no layer gives a profile x-value (its profile raises, is
    [None], or has an empty x array), [_reset_x_limits] leaves the
    state as it is. *)
Theorem reset_x_limits_no_profiles (w : World State) :
  profile_x_values (layers (obj w)) = [] ->
  _reset_x_limits w = Done tt w.
Proof.
  intros Hnone. destruct (reset_x_limits_cases w) as [[Hrun _]|(_ & _ & Hfin)];
    [exact Hrun|].
  destruct (reset_x_bounds_spec (layers (obj w))) as (_ & Hlo & _).
  rewrite Hnone in Hlo. destruct Hlo as [Hlo|Hlo]; [|now apply elem_of_nil in Hlo].
  apply inf_not_finite in Hlo. now rewrite Hlo in Hfin.
Qed.

Lemma reset_x_limits_no_profiles_witness :
  let w := MkWorld
             (MkState (Some "spectrum") (Some "Pixel Axis 0 [x]")
                [ {| visible := true; profile := Throw (Error "IncompatibleData") |};
                  {| visible := true; profile := Return None |};
                  {| visible := true; profile := Return (Some ([], [])) |} ]
                (limits_of_Z 1 2 0 1)) [] [] in
  _reset_x_limits w = Done tt w.
Proof. cbv zeta. apply reset_x_limits_no_profiles. reflexivity. Defined.

(** X5: [_reset_x_limits] never raises, and it either leaves the state
    as it is or ends with finite x-limits in order ([x_max] does not
    compare below [x_min]), the y-limits and everything else being
    kept. *)
Theorem reset_x_limits_finite_ordered (w : World State) :
  exists w',
    _reset_x_limits w = Done tt w'
    /\ (w' = w
        \/ exists lo hi,
             obj w' = with_lims (Limits (Some lo) (Some hi)
                                   (y_min (lims (obj w))) (y_max (lims (obj w))))
                        (obj w)
             /\ isfinite lo = true /\ isfinite hi = true
             /\ flt hi lo = false).
Proof.
  destruct (reset_x_limits_cases w) as [[Hrun _]|(Hr & Ha & Hfin)].
  - exists w. split; [exact Hrun|now left].
  - destruct (reset_x_bounds (layers (obj w))) as [lo hi] eqn:Hb.
    simpl in Hfin.
    destruct (reset_x_limits_finite w lo hi Hr Ha Hb Hfin) as (w' & Hrun & Ho).
    exists w'. split; [exact Hrun|]. right. exists lo, hi.
    apply andb_true_iff in Hfin as [Flo Fhi].
    split; [exact Ho|]. split; [exact Flo|]. split; [exact Fhi|].
    destruct (reset_x_bounds_spec (layers (obj w))) as (_ & Hlo & Hub & _).
    rewrite Hb in Hlo, Hub. simpl in Hlo, Hub.
    destruct Hlo as [->|Hin]; [discriminate Flo|]. now apply Hub.
Qed.

(** X6: [_reset_x_limits] is idempotent: run again on the state it
    left, it returns with the same object. *)
Theorem reset_x_limits_idempotent (w w1 : World State) :
  _reset_x_limits w = Done tt w1 ->
  exists w2, _reset_x_limits w1 = Done tt w2 /\ obj w2 = obj w1.
Proof.
  intros Hrun.
  destruct (reset_x_limits_cases w) as [[Hrun' _]|(Hr & Ha & Hfin)].
  - rewrite Hrun' in Hrun. injection Hrun as <-. now exists w.
  - destruct (reset_x_bounds (layers (obj w))) as [lo hi] eqn:Hb.
    simpl in Hfin.
    destruct (reset_x_limits_finite w lo hi Hr Ha Hb Hfin) as (w' & Hrun' & Ho).
    rewrite Hrun' in Hrun. injection Hrun as <-.
    destruct (reset_x_limits_finite w' lo hi) as (w2 & Hrun2 & Ho2);
      try assumption; try (rewrite Ho; simpl; assumption).
    exists w2. split; [exact Hrun2|]. rewrite Ho2, Ho. reflexivity.
Qed.

Lemma reset_x_limits_idempotent_witness :
  exists w1 w2,
    _reset_x_limits (Examples.profile_world (Some 3) (Some 4)) = Done tt w1
    /\ _reset_x_limits w1 = Done tt w2 /\ obj w2 = obj w1.
Proof.
  eexists.
  destruct (reset_x_limits_idempotent
              (Examples.profile_world (Some 3) (Some 4)) _ eq_refl)
    as (w2 & Hrun & Ho).
  exists w2. split; [reflexivity|]. split; assumption.
Defined.

(** X7: [_reset_x_limits] lets the observers see the limits only as it
    leaves them: every notification it causes finds both new limits. *)
Theorem reset_x_limits_batched (w : World State) :
  exists w', _reset_x_limits w = Done tt w'
             /\ observed_since w w' (lims (obj w')).
Proof.
  destruct (reset_x_limits_cases w) as [[Hrun _]|(Hr & Ha & Hfin)].
  - exists w. split; [exact Hrun|apply observed_since_refl].
  - destruct Hr as [r Hr], Ha as [a Ha].
    destruct (reset_x_bounds (layers (obj w))) as [lo hi] eqn:Hb.
    simpl in Hfin.
    pose (w0 := foldl (fun w p => delay_enter p w) w [X_min; X_max]).
    assert (D0 : enabled X_min w0 = false)
      by (apply enabled_delay_enter_all; left; apply list_elem_of_here).
    assert (D1 : enabled X_max w0 = false)
      by (apply enabled_delay_enter_all; left;
          apply list_elem_of_further, list_elem_of_here).
    unfold _reset_x_limits, bind at 1, get. rewrite Hr, Ha, Hb, Hfin.
    change (negb true) with false. cbv iota.
    unfold delay_callback, bind, modify, finally, set_limit_property.
    change (foldl (fun w p => delay_enter p w) w [X_min; X_max]) with w0.
    rewrite assign_disabled by exact D0.
    rewrite assign_disabled by exact D1.
    set (w1 := stored X_max (Some hi) (stored X_min (Some lo) w0)).
    destruct (delay_exit_observers no_call [X_min; X_max] w1)
      as (w' & Hrun & Ho & Hs).
    exists w'. split; [exact Hrun|]. rewrite Ho.
    eapply observed_since_seen; [|exact Hs].
    exact (delay_enter_all_seen [X_min; X_max] w).
Qed.

Section Conversion.
Context `{UnitConversion}.

(** X8: with both limits and both units set, when the conversion
    returns a non-empty array, [_convert_units_x_limits] stores its
    NaN-ignoring minimum and maximum as the x-limits, in that order
    whatever the order of the converted values, and keeps the rest of
    the state. *)
Theorem convert_units_x_limits_converted (w : World State) (lo hi : float)
    (old new : Unit) (x0 : float) (xs : list float) :
  x_min (lims (obj w)) = Some lo -> x_max (lims (obj w)) = Some hi ->
  spectral_axis_conversion [lo; hi] old new = Return (x0 :: xs) ->
  exists w',
    _convert_units_x_limits (Some old) (Some new) w = Done tt w'
    /\ obj w' = with_lims (Limits (Some (nanmin1 x0 xs)) (Some (nanmax1 x0 xs))
                             (y_min (lims (obj w))) (y_max (lims (obj w))))
                  (obj w)
    /\ flt (nanmax1 x0 xs) (nanmin1 x0 xs) = false.
Proof.
  intros Hlo Hhi Hc.
  unfold _convert_units_x_limits, bind at 1, get. rewrite Hlo, Hhi.
  unfold bind at 1. rewrite Hc. simpl eval. unfold ret at 1.
  unfold bind at 1. simpl nanmin. unfold eval at 1, ret at 1.
  destruct (set_limit_property_obj X_min (Some (nanmin1 x0 xs)) w)
    as (w1 & R1 & O1 & _).
  unfold bind at 1. rewrite R1.
  unfold bind at 1. simpl nanmax. unfold eval at 1, ret at 1.
  destruct (set_limit_property_obj X_max (Some (nanmax1 x0 xs)) w1)
    as (w2 & R2 & O2 & _).
  exists w2. split; [exact R2|]. split.
  - rewrite O2. unfold stored; simpl. rewrite O1. reflexivity.
  - destruct (nanmin1_spec x0 xs) as (_ & _ & Hin).
    destruct (nanmax1_spec x0 xs) as (Hub & _ & _). now apply Hub.
Qed.

(** X9: when the conversion raises, [_convert_units_x_limits] raises the
    same exception and the state is as it was; an empty converted array
    raises ValueError, again with the state as it was. *)
Theorem convert_units_x_limits_error (w : World State) (lo hi : float)
    (old new : Unit) :
  x_min (lims (obj w)) = Some lo -> x_max (lims (obj w)) = Some hi ->
  (forall e, spectral_axis_conversion [lo; hi] old new = Throw e ->
     _convert_units_x_limits (Some old) (Some new) w = Raised e w)
  /\ (spectral_axis_conversion [lo; hi] old new = Return [] ->
      _convert_units_x_limits (Some old) (Some new) w = Raised ValueError w).
Proof.
  intros Hlo Hhi.
  split; [intros e Hc|intros Hc];
    unfold _convert_units_x_limits, bind, get; now rewrite Hlo, Hhi, Hc.
Qed.

End Conversion.

(** X8 on the example viewer: the limits 1 and 2 in nanometres become
    10 and 20 in angstroms. *)
Lemma convert_units_x_limits_converted_witness :
  exists w',
    @_convert_units_x_limits Examples.nm_angstrom
      (Some "nm"%string) (Some "Angstrom"%string)
      (Examples.profile_world (Some 1) (Some 2)) = Done tt w'
    /\ x_min (lims (obj w')) = Some (of_Z 10)
    /\ x_max (lims (obj w')) = Some (of_Z 20).
Proof.
  destruct (@convert_units_x_limits_converted Examples.nm_angstrom
              (Examples.profile_world (Some 1) (Some 2)) (of_Z 1) (of_Z 2)
              "nm"%string "Angstrom"%string (of_Z 10) [of_Z 20])
    as (w' & Hrun & Ho & _); [reflexivity|reflexivity|reflexivity|].
  exists w'. split; [exact Hrun|]. rewrite Ho. split; reflexivity.
Defined.

Lemma convert_units_x_limits_error_witness :
  @_convert_units_x_limits Examples.nm_angstrom
    (Some "nm"%string) (Some "Hz"%string)
    (Examples.profile_world (Some 1) (Some 2))
  = Raised (Error "UnitConversionError")
      (Examples.profile_world (Some 1) (Some 2)).
Proof.
  apply (proj1 (@convert_units_x_limits_error Examples.nm_angstrom
                  (Examples.profile_world (Some 1) (Some 2)) (of_Z 1) (of_Z 2)
                  "nm"%string "Hz"%string eq_refl eq_refl)).
  reflexivity.
Defined.

End ProfileMore.


(** ** [FreezableBqplotImageViewerState]: further properties *)

Module ImageMore.
Import RunFacts EchoFacts EchoMore FloatFacts Image ImageFacts.

Section Callbacks.
Context `{Glue}.

Lemma fabs_not_negative (x : float) : flt (fabs x) (of_Z 0) = false.
Proof. now destruct x. Qed.

(** X10: [_set_axes_lim], on a state that is attached and not in a
    sync, with all four limits set and converted to axes units: the
    zoom radius is half the smaller span, in absolute value, so it never
    compares below zero; the zoom centre is the midpoint of each span;
    the limits and everything that is not a zoom property are kept (the
    sync flag is false again); nothing is raised; [_set_axes_lim] itself
    is not entered a second time. *)
Theorem set_axes_lim_derives_zoom (n : nat) (w : World)
    (x0 x1 y0 y1 a0 a1 b0 b1 : float) :
  _during_zoom_sync (obj w) = false -> has_viewer (obj w) = true ->
  lims (obj w) = Limits (Some x0) (Some x1) (Some y0) (Some y1) ->
  limits_in_axes_units (obj w) x0 x1 y0 y1 = Return (a0, a1, b0, b1) ->
  exists w',
    _set_axes_lim (S (S n)) w = Done tt w'
    /\ zoom_radius (obj w')
       = fabs (fmul half (Py.min (fsub a1 a0) (fsub b1 b0)))
    /\ zoom_center_x (obj w') = fmul half (fadd a1 a0)
    /\ zoom_center_y (obj w') = fmul half (fadd b1 b0)
    /\ flt (zoom_radius (obj w')) (of_Z 0) = false
    /\ lims (obj w') = lims (obj w)
    /\ frame (obj w') = frame (obj w)
    /\ entries SetAxesLim (seen w') = S (entries SetAxesLim (seen w)).
Proof.
  intros Hs Hv Hl Hb.
  destruct (set_axes_lim_spec n w x0 x1 y0 y1 _ Hs Hv Hl Hb)
    as (w' & Hrun & Ho & Hn).
  exists w'. split; [exact Hrun|]. rewrite Ho.
  repeat split; try reflexivity; try exact Hn.
  apply fabs_not_negative.
Qed.

(** X11: before a viewer is attached both callbacks return at once, and
    so does [_set_axes_lim] while one of the four limits is [None]; the
    object is as it was. *)
Theorem callbacks_wait_until_ready (n : nat) (w : World) :
  (has_viewer (obj w) = false ->
   forall c, run_callback (S n) c w = Done tt (record (Entered c) w))
  /\ (x_min (lims (obj w)) = None \/ x_max (lims (obj w)) = None
      \/ y_min (lims (obj w)) = None \/ y_max (lims (obj w)) = None ->
      _set_axes_lim (S n) w = Done tt (record (Entered SetAxesLim) w)).
Proof.
  split.
  - intros Hv c.
    assert (Hg : _during_zoom_sync (obj w) || negb (has_viewer (obj w)) = true)
      by (rewrite Hv; apply orb_true_r).
    destruct c.
    + change (run_callback (S n) SetZoomRadiusCenter w)
        with (_set_zoom_radius_center (S n) w).
      rewrite set_zoom_radius_center_unfold.
      now rewrite set_zoom_radius_center_body_guard.
    + change (run_callback (S n) SetAxesLim w) with (_set_axes_lim (S n) w).
      rewrite set_axes_lim_unfold. now rewrite set_axes_lim_body_guard.
  - intros Hn. rewrite set_axes_lim_unfold.
    now rewrite set_axes_lim_body_unset.
Qed.

(** When linked by WCS, a viewer that is [None], or whose reference
    image has no coordinates, makes both conversions raise
    AttributeError. *)
Lemma reference_wcs_missing (s : State) :
  (_viewer s = Some None
   \/ exists v, _viewer s = Some (Some v) /\ reference_coords v = None) ->
  reference_wcs s = Throw AttributeError.
Proof.
  unfold reference_wcs. intros [->|(v & -> & ->)]; reflexivity.
Qed.

(** X12: an exception of the conversion between world and pixel
    coordinates leaves the callback before the sync is entered: the
    callback raises that exception, the object is as it was, the sync
    flag still false. When the state is linked by WCS and the attached
    viewer is [None] or its reference image has no coordinates, the
    exception is AttributeError. *)
Theorem conversion_error_before_sync (n : nat) (w : World) :
  _during_zoom_sync (obj w) = false -> has_viewer (obj w) = true ->
  (forall e, zoom_in_pixels (obj w) = Throw e ->
     _set_zoom_radius_center (S n) w
     = Raised e (record (Entered SetZoomRadiusCenter) w))
  /\ (forall e x0 x1 y0 y1,
        lims (obj w) = Limits (Some x0) (Some x1) (Some y0) (Some y1) ->
        limits_in_axes_units (obj w) x0 x1 y0 y1 = Throw e ->
        _set_axes_lim (S n) w = Raised e (record (Entered SetAxesLim) w))
  /\ (linked_by_wcs (obj w) = true ->
      (_viewer (obj w) = Some None
       \/ exists v, _viewer (obj w) = Some (Some v) /\ reference_coords v = None) ->
      _set_zoom_radius_center (S n) w
      = Raised AttributeError (record (Entered SetZoomRadiusCenter) w)
      /\ forall x0 x1 y0 y1,
           lims (obj w) = Limits (Some x0) (Some x1) (Some y0) (Some y1) ->
           _set_axes_lim (S n) w
           = Raised AttributeError (record (Entered SetAxesLim) w)).
Proof.
  intros Hs Hv.
  assert (Hg : _during_zoom_sync (obj w) || negb (has_viewer (obj w)) = false)
    by now rewrite Hs, Hv.
  assert (Hzoom : forall e, zoom_in_pixels (obj w) = Throw e ->
            _set_zoom_radius_center (S n) w
            = Raised e (record (Entered SetZoomRadiusCenter) w)).
  { intros e Hz. rewrite set_zoom_radius_center_unfold.
    now apply set_zoom_radius_center_body_throw. }
  assert (Haxes : forall e x0 x1 y0 y1,
            lims (obj w) = Limits (Some x0) (Some x1) (Some y0) (Some y1) ->
            limits_in_axes_units (obj w) x0 x1 y0 y1 = Throw e ->
            _set_axes_lim (S n) w = Raised e (record (Entered SetAxesLim) w)).
  { intros e x0 x1 y0 y1 Hl Hb. rewrite set_axes_lim_unfold.
    now apply (set_axes_lim_body_throw _ _ x0 x1 y0 y1 e). }
  split; [exact Hzoom|]. split; [exact Haxes|].
  intros Hl Hmiss. apply reference_wcs_missing in Hmiss. split.
  - apply Hzoom. unfold zoom_in_pixels. now rewrite Hl, Hmiss.
  - intros x0 x1 y0 y1 Hlims. apply (Haxes _ x0 x1 y0 y1 Hlims).
    unfold limits_in_axes_units. now rewrite Hl, Hmiss.
Qed.

Lemma set_viewer_unfold (n : nat) (v : option Viewer) (w : World) :
  _set_viewer n v w = _set_axes_lim n (with_obj (with_viewer v) w).
Proof. reflexivity. Qed.

(** X13: [_set_viewer] attaches the viewer and derives the zoom from
    the limits that are there: on a state that is not linked by WCS and
    not in a sync, with all four limits set, it ends with the viewer
    attached, the zoom radius half the smaller span and the zoom centre
    the midpoint; while a limit is [None] it attaches the viewer and
    changes nothing else. *)
Theorem set_viewer_derives_zoom (n : nat) (w : World) (v : option Viewer) :
  _during_zoom_sync (obj w) = false -> linked_by_wcs (obj w) = false ->
  (forall x0 x1 y0 y1,
     lims (obj w) = Limits (Some x0) (Some x1) (Some y0) (Some y1) ->
     exists w',
       _set_viewer (S (S n)) v w = Done tt w'
       /\ obj w' = zoom_of_limits (x0, x1, y0, y1) (with_viewer v (obj w))
       /\ _viewer (obj w') = Some v
       /\ zoom_radius (obj w')
          = fabs (fmul half (Py.min (fsub x1 x0) (fsub y1 y0)))
       /\ zoom_center_x (obj w') = fmul half (fadd x1 x0)
       /\ zoom_center_y (obj w') = fmul half (fadd y1 y0))
  /\ (x_min (lims (obj w)) = None \/ x_max (lims (obj w)) = None
      \/ y_min (lims (obj w)) = None \/ y_max (lims (obj w)) = None ->
      exists w',
        _set_viewer (S (S n)) v w = Done tt w'
        /\ obj w' = with_viewer v (obj w)).
Proof.
  intros Hs Hl. split.
  - intros x0 x1 y0 y1 Hlims. rewrite set_viewer_unfold.
    destruct (set_axes_lim_spec n (with_obj (with_viewer v) w) x0 x1 y0 y1
                (x0, x1, y0, y1)) as (w' & Hrun & Ho & _);
      try assumption; try reflexivity.
    { unfold limits_in_axes_units. simpl. now rewrite Hl. }
    exists w'. split; [exact Hrun|]. split; [exact Ho|].
    rewrite Ho. repeat split.
  - intros Hn. rewrite set_viewer_unfold, set_axes_lim_unfold.
    rewrite set_axes_lim_body_unset by exact Hn.
    eexists. split; reflexivity.
Qed.

End Callbacks.

Lemma set_axes_lim_derives_zoom_witness :
  exists w',
    @_set_axes_lim Examples.no_wcs Examples.keep_aspect 2
      (Examples.image_world (limits_of_Z 2 8 1 5) false []) = Done tt w'
    /\ zoom_radius (obj w') = of_Z 2
    /\ zoom_center_x (obj w') = of_Z 5
    /\ zoom_center_y (obj w') = of_Z 3.
Proof.
  destruct (@set_axes_lim_derives_zoom Examples.no_wcs Examples.keep_aspect 0
              (Examples.image_world (limits_of_Z 2 8 1 5) false [])
              (of_Z 2) (of_Z 8) (of_Z 1) (of_Z 5)
              (of_Z 2) (of_Z 8) (of_Z 1) (of_Z 5))
    as (w' & Hrun & Hr & Hx & Hy & _); try reflexivity.
  exists w'. split; [exact Hrun|]. rewrite Hr, Hx, Hy. repeat split.
Defined.

Lemma callbacks_wait_until_ready_witness :
  @_set_axes_lim Examples.no_wcs Examples.keep_aspect 1
    (Examples.image_world (Limits None None None None) false [])
  = Done tt (record (Entered SetAxesLim)
               (Examples.image_world (Limits None None None None) false [])).
Proof.
  apply (proj2 (@callbacks_wait_until_ready Examples.no_wcs Examples.keep_aspect
                  0 (Examples.image_world (Limits None None None None) false []))).
  left. reflexivity.
Defined.

Lemma set_viewer_derives_zoom_witness :
  exists w',
    @_set_viewer Examples.no_wcs Examples.keep_aspect 2
      (Some {| config := "imviz"; reference_coords := None |})
      (MkWorld (MkState (limits_of_Z 2 8 1 5) (of_Z 1) (of_Z 0) (of_Z 0)
                  false false None None [] []) [] [])
    = Done tt w'
    /\ zoom_radius (obj w') = of_Z 2
    /\ zoom_center_x (obj w') = of_Z 5 /\ zoom_center_y (obj w') = of_Z 3
    /\ has_viewer (obj w') = true.
Proof.
  destruct (proj1 (@set_viewer_derives_zoom Examples.no_wcs Examples.keep_aspect 0
              (MkWorld (MkState (limits_of_Z 2 8 1 5) (of_Z 1) (of_Z 0) (of_Z 0)
                          false false None None [] []) [] [])
              (Some {| config := "imviz"; reference_coords := None |})
              eq_refl eq_refl)
              (of_Z 2) (of_Z 8) (of_Z 1) (of_Z 5) eq_refl)
    as (w' & Hrun & Ho & _).
  exists w'. split; [exact Hrun|]. rewrite Ho. repeat split.
Defined.

Lemma conversion_error_before_sync_witness :
  let w := MkWorld (MkState (limits_of_Z 2 8 1 5) (of_Z 1) (of_Z 0) (of_Z 0)
                      true false (Some None) None [] []) [] [] in
  @_set_zoom_radius_center Examples.no_wcs Examples.keep_aspect 1 w
  = Raised AttributeError (record (Entered SetZoomRadiusCenter) w)
  /\ @_set_axes_lim Examples.no_wcs Examples.keep_aspect 1 w
     = Raised AttributeError (record (Entered SetAxesLim) w).
Proof.
  cbv zeta.
  destruct (@conversion_error_before_sync Examples.no_wcs Examples.keep_aspect 0
              (MkWorld (MkState (limits_of_Z 2 8 1 5) (of_Z 1) (of_Z 0) (of_Z 0)
                          true false (Some None) None [] []) [] [])
              eq_refl eq_refl) as (_ & _ & Hw).
  destruct Hw as [Hz Ha]; [reflexivity|left; reflexivity|].
  split; [exact Hz|]. apply (Ha (of_Z 2) (of_Z 8) (of_Z 1) (of_Z 5)). reflexivity.
Defined.


Section ResetLimits.
Context `{Glue}.

(** The second loop does not look past a layer it skips. *)
Lemma pixel_loop_skips (ls : list LayerState) (acc : float * float) :
  fold_outcome pixel_step acc (List.filter eligible ls)
  = fold_outcome pixel_step acc ls.
Proof.
  revert acc. induction ls as [|l ls IH]; intros acc; [reflexivity|].
  simpl. destruct (eligible l) eqn:El; simpl.
  - destruct (pixel_step acc l) as [acc'|e]; simpl; [apply IH|reflexivity].
  - destruct acc as [ax ay]. unfold pixel_step at 2.
    rewrite eligible_not_skipped, El. simpl. apply IH.
Qed.

(** X15: when the state is not linked by WCS, [_get_reset_limits] gives
    the same result, bounds or exception, with the hidden and the
    one-dimensional layers removed: it reads nothing of a layer it
    skips. *)
Theorem get_reset_limits_ignores_skipped (r : bool) (s : State) :
  linked_by_wcs s = false ->
  _get_reset_limits r (with_layers (List.filter eligible (layers s)) s)
  = _get_reset_limits r s.
Proof.
  intros Hl. unfold _get_reset_limits, wcs_limits. simpl. rewrite Hl. simpl.
  unfold pixel_limits. simpl. now rewrite pixel_loop_skips.
Qed.

Lemma index_throws {A} (l : list A) (i : nat) (e : exn) :
  index l i = Throw e -> e = IndexError.
Proof. unfold index. destruct (nth_error l i); [discriminate|]. now intros [= <-]. Qed.

(** The only exception of a turn of the second loop is IndexError. *)
Lemma pixel_step_throws (acc : float * float) (l : LayerState) (e : exn) :
  pixel_step acc l = Throw e -> e = IndexError.
Proof.
  destruct acc as [ax ay]. unfold pixel_step, pixel_id.
  destruct (negb (visible l) || Nat.eqb (ndim (layer l)) 1); [discriminate|].
  destruct (index (List.filter (fun comp => endswith (cid_label comp) "[x]") _) 0)
    as [idx|e1] eqn:E1; simpl;
    [|intros [= ->]; exact (index_throws _ _ _ E1)].
  destruct (index (List.filter (fun comp => endswith (cid_label comp) "[y]") _) 0)
    as [idy|e2] eqn:E2; simpl;
    [|intros [= ->]; exact (index_throws _ _ _ E2)].
  destruct (index (shape (layer l)) (axis idx)) as [nx|e3] eqn:E3; simpl;
    [|intros [= ->]; exact (index_throws _ _ _ E3)].
  destruct (index (shape (layer l)) (axis idy)) as [ny|e4] eqn:E4; simpl;
    [discriminate|intros [= ->]; exact (index_throws _ _ _ E4)].
Qed.

(** A layer that is not skipped and lacks one of the two pixel axes
    stops the second loop. *)
Lemma pixel_step_missing_axis (acc : float * float) (l : LayerState) :
  eligible l = true ->
  (forall v, extent "[x]" l <> Return v) \/ (forall v, extent "[y]" l <> Return v) ->
  pixel_step acc l = Throw IndexError.
Proof.
  intros El Hbad.
  destruct (pixel_step acc l) as [acc'|e] eqn:Hstep;
    [|now rewrite (pixel_step_throws _ _ _ Hstep)].
  exfalso. destruct acc as [ax ay]. unfold pixel_step in Hstep.
  rewrite eligible_not_skipped, El in Hstep. simpl in Hstep.
  unfold extent in Hbad.
  destruct (pixel_id "[x]" _) as [idx|]; [|discriminate Hstep].
  destruct (pixel_id "[y]" _) as [idy|]; [|discriminate Hstep].
  simpl in Hstep, Hbad.
  destruct (index (shape (layer l)) (axis idx)) as [nx|]; [|discriminate Hstep].
  destruct (index (shape (layer l)) (axis idy)) as [ny|]; [|discriminate Hstep].
  simpl in Hbad. destruct Hbad as [Hbad|Hbad]; now eapply Hbad.
Qed.

Lemma pixel_loop_missing_axis (ls : list LayerState) (l : LayerState)
    (acc : float * float) :
  l ∈ ls -> eligible l = true ->
  (forall v, extent "[x]" l <> Return v) \/ (forall v, extent "[y]" l <> Return v) ->
  fold_outcome pixel_step acc ls = Throw IndexError.
Proof.
  intros Hin El Hbad. revert acc.
  induction ls as [|l' ls IH]; intros acc; [now apply elem_of_nil in Hin|].
  simpl. apply elem_of_cons in Hin as [<-|Hin].
  - now rewrite pixel_step_missing_axis.
  - destruct (pixel_step acc l') as [acc'|e] eqn:Hstep; simpl.
    + now apply IH.
    + now rewrite (pixel_step_throws _ _ _ Hstep).
Qed.

(** X16: when the state is not linked by WCS and some visible layer
    that is not one-dimensional has no pixel component labelled [x] or
    [y] indexing its shape (data of four or more dimensions, whose pixel
    labels carry no letter), [_get_reset_limits] raises IndexError, and
    so does [reset_limits] in the Imviz-style configuration with
    reference data, leaving the state as it was. *)
Theorem get_reset_limits_missing_axis (r : bool) (n : nat) (w : World)
    (l : LayerState) :
  linked_by_wcs (obj w) = false ->
  l ∈ layers (obj w) -> eligible l = true ->
  (forall v, extent "[x]" l <> Return v) \/ (forall v, extent "[y]" l <> Return v) ->
  _get_reset_limits r (obj w) = Throw IndexError
  /\ (other_application (obj w) = false -> is_Some (reference_data (obj w)) ->
      reset_limits n w = Raised IndexError w).
Proof.
  intros Hl Hin El Hbad.
  assert (Hget : forall r', _get_reset_limits r' (obj w) = Throw IndexError).
  { intros r'. unfold _get_reset_limits, wcs_limits. rewrite Hl. simpl.
    unfold pixel_limits.
    now rewrite (pixel_loop_missing_axis (layers (obj w)) l _ Hin El Hbad). }
  split; [apply Hget|].
  intros Happ [d Hd]. unfold reset_limits, bind, get.
  now rewrite Happ, Hd, Hget.
Qed.

(** X17: in the Imviz-style configuration, not linked by WCS, a viewer
    whose layers are all hidden or one-dimensional (or that has none)
    keeps its limits under [reset_limits]: the upper bounds stay at
    minus infinity and the update is dropped. *)
Theorem reset_limits_nothing_to_show (n : nat) (w : World) :
  other_application (obj w) = false -> linked_by_wcs (obj w) = false ->
  List.filter eligible (layers (obj w)) = [] ->
  _get_reset_limits false (obj w)
  = Return (fneg half, neg_inf, fneg half, neg_inf)
  /\ reset_limits n w = Done tt w.
Proof.
  intros Happ Hl Hnone.
  assert (Hget : _get_reset_limits false (obj w)
                 = Return (fneg half, neg_inf, fneg half, neg_inf)).
  { unfold _get_reset_limits, wcs_limits. rewrite Hl. simpl.
    unfold pixel_limits. now rewrite <- pixel_loop_skips, Hnone. }
  split; [exact Hget|].
  unfold reset_limits, bind, get. rewrite Happ.
  destruct (reference_data (obj w)); [|reflexivity].
  now rewrite Hget.
Qed.

End ResetLimits.

Lemma get_reset_limits_ignores_skipped_witness :
  let hidden := {| visible := false; layer := layer (Examples.image_layer "b" 90 90) |} in
  @_get_reset_limits Examples.no_wcs false
    (Examples.image_state (limits_of_Z 0 1 0 1) false
       [Examples.image_layer "a" 20 30; hidden])
  = Return (fneg half, fsub (of_Z 30) half, fneg half, fsub (of_Z 20) half).
Proof.
  cbv zeta.
  rewrite <- (@get_reset_limits_ignores_skipped Examples.no_wcs false
                (Examples.image_state (limits_of_Z 0 1 0 1) false
                   [Examples.image_layer "a" 20 30;
                    {| visible := false;
                       layer := layer (Examples.image_layer "b" 90 90) |}])
                eq_refl).
  reflexivity.
Defined.

(** X16 on a viewer with a cube of four dimensions. *)
Lemma get_reset_limits_missing_axis_witness :
  let hypercube :=
    {| visible := true;
       layer := {| label := "c"; shape := [2; 3; 4; 5]; coords := None;
                   pixel_component_ids :=
                     [ {| cid_label := "Pixel Axis 0"; axis := 0 |};
                       {| cid_label := "Pixel Axis 1"; axis := 1 |};
                       {| cid_label := "Pixel Axis 2"; axis := 2 |};
                       {| cid_label := "Pixel Axis 3"; axis := 3 |} ] |} |} in
  let w := Examples.image_world (limits_of_Z 0 1 0 1) false [hypercube] in
  @reset_limits Examples.no_wcs Examples.keep_aspect 2 w = Raised IndexError w.
Proof.
  intros hypercube w.
  refine (proj2 (@get_reset_limits_missing_axis Examples.no_wcs
                   Examples.keep_aspect false 2 w hypercube eq_refl _ eq_refl _)
            eq_refl _).
  - apply list_elem_of_here.
  - left. intros v. discriminate.
  - now eexists.
Defined.

Lemma reset_limits_nothing_to_show_witness :
  let hidden := {| visible := false; layer := layer (Examples.image_layer "b" 90 90) |} in
  let w := Examples.image_world (limits_of_Z 0 1 0 1) false [hidden] in
  @reset_limits Examples.no_wcs Examples.keep_aspect 0 w = Done tt w.
Proof.
  cbv zeta.
  apply (@reset_limits_nothing_to_show Examples.no_wcs Examples.keep_aspect);
    reflexivity.
Defined.

End ImageMore.

(** ** Batches: what the observers find *)

Module EchoBatch.
Import RunFacts EchoFacts EchoMore.

Section Properties.
Context {O : Type} `{HasLimits O}.

Lemma wp_both {A} (m : M (World O) A) (Q1 Q2 : A -> World O -> Prop)
    (E1 E2 : exn -> World O -> Prop) (w : World O) :
  wp m Q1 E1 w -> wp m Q2 E2 w ->
  wp m (fun a w' => Q1 a w' /\ Q2 a w') (fun e w' => E1 e w' /\ E2 e w') w.
Proof. unfold wp. destruct (m w); auto. Qed.

Section Invariant.
Variable registered : list callback.
Variable call : callback -> M (World O) unit.
Variable I : World O -> Prop.
Variable E : exn -> World O -> Prop.
Hypothesis I_stable : stable_here I.
Hypothesis call_keeps :
  forall c w, c ∈ registered -> I w -> wp (call c) (fun _ w' => I w') E w.

Lemma notify_wp_here (p : limit) (w : World O) :
  I w -> wp (notify registered call p) (fun _ w' => I w') E w.
Proof.
  intros Hw. unfold wp. rewrite notify_eq. destruct (enabled p w); [|exact Hw].
  apply (wp_for_each registered call I E).
  - now apply I_stable.
  - intros c w' Hc Hw'. now apply call_keeps.
Qed.

Lemma delay_exit_scan_keeps_here (ps : list limit) (w : World O) :
  I w -> I (fst (delay_exit_scan ps w)).
Proof.
  revert w. induction ps as [|p ps IH]; intros w Hw; simpl; [exact Hw|].
  assert (Hl : I (fst (delay_leave p w))).
  { unfold delay_leave. destruct (lookup_delay p (delay w)) as [[[|[|n]] old]|];
      simpl; try exact Hw; now apply I_stable. }
  destruct (delay_leave p w) as [w1 due]. specialize (IH w1 Hl).
  now destruct (delay_exit_scan ps w1) as [w2 rest].
Qed.

Lemma delay_exit_wp_here (ps : list limit) (w : World O) :
  I w -> wp (delay_exit registered call ps) (fun _ w' => I w') E w.
Proof.
  intros Hw. unfold wp, delay_exit.
  pose proof (delay_exit_scan_keeps_here ps w Hw) as Hs.
  destruct (delay_exit_scan ps w) as [w1 due].
  apply (wp_for_each due (notify registered call) I E); [exact Hs|].
  intros p w' _ Hw'. now apply notify_wp_here.
Qed.

End Invariant.

(** A block whose body, run from the world the block enters, ends in
    [I]: the exit keeps [I]. *)
Lemma delay_callback_wp_here (registered : list callback) call
    (ps : list limit) (body : M (World O) unit) (I : World O -> Prop)
    (w : World O) :
  stable_here I ->
  (forall c w', c ∈ registered -> I w' ->
     wp (call c) (fun _ w'' => I w'') (fun _ w'' => I w'') w') ->
  wp body (fun _ w' => I w') (fun _ w' => I w')
     (foldl (fun w p => delay_enter p w) w ps) ->
  wp (delay_callback registered call ps body)
     (fun _ w' => I w') (fun _ w' => I w') w.
Proof.
  intros SI Hcall Hbody.
  unfold delay_callback. apply wp_bind, wp_modify, wp_finally.
  eapply wp_mono; [exact Hbody| |].
  - intros [] w' Hw'. now apply delay_exit_wp_here.
  - intros e w' Hw'. simpl.
    eapply wp_mono;
      [apply (delay_exit_wp_here registered call I (fun _ w'' => I w'')
                SI Hcall ps w' Hw')
      |auto|auto].
Qed.

End Properties.

End EchoBatch.


(** ** [reset_limits]: what it writes and what the observers find *)

Module ImageBatch.
Import RunFacts EchoFacts EchoMore EchoBatch Image ImageFacts.

Section Batch.
Context `{Glue}.

Lemma stable_here_kept (w0 : World) (l : limits) (f : State -> Prop) :
  stable_here (kept w0 l f).
Proof.
  split.
  - intros w prop (Hl & Hf & Ho). split; [exact Hl|]. split; [exact Hf|].
    eapply observed_since_trans; [exact Ho|].
    rewrite <- Hl. apply (observed_since_notified w prop).
  - intros w d Hk. exact Hk.
Qed.

Lemma four_assignments_delayed_eq call (v0 v1 v2 v3 : option float) (w : World) :
  (forall p, enabled p w = false) ->
  (set_limit_property call X_min v0 ;!
   set_limit_property call X_max v1 ;!
   set_limit_property call Y_min v2 ;!
   set_limit_property call Y_max v3) w
  = Done tt (stored Y_max v3 (stored Y_min v2 (stored X_max v1 (stored X_min v0 w)))).
Proof.
  intros Hall. unfold set_limit_property, bind.
  rewrite assign_disabled by apply Hall.
  rewrite assign_disabled by exact (Hall _).
  rewrite assign_disabled by exact (Hall _).
  rewrite assign_disabled by exact (Hall _).
  reflexivity.
Qed.

(** A zoom property assigned during a sync: its observers find the
    limits as they are. *)
Lemma set_zoom_property_observed call (w0 : World) (l : limits) (z : zoom)
    (v : float) (w : World) :
  quiet call ->
  _during_zoom_sync (obj w) = true -> lims (obj w) = l ->
  observed_since w0 w l ->
  wp (set_zoom_property call z v)
     (fun _ w' => _during_zoom_sync (obj w') = true /\ lims (obj w') = l
                  /\ observed_since w0 w' l)
     (fun _ _ => False) w.
Proof.
  intros Hq Hs Hl (new & Hseen & Hnew). unfold wp. rewrite set_zoom_property_eq.
  destruct (negb (feq _ v)).
  - simpl. unfold bind. rewrite Hq by exact Hs. unfold ret.
    split; [exact Hs|]. split; [exact Hl|].
    exists (Entered SetZoomRadiusCenter
            :: Notified (zoom_name z) (lims (obj w)) :: new).
    split; [simpl; now rewrite Hseen|].
    intros prop found Hin.
    apply elem_of_cons in Hin as [Hin|Hin]; [discriminate Hin|].
    apply elem_of_cons in Hin as [[= _ ->]|Hin]; [exact Hl|]. now apply (Hnew prop).
  - split; [exact Hs|]. split; [exact Hl|]. now exists new.
Qed.

(** The observers that the body of [_set_axes_lim] calls find the
    limits as they were at its start. *)
Lemma set_axes_lim_body_observed call (w : World) :
  quiet call ->
  wp (_set_axes_lim_body call)
     (fun _ w' => observed_since w w' (lims (obj w)))
     (fun _ w' => observed_since w w' (lims (obj w))) w.
Proof.
  intros Hq. unfold _set_axes_lim_body. apply wp_bind, wp_get.
  destruct (_during_zoom_sync (obj w) || negb (has_viewer (obj w)));
    [apply wp_ret, observed_since_refl|].
  destruct (x_min (lims (obj w))) as [x0|]; [|apply wp_ret, observed_since_refl].
  destruct (x_max (lims (obj w))) as [x1|]; [|apply wp_ret, observed_since_refl].
  destruct (y_min (lims (obj w))) as [y0|]; [|apply wp_ret, observed_since_refl].
  destruct (y_max (lims (obj w))) as [y1|]; [|apply wp_ret, observed_since_refl].
  apply wp_bind, wp_eval.
  destruct (limits_in_axes_units (obj w) x0 x1 y0 y1) as [[[[a0 a1] b0] b1]|e];
    [|apply observed_since_refl].
  unfold during_zoom_sync. apply wp_bind, wp_set_during_zoom_sync, wp_finally.
  apply wp_bind.
  eapply wp_mono;
    [apply (set_zoom_property_observed call w (lims (obj w)) Zoom_radius);
     [exact Hq|reflexivity|reflexivity|apply (observed_since_refl w)]
    | |intros ? ? []].
  intros [] w1 (S1 & L1 & O1). apply wp_bind.
  eapply wp_mono;
    [apply (set_zoom_property_observed call w (lims (obj w)) Zoom_center_x);
     [exact Hq|exact S1|exact L1|exact O1]
    | |intros ? ? []].
  intros [] w2 (S2 & L2 & O2).
  eapply wp_mono;
    [apply (set_zoom_property_observed call w (lims (obj w)) Zoom_center_y);
     [exact Hq|exact S2|exact L2|exact O2]
    | |intros ? ? []].
  intros [] w3 (S3 & L3 & O3). apply wp_set_during_zoom_sync. exact O3.
Qed.

(** [_set_axes_lim] writes zoom properties only. *)
Lemma set_axes_lim_keeps_frame (n : nat) (c : callback) (w : World) :
  c ∈ on_limit ->
  wp (run_callback (S (S n)) c)
     (fun _ w' => lims (obj w') = lims (obj w) /\ frame (obj w') = frame (obj w))
     (fun _ w' => lims (obj w') = lims (obj w) /\ frame (obj w') = frame (obj w))
     w.
Proof.
  intros ->%list_elem_of_singleton. unfold wp.
  change (run_callback (S (S n)) SetAxesLim w) with (_set_axes_lim (S (S n)) w).
  destruct (_during_zoom_sync (obj w) || negb (has_viewer (obj w))) eqn:Hg.
  - rewrite set_axes_lim_unfold, set_axes_lim_body_guard by exact Hg. now split.
  - destruct (x_min (lims (obj w))) as [x0|] eqn:E0;
      [|rewrite set_axes_lim_unfold, set_axes_lim_body_unset; [now split|auto]].
    destruct (x_max (lims (obj w))) as [x1|] eqn:E1;
      [|rewrite set_axes_lim_unfold, set_axes_lim_body_unset; [now split|auto]].
    destruct (y_min (lims (obj w))) as [y0|] eqn:E2;
      [|rewrite set_axes_lim_unfold, set_axes_lim_body_unset; [now split|auto]].
    destruct (y_max (lims (obj w))) as [y1|] eqn:E3;
      [|rewrite set_axes_lim_unfold, set_axes_lim_body_unset; [now split|auto]].
    assert (Hlims : lims (obj w) = Limits (Some x0) (Some x1) (Some y0) (Some y1))
      by (destruct (lims (obj w)); simpl in *; congruence).
    destruct (limits_in_axes_units (obj w) x0 x1 y0 y1) as [b|e] eqn:Hb.
    + pose proof Hg as Hg'.
      apply orb_false_iff in Hg' as [Hs Hv]. apply negb_false_iff in Hv.
      destruct (set_axes_lim_spec n w x0 x1 y0 y1 b Hs Hv Hlims Hb)
        as (w' & -> & Ho & _).
      rewrite Ho. destruct b as [[[a0 a1] b0] b1]. now split.
    + rewrite set_axes_lim_unfold.
      rewrite (set_axes_lim_body_throw _ _ x0 x1 y0 y1 e);
        [|exact Hg|exact Hlims|exact Hb].
      now split.
Qed.

Lemma set_axes_lim_kept (n : nat) (w0 : World) (l : limits) (c : callback)
    (w : World) :
  c ∈ on_limit ->
  kept w0 l (fun o => frame o = frame (obj w0)) w ->
  wp (run_callback (S (S n)) c)
     (fun _ w' => kept w0 l (fun o => frame o = frame (obj w0)) w')
     (fun _ w' => kept w0 l (fun o => frame o = frame (obj w0)) w') w.
Proof.
  intros Hc (Hl & Hf & Ho).
  pose proof (set_axes_lim_keeps_frame n c w Hc) as Hframe.
  apply list_elem_of_singleton in Hc. subst c.
  pose proof (set_axes_lim_body_observed (run_callback (S n))
                (record (Entered SetAxesLim) w) (run_callback_quiet n)) as Hobs.
  change (wp (run_callback (S (S n)) SetAxesLim)
            (fun _ w' => observed_since (record (Entered SetAxesLim) w) w'
                           (lims (obj w)))
            (fun _ w' => observed_since (record (Entered SetAxesLim) w) w'
                           (lims (obj w))) w) in Hobs.
  pose proof (wp_both _ _ _ _ _ _ Hframe Hobs) as Hboth.
  eapply wp_mono; [exact Hboth| |];
    intros ? w' [[Hl' Hf'] Ho']; (split; [congruence|]); (split; [congruence|]);
    (eapply observed_since_trans; [exact Ho|]);
    (eapply observed_since_trans; [apply observed_since_entered|]);
    rewrite <- Hl; exact Ho'.
Qed.

(** The aspect adjustment, run before any observer was called. *)
Lemma adjust_limits_aspect_kept (n : nat) (w0 w : World) :
  seen w = seen w0 -> frame (obj w) = frame (obj w0) ->
  wp (_adjust_limits_aspect (run_callback (S (S n))))
     (fun _ w' => kept w0 (adjusted (lims (obj w)))
                    (fun o => frame o = frame (obj w0)) w')
     (fun _ w' => kept w0 (adjusted (lims (obj w)))
                    (fun o => frame o = frame (obj w0)) w') w.
Proof.
  intros Hseen Hframe.
  assert (Hnow : forall l, observed_since w0 w l).
  { intros l. eapply observed_since_seen; [exact Hseen|].
    apply observed_since_refl. }
  unfold _adjust_limits_aspect. apply wp_bind, wp_get. unfold adjusted.
  destruct (adjust_limits_aspect (lims (obj w))) as [|l|e] eqn:Ha.
  - apply wp_ret. split; [reflexivity|]. split; [exact Hframe|apply Hnow].
  - apply (delay_callback_wp_here on_limit (run_callback (S (S n))) all_limits _
             (kept w0 l (fun o => frame o = frame (obj w0)))).
    + apply stable_here_kept.
    + intros c w' Hc Hw'. now apply set_axes_lim_kept.
    + unfold wp.
      rewrite (four_assignments_delayed_eq (run_callback (S (S n)))
                 (x_min l) (x_max l) (y_min l) (y_max l) _ (all_limits_disabled w)).
      pose proof (obj_delay_enter_all all_limits w) as Hobj.
      pose proof (delay_enter_all_seen all_limits w) as Hsn.
      set (we := foldl (fun w p => delay_enter p w) w all_limits) in *. clearbody we.
      split; [|split].
      * simpl. now destruct l.
      * simpl. rewrite <- Hframe, <- Hobj. reflexivity.
      * exists []. split; [|intros ? ? Hin; now apply elem_of_nil in Hin].
        simpl. congruence.
  - apply wp_raise. split; [reflexivity|]. split; [exact Hframe|apply Hnow].
Qed.

Lemma reset_limits_kept (n : nat) (w : World) (b : float * float * float * float) :
  other_application (obj w) = false ->
  is_Some (reference_data (obj w)) ->
  _get_reset_limits false (obj w) = Return b ->
  any_not_finite b = false ->
  wp (reset_limits (S (S n)))
     (fun _ w' => kept w (adjusted (box_limits b))
                    (fun o => frame o = frame (obj w)) w')
     (fun _ w' => kept w (adjusted (box_limits b))
                    (fun o => frame o = frame (obj w)) w') w.
Proof.
  intros Happ [d Hd] Hb Hfin.
  unfold reset_limits. apply wp_bind, wp_get. rewrite Happ, Hd.
  apply wp_bind, wp_eval. rewrite Hb, Hfin.
  apply (delay_callback_wp_here on_limit (run_callback (S (S n))) all_limits _
           (kept w (adjusted (box_limits b)) (fun o => frame o = frame (obj w)))).
  - apply stable_here_kept.
  - intros c w' Hc Hw'. now apply set_axes_lim_kept.
  - apply wp_bind. destruct b as [[[x0 x1] y0] y1]. unfold set_four_limits.
    unfold wp at 1.
    rewrite (four_assignments_delayed_eq (run_callback (S (S n)))
               (Some x0) (Some x1) (Some y0) (Some y1) _ (all_limits_disabled w)).
    pose proof (obj_delay_enter_all all_limits w) as Hobj.
    pose proof (delay_enter_all_seen all_limits w) as Hsn.
    set (we := foldl (fun w p => delay_enter p w) w all_limits) in *. clearbody we.
    set (w1 := stored Y_max _ _).
    assert (Hl1 : lims (obj w1) = box_limits (x0, x1, y0, y1)) by reflexivity.
    rewrite <- Hl1.
    apply adjust_limits_aspect_kept.
    + subst w1. simpl. exact Hsn.
    + subst w1. simpl. rewrite <- Hobj. reflexivity.
Qed.

(** X18: in the Imviz-style configuration, with reference data and
    finite bounds, [reset_limits] writes limits and zoom properties
    only: [linked_by_wcs], the sync flag, the viewer, the reference
    data, the layers and the data collection are as they were, whether
    the run returns or raises. *)
Theorem reset_limits_keeps_frame (n : nat) (w : World)
    (b : float * float * float * float) :
  other_application (obj w) = false ->
  is_Some (reference_data (obj w)) ->
  _get_reset_limits false (obj w) = Return b ->
  any_not_finite b = false ->
  exists w', final (reset_limits (S (S n)) w) = Some w'
             /\ frame (obj w') = frame (obj w).
Proof.
  intros Happ Hd Hb Hfin.
  destruct (wp_final _ _ _ (reset_limits_kept n w b Happ Hd Hb Hfin))
    as (w' & Hrun & _ & Hf & _).
  now exists w'.
Qed.

(** X19: under the same conditions [reset_limits] shows the observers
    the limits only as it leaves them: every notification it causes, of
    a limit or of a zoom property, finds the four final limits. *)
Theorem reset_limits_batched (n : nat) (w : World)
    (b : float * float * float * float) :
  other_application (obj w) = false ->
  is_Some (reference_data (obj w)) ->
  _get_reset_limits false (obj w) = Return b ->
  any_not_finite b = false ->
  exists w', final (reset_limits (S (S n)) w) = Some w'
             /\ observed_since w w' (lims (obj w')).
Proof.
  intros Happ Hd Hb Hfin.
  destruct (wp_final _ _ _ (reset_limits_kept n w b Happ Hd Hb Hfin))
    as (w' & Hrun & Hl & _ & Ho).
  exists w'. split; [exact Hrun|]. now rewrite Hl.
Qed.

End Batch.

Lemma reset_limits_keeps_frame_witness :
  exists w',
    final (@reset_limits Examples.no_wcs Examples.keep_aspect 2
             (Examples.image_world (limits_of_Z 0 10 0 4) false
                [Examples.image_layer "a" 20 30])) = Some w'
    /\ _during_zoom_sync (obj w') = false
    /\ layers (obj w') = [Examples.image_layer "a" 20 30].
Proof.
  destruct (@reset_limits_keeps_frame Examples.no_wcs Examples.keep_aspect 0
              (Examples.image_world (limits_of_Z 0 10 0 4) false
                 [Examples.image_layer "a" 20 30])
              (fneg half, fsub (of_Z 30) half, fneg half, fsub (of_Z 20) half))
    as (w' & Hrun & Hf); [reflexivity|now eexists|reflexivity|reflexivity|].
  exists w'. split; [exact Hrun|].
  unfold frame in Hf. injection Hf as _ Hs _ _ Hl _. now split.
Defined.

Lemma reset_limits_batched_witness :
  exists w',
    final (@reset_limits Examples.no_wcs Examples.keep_aspect 2
             (Examples.image_world (limits_of_Z 0 10 0 4) false
                [Examples.image_layer "a" 20 30])) = Some w'
    /\ observed_since
         (Examples.image_world (limits_of_Z 0 10 0 4) false
            [Examples.image_layer "a" 20 30]) w' (lims (obj w')).
Proof.
  apply (@reset_limits_batched Examples.no_wcs Examples.keep_aspect 0
           (Examples.image_world (limits_of_Z 0 10 0 4) false
              [Examples.image_layer "a" 20 30])
           (fneg half, fsub (of_Z 30) half, fneg half, fsub (of_Z 20) half));
    [reflexivity|now eexists|reflexivity|reflexivity].
Defined.

End ImageBatch.


(** ** [_get_reset_limits]: the layers it reads *)

Module ImageLayers.
Import Image ImageFacts.

Section Layers.
Context `{WCS}.

(** Neither loop looks past a hidden layer. *)
Lemma wcs_loop_hidden (r : bool) (s : State) (ref_coords : wcs)
    (ls : list LayerState) (acc : float * float * float * float * bool) :
  fold_outcome (wcs_step r s ref_coords) acc (List.filter visible ls)
  = fold_outcome (wcs_step r s ref_coords) acc ls.
Proof.
  revert acc. induction ls as [|l ls IH]; intros acc; [reflexivity|].
  simpl. destruct (visible l) eqn:Hv; simpl.
  - destruct (wcs_step r s ref_coords acc l) as [acc'|e]; simpl;
      [apply IH|reflexivity].
  - destruct acc as [[[[x0 x1] y0] y1] ok]. unfold wcs_step at 2.
    rewrite Hv. simpl. apply IH.
Qed.

Lemma pixel_loop_hidden (ls : list LayerState) (acc : float * float) :
  fold_outcome pixel_step acc (List.filter visible ls)
  = fold_outcome pixel_step acc ls.
Proof.
  revert acc. induction ls as [|l ls IH]; intros acc; [reflexivity|].
  simpl. destruct (visible l) eqn:Hv; simpl.
  - destruct (pixel_step acc l) as [acc'|e]; simpl; [apply IH|reflexivity].
  - destruct acc as [ax ay]. unfold pixel_step at 2.
    rewrite Hv. simpl. apply IH.
Qed.

(** X20: [_get_reset_limits] gives the same result, bounds or exception,
    with the hidden layers removed, whether the state is linked by WCS
    or not and whichever coordinates are asked for: a hidden layer is
    not looked up in the data collection and none of its coordinates or
    of its shape is read. *)
Theorem get_reset_limits_ignores_hidden (r : bool) (s : State) :
  _get_reset_limits r (with_layers (List.filter visible (layers s)) s)
  = _get_reset_limits r s.
Proof.
  unfold _get_reset_limits, wcs_limits, pixel_limits, reference_data_coords.
  simpl. rewrite pixel_loop_hidden.
  destruct (linked_by_wcs s); [|reflexivity].
  destruct (reference_data s) as [d|]; [|reflexivity]. simpl.
  destruct (coords d) as [rc|]; [|reflexivity].
  change (wcs_step r (with_layers (List.filter visible (layers s)) s) rc)
    with (wcs_step r s rc).
  now rewrite wcs_loop_hidden.
Qed.

(** X21: when the state is linked by WCS and the reference data has
    coordinates, a first visible layer whose data label no dataset of
    the data collection carries makes [_get_reset_limits] raise
    StopIteration: the [next] of the lookup has no default. *)
Theorem get_reset_limits_unknown_layer (r : bool) (s : State) (d : Data)
    (rc : wcs) (l : LayerState) (ls : list LayerState) :
  linked_by_wcs s = true ->
  reference_data s = Some d -> coords d = Some rc ->
  List.filter visible (layers s) = l :: ls ->
  (forall d', d' ∈ data_collection s -> label d' <> label (layer l)) ->
  _get_reset_limits r s = Throw StopIteration.
Proof.
  intros Hlink Hd Hrc Hls Hnone.
  assert (Hv : visible l = true).
  { assert (Hin : l ∈ List.filter visible (layers s))
      by (rewrite Hls; apply list_elem_of_here).
    apply list_elem_of_In, filter_In in Hin. apply Hin. }
  assert (Hfind : data_by_label (data_collection s) (label (layer l))
                  = Throw StopIteration).
  { unfold data_by_label.
    destruct (List.find _ (data_collection s)) as [d'|] eqn:Hf; [|reflexivity].
    apply find_some in Hf as [Hin Heq]. apply String.eqb_eq in Heq.
    destruct (Hnone d'); [now apply list_elem_of_In|exact Heq]. }
  unfold _get_reset_limits, wcs_limits, reference_data_coords.
  rewrite Hlink, Hd. simpl. rewrite Hrc.
  rewrite <- wcs_loop_hidden, Hls. simpl. unfold wcs_step at 1.
  rewrite Hv, Hfind. reflexivity.
Qed.

End Layers.

(** X21 on a viewer linked by WCS whose only layer shows data that is
    not in the data collection. *)
Lemma get_reset_limits_unknown_layer_witness :
  let image (lbl : string) : @Data Examples.shift_wcs :=
    @Build_Data Examples.shift_wcs lbl [20; 30]%Z (Some 0%Z)
      [ {| cid_label := "Pixel Axis 0 [y]"; axis := 0 |};
        {| cid_label := "Pixel Axis 1 [x]"; axis := 1 |} ] in
  @_get_reset_limits Examples.shift_wcs false
    (MkState (limits_of_Z 0 1 0 1) (of_Z 1) (of_Z 0) (of_Z 0) true false None
       (Some (image "ref")) [ {| visible := true; layer := image "a" |} ]
       [image "ref"])
  = Throw StopIteration.
Proof.
  intros image.
  apply (@get_reset_limits_unknown_layer Examples.shift_wcs false _
           (image "ref") 0%Z {| visible := true; layer := image "a" |} []);
    try reflexivity.
  intros d' Hin. apply list_elem_of_singleton in Hin. subst d'. discriminate.
Defined.

End ImageLayers.


(** ** [_set_zoom_radius_center] with the callbacks of the base class *)

Module AspectFacts.
Import RunFacts EchoFacts EchoMore Image ImageFacts.

Section Blind.
Context `{Aspect.Callbacks}.
Variable r : float.
Variable call : bool -> callback -> M World unit.
Hypothesis call_quiet : forall b, quiet (call b).

#[local] Abbreviation F := (Aspect.with_radius r).

Lemma blind_ret : Aspect.blind r (ret tt).
Proof. intros w Hs. now split. Qed.

Lemma blind_raise (e : exn) : Aspect.blind r (raise e).
Proof. intros w Hs. now split. Qed.

Lemma blind_bind (m k : M World unit) :
  Aspect.blind r m -> Aspect.blind r k -> Aspect.blind r (m ;! k).
Proof.
  intros Hm Hk w Hs. destruct (Hm w Hs) as [Em Wm].
  unfold wp, bind in *. rewrite Em.
  destruct (m w) as [[] w1|e w1|]; simpl.
  - exact (Hk w1 Wm).
  - now split.
  - destruct Wm.
Qed.

Lemma blind_finally (body cleanup : M World unit) :
  Aspect.blind r body -> Aspect.blind r cleanup ->
  Aspect.blind r (finally body cleanup).
Proof.
  intros Hb Hc w Hs. destruct (Hb w Hs) as [Eb Wb].
  unfold wp, finally, bind in *. rewrite Eb.
  destruct (body w) as [[] w1|e w1|]; simpl.
  - exact (Hc w1 Wb).
  - destruct (Hc w1 Wb) as [Ec Wc]. rewrite Ec.
    unfold wp in Wc. destruct (cleanup w1) as [[] w2|e2 w2|]; simpl;
      [now split|now split|destruct Wc].
  - destruct Wb.
Qed.

Lemma blind_for_each {X} (xs : list X) (body : X -> M World unit) :
  (forall x, Aspect.blind r (body x)) -> Aspect.blind r (for_each xs body).
Proof.
  intros Hb. induction xs as [|x xs IH]; simpl; [apply blind_ret|].
  apply blind_bind; [apply Hb|exact IH].
Qed.

Lemma blind_call (b : bool) (c : callback) : Aspect.blind r (call b c).
Proof.
  intros w Hs. unfold wp.
  rewrite (call_quiet b c w Hs), (call_quiet b c (F w) Hs). now split.
Qed.

Lemma blind_notify (b : bool) (p : limit) :
  Aspect.blind r (notify on_limit (call b) p).
Proof.
  intros w Hs. unfold wp. rewrite !notify_eq.
  change (enabled p (F w)) with (enabled p w).
  destruct (enabled p w); [|now split].
  exact (blind_for_each on_limit (call b) (blind_call b)
           (record (Notified (name p) (lims (obj w))) w) Hs).
Qed.

Lemma stored_with_radius (p : limit) (v : option float) (w : World) :
  stored p v (F w) = F (stored p v w).
Proof. now destruct p. Qed.

Lemma stored_during_zoom_sync (p : limit) (v : option float) (w : World) :
  _during_zoom_sync (obj (stored p v w)) = _during_zoom_sync (obj w).
Proof. now destruct p. Qed.

Lemma blind_assign (b : bool) (p : limit) (v : option float) :
  Aspect.blind r (Image.set_limit_property (call b) p v).
Proof.
  intros w Hs. unfold Image.set_limit_property, wp. rewrite !assign_eq.
  change (lims (obj (F w))) with (lims (obj w)).
  rewrite stored_with_radius.
  assert (Hs' : _during_zoom_sync (obj (stored p v w)) = true)
    by now rewrite stored_during_zoom_sync.
  destruct (Py.ne _ v); [|now split].
  exact (blind_notify b p (stored p v w) Hs').
Qed.

Lemma delay_enter_with_radius (ps : list limit) (w : World) :
  foldl (fun w p => delay_enter p w) (F w) ps
  = F (foldl (fun w p => delay_enter p w) w ps).
Proof.
  revert w. induction ps as [|p ps IH]; intros w; simpl; [reflexivity|].
  rewrite <- IH. f_equal. unfold delay_enter.
  change (delay (F w)) with (delay w).
  now destruct (lookup_delay p (delay w)) as [[n old]|].
Qed.

Lemma delay_exit_scan_with_radius (ps : list limit) (w : World) :
  delay_exit_scan ps (F w)
  = (F (fst (delay_exit_scan ps w)), snd (delay_exit_scan ps w)).
Proof.
  revert w. induction ps as [|p ps IH]; intros w; simpl; [reflexivity|].
  assert (Hl : delay_leave p (F w)
               = (F (fst (delay_leave p w)), snd (delay_leave p w))).
  { unfold delay_leave. change (delay (F w)) with (delay w).
    now destruct (lookup_delay p (delay w)) as [[[|[|n]] old]|]. }
  rewrite Hl. destruct (delay_leave p w) as [w1 due]. simpl.
  rewrite IH. now destruct (delay_exit_scan ps w1) as [w2 rest].
Qed.

Lemma blind_delay_callback (b : bool) (ps : list limit) (body : M World unit) :
  Aspect.blind r body ->
  Aspect.blind r (delay_callback on_limit (call b) ps body).
Proof.
  intros Hb. unfold delay_callback. apply blind_bind; [|apply blind_finally].
  - intros w Hs. unfold wp, modify. rewrite delay_enter_with_radius.
    split; [reflexivity|]. now rewrite obj_delay_enter_all.
  - exact Hb.
  - intros w Hs. unfold wp, delay_exit. rewrite delay_exit_scan_with_radius.
    pose proof (proj1 (delay_exit_scan_obj_seen ps w)) as Ho.
    destruct (delay_exit_scan ps w) as [w1 due]. simpl in Ho |- *.
    apply (blind_for_each due _ (blind_notify b)). now rewrite Ho.
Qed.

Lemma delay_callback_eq (registered : list callback)
    (run : callback -> M World unit) (ps : list limit) (body : M World unit)
    (w : World) :
  delay_callback registered run ps body w
  = finally body (delay_exit registered run ps)
      (foldl (fun w p => delay_enter p w) w ps).
Proof. reflexivity. Qed.

Lemma adjust_limits_aspect_eq (action : limits -> aspect_action)
    (run : callback -> M World unit) (w : World) :
  Aspect._adjust_limits_aspect false action run w =
  match action (lims (obj w)) with
  | AspectKeep => Done tt w
  | AspectRaise e => Raised e w
  | AspectSet l =>
      delay_callback on_limit run all_limits
        (Image.set_limit_property run X_min (x_min l) ;!
         Image.set_limit_property run X_max (x_max l) ;!
         Image.set_limit_property run Y_min (y_min l) ;!
         Image.set_limit_property run Y_max (y_max l)) w
  end.
Proof.
  unfold Aspect._adjust_limits_aspect. unfold bind at 1. unfold get.
  cbv beta iota. now destruct (action (lims (obj w))).
Qed.

Lemma blind_adjust_limits_aspect (running : bool)
    (action : limits -> aspect_action) :
  Aspect.blind r (Aspect._adjust_limits_aspect running action (call true)).
Proof.
  destruct running; [apply blind_ret|].
  intros w Hs. unfold wp. rewrite !adjust_limits_aspect_eq.
  change (lims (obj (F w))) with (lims (obj w)).
  destruct (action (lims (obj w))) as [|l|e].
  - now split.
  - apply blind_delay_callback; [|exact Hs].
    repeat apply blind_bind; apply blind_assign.
  - now split.
Qed.

Lemma notify_others_eq (run : callback -> M World unit) (p : limit)
    (w : World) :
  Aspect.notify_others run p w
  = for_each on_limit run (record (Notified (name p) (lims (obj w))) w).
Proof. reflexivity. Qed.

(** No limit is frozen: the assignment stores, and when the value
    differs and the property is not delayed it runs the callbacks. *)
Lemma set_limit_property_eq (running : bool)
    (run : bool -> callback -> M World unit) (p : limit) (v : option float)
    (w : World) :
  Aspect.set_limit_property running run p v w =
  if Py.ne (get_limit p (lims (obj w))) v && enabled p w then
    (Aspect._adjust_limits_aspect running (Aspect.on_assignment p) (run true) ;!
     Aspect.notify_others (run running) p) (stored p v w)
  else Done tt (stored p v w).
Proof.
  unfold Aspect.set_limit_property. unfold bind at 1 2 3. unfold get, modify.
  destruct p; simpl; (destruct (Py.ne _ v); simpl; [|reflexivity]);
    unfold bind at 1; unfold get; cbv beta iota;
    match goal with
    | |- context [enabled ?q (stored ?q v w)] =>
        change (enabled q (stored q v w)) with (enabled q w);
        now destruct (enabled q w)
    end.
Qed.

Lemma blind_notify_others (b : bool) (p : limit) :
  Aspect.blind r (Aspect.notify_others (call b) p).
Proof.
  intros w Hs. unfold wp. rewrite !notify_others_eq.
  exact (blind_for_each on_limit (call b) (blind_call b)
           (record (Notified (name p) (lims (obj w))) w) Hs).
Qed.

Lemma blind_set_limit_property (running : bool) (p : limit)
    (v : option float) :
  Aspect.blind r (Aspect.set_limit_property running call p v).
Proof.
  intros w Hs. unfold wp. rewrite !set_limit_property_eq.
  change (lims (obj (F w))) with (lims (obj w)).
  change (enabled p (F w)) with (enabled p w).
  rewrite stored_with_radius.
  assert (Hs' : _during_zoom_sync (obj (stored p v w)) = true)
    by now rewrite stored_during_zoom_sync.
  destruct (Py.ne _ v && enabled p w); [|now split].
  exact (blind_bind _ _
           (blind_adjust_limits_aspect running (Aspect.on_assignment p))
           (blind_notify_others running p) (stored p v w) Hs').
Qed.

(** Lines 166 to 172, inside the sync. *)
Lemma blind_zoom_block (running : bool) (b : float * float * float * float) :
  Aspect.blind r
    (Aspect.set_four_limits running call b ;!
     Aspect._adjust_limits_aspect running adjust_limits_aspect (call true)).
Proof.
  destruct b as [[[x0 x1] y0] y1]. unfold Aspect.set_four_limits.
  repeat apply blind_bind;
    first [apply blind_set_limit_property|apply blind_adjust_limits_aspect].
Qed.

End Blind.

Section Settles.
Context `{Aspect.Callbacks}.
Variable call : bool -> callback -> M World unit.
Hypothesis call_quiet : forall b, quiet (call b).

Lemma with_limits_same (o : State) : with_limits (limits_of o) o = o.
Proof. now destruct o. Qed.

Lemma settles_ext (m : M World unit) (f g : limits -> limits * option exn) :
  (forall l, f l = g l) -> Aspect.settles m f -> Aspect.settles m g.
Proof. intros Hfg Hm w Hs Hd. rewrite <- Hfg. now apply Hm. Qed.

Lemma settles_bind (m k : M World unit) (f g : limits -> limits * option exn) :
  Aspect.settles m f -> Aspect.settles k g ->
  Aspect.settles (m ;! k) (fun l => Aspect.and_then (f l) g).
Proof.
  intros Hm Hk w Hs Hd. destruct (Hm w Hs Hd) as (w1 & E1 & Ho1 & Hd1).
  unfold bind. rewrite E1.
  destruct (f (lims (obj w))) as [l1 [e|]]; simpl in *.
  - now exists w1.
  - assert (Hs1 : _during_zoom_sync (obj w1) = true) by now rewrite Ho1.
    destruct (Hk w1 Hs1 Hd1) as (w2 & E2 & Ho2 & Hd2).
    assert (Hl1 : lims (obj w1) = l1) by now rewrite Ho1.
    rewrite Hl1 in E2, Ho2. exists w2. split; [exact E2|].
    split; [|exact Hd2]. rewrite Ho2, Ho1. reflexivity.
Qed.

(** The four properties are enabled again when the [delay_callback]
    block of the adjustment is left. *)
Lemma delay_exit_scan_fresh (v0 v1 v2 v3 : option float) (w : World) :
  delay w = [] ->
  delay (fst (delay_exit_scan all_limits
                (stored Y_max v3 (stored Y_min v2 (stored X_max v1
                   (stored X_min v0
                      (foldl (fun w p => delay_enter p w) w all_limits)))))))
  = [].
Proof. destruct w as [o d t]. simpl. intros ->. reflexivity. Qed.

Lemma stored_four_obj (l : limits) (w : World) :
  obj (stored Y_max (y_max l) (stored Y_min (y_min l)
         (stored X_max (x_max l) (stored X_min (x_min l) w))))
  = with_limits l (obj w).
Proof. now destruct l. Qed.

(** The notifications that leave the block, during a zoom sync. *)
Lemma notify_round_quiet (due : list limit) (w : World) :
  _during_zoom_sync (obj w) = true -> delay w = [] ->
  exists w', for_each due (notify on_limit (call true)) w = Done tt w'
             /\ obj w' = obj w /\ delay w' = [].
Proof.
  revert w. induction due as [|p due IH]; intros w Hs Hd; simpl.
  - now exists w.
  - unfold bind. rewrite notify_eq.
    assert (He : enabled p w = true) by (unfold enabled; now rewrite Hd).
    rewrite He. simpl. unfold bind. rewrite (call_quiet true) by exact Hs.
    destruct (IH (record (Entered SetAxesLim)
                    (record (Notified (name p) (lims (obj w))) w)) Hs Hd)
      as (w' & E & Ho & Hd').
    exists w'. now split.
Qed.

(** One call of the adjustment of the base class. *)
Lemma adjust_limits_aspect_settles (action : limits -> aspect_action) :
  Aspect.settles (Aspect._adjust_limits_aspect false action (call true))
    (fun l => Aspect.after (action l) l).
Proof.
  intros w Hs Hd. rewrite adjust_limits_aspect_eq.
  destruct (action (lims (obj w))) as [|l|e]; cbn [Aspect.after fst snd].
  - exists w. split; [reflexivity|]. split; [|exact Hd].
    symmetry. apply with_limits_same.
  - unfold delay_callback. unfold bind at 1. unfold modify, finally.
    rewrite (ImageBatch.four_assignments_delayed_eq (call true)
               (x_min l) (x_max l) (y_min l) (y_max l) _
               (all_limits_disabled w)).
    unfold delay_exit.
    pose proof (delay_exit_scan_fresh (x_min l) (x_max l) (y_min l) (y_max l)
                  w Hd) as Hfresh.
    pose proof (proj1 (delay_exit_scan_obj_seen all_limits
                         (stored Y_max (y_max l) (stored Y_min (y_min l)
                            (stored X_max (x_max l) (stored X_min (x_min l)
                               (foldl (fun w p => delay_enter p w) w
                                  all_limits))))))) as Hobj.
    destruct (delay_exit_scan all_limits _) as [w1 due].
    cbn [fst] in Hfresh, Hobj.
    assert (Ho1 : obj w1 = with_limits l (obj w)).
    { now rewrite Hobj, stored_four_obj, obj_delay_enter_all. }
    destruct (notify_round_quiet due w1) as (w' & E & Ho & Hd');
      [now rewrite Ho1|exact Hfresh|].
    exists w'. split; [exact E|]. split; [congruence|exact Hd'].
  - exists w. split; [reflexivity|]. split; [|exact Hd].
    symmetry. apply with_limits_same.
Qed.

Lemma notify_others_settles (p : limit) :
  Aspect.settles (Aspect.notify_others (call false) p) (fun l => (l, None)).
Proof.
  intros w Hs Hd. rewrite notify_others_eq. simpl. unfold bind.
  rewrite (call_quiet false) by exact Hs.
  eexists. split; [reflexivity|]. split; [|exact Hd].
  symmetry. apply with_limits_same.
Qed.

(** One assignment of line 170. *)
Lemma set_limit_property_settles (p : limit) (v : float) :
  Aspect.settles (Aspect.set_limit_property false call p (Some v))
    (Aspect.assigned p v).
Proof.
  intros w Hs Hd. rewrite set_limit_property_eq.
  assert (He : enabled p w = true) by (unfold enabled; now rewrite Hd).
  rewrite He, andb_true_r. unfold Aspect.assigned.
  assert (Hs' : _during_zoom_sync (obj (stored p (Some v) w)) = true)
    by now rewrite stored_during_zoom_sync.
  assert (Hl' : lims (obj (stored p (Some v) w))
                = set_limit p (Some v) (lims (obj w))) by reflexivity.
  destruct (Py.ne (get_limit p (lims (obj w))) (Some v)).
  - destruct (settles_bind _ _ _ _
                (adjust_limits_aspect_settles (Aspect.on_assignment p))
                (notify_others_settles p) (stored p (Some v) w) Hs' Hd)
      as (w' & E & Ho & Hd').
    rewrite Hl' in E, Ho. exists w'.
    destruct (Aspect.on_assignment p (set_limit p (Some v) (lims (obj w))))
      as [|l|e]; simpl in *; (split; [exact E|]); (split; [|exact Hd']);
      rewrite Ho; reflexivity.
  - exists (stored p (Some v) w). split; [reflexivity|]. now split.
Qed.

(** Lines 166 to 172, inside the sync. *)
Lemma zoom_block_settles (b : float * float * float * float) :
  Aspect.settles
    (Aspect.set_four_limits false call b ;!
     Aspect._adjust_limits_aspect false adjust_limits_aspect (call true))
    (Aspect.settled b).
Proof.
  destruct b as [[[x0 x1] y0] y1]. unfold Aspect.set_four_limits.
  eapply settles_ext;
    [|apply settles_bind;
      [apply settles_bind;
       [apply set_limit_property_settles
       |apply settles_bind;
        [apply set_limit_property_settles
        |apply settles_bind; apply set_limit_property_settles]]
      |apply adjust_limits_aspect_settles]].
  intros l. unfold Aspect.settled, Aspect.and_all, Aspect.and_then.
  destruct (Aspect.assigned X_min x0 l) as [l1 [e1|]]; [reflexivity|].
  destruct (Aspect.assigned X_max x1 l1) as [l2 [e2|]]; [reflexivity|].
  destruct (Aspect.assigned Y_min y0 l2) as [l3 [e3|]]; [reflexivity|].
  destruct (Aspect.assigned Y_max y1 l3) as [l4 [e4|]]; [reflexivity|].
  now destruct (Aspect.after (adjust_limits_aspect l4) l4) as [l5 [e5|]].
Qed.

End Settles.

Section Facts.
Context `{Aspect.Callbacks}.

(** During a sync both callbacks come back at once. *)
Lemma aspect_run_callback_quiet (n : nat) (b : bool) :
  quiet (Aspect.run_callback (S n) b).
Proof.
  intros c w Hs. simpl. unfold bind, modify.
  destruct c;
    unfold Aspect._set_zoom_radius_center_body, _set_axes_lim_body, bind, get;
    simpl; now rewrite Hs.
Qed.

(** [_set_zoom_radius_center] past its guard and the conversion to
    pixels: the sync around lines 166 to 172. *)
Lemma aspect_set_zoom_radius_center_unfold (n : nat) (w : World)
    (c : float * float * float) :
  _during_zoom_sync (obj w) = false -> has_viewer (obj w) = true ->
  zoom_in_pixels (obj w) = Return c ->
  Aspect._set_zoom_radius_center (S n) w
  = finally
      (Aspect.set_four_limits false (Aspect.run_callback n) (zoom_box c) ;!
       Aspect._adjust_limits_aspect false adjust_limits_aspect
         (Aspect.run_callback n true))
      (set_during_zoom_sync false)
      (with_obj (with_during_zoom_sync true)
         (record (Entered SetZoomRadiusCenter) w)).
Proof.
  intros Hs Hv Hc. unfold Aspect._set_zoom_radius_center.
  cbn [Aspect.run_callback]. unfold bind at 1. unfold modify.
  unfold Aspect._set_zoom_radius_center_body. unfold bind at 1. unfold get.
  cbn [obj record]. rewrite Hs, Hv. cbn [orb negb].
  unfold bind at 1. rewrite Hc. reflexivity.
Qed.

Lemma image_set_zoom_radius_center_unfold (n : nat) (w : World)
    (c : float * float * float) :
  _during_zoom_sync (obj w) = false -> has_viewer (obj w) = true ->
  zoom_in_pixels (obj w) = Return c ->
  Image._set_zoom_radius_center (S n) w
  = finally
      (Image.set_four_limits (Image.run_callback n) (zoom_box c) ;!
       Image._adjust_limits_aspect (Image.run_callback n))
      (set_during_zoom_sync false)
      (with_obj (with_during_zoom_sync true)
         (record (Entered SetZoomRadiusCenter) w)).
Proof.
  intros Hs Hv Hc. unfold Image._set_zoom_radius_center.
  cbn [Image.run_callback]. unfold bind at 1. unfold modify.
  unfold Image._set_zoom_radius_center_body. unfold bind at 1. unfold get.
  cbn [obj record]. rewrite Hs, Hv. cbn [orb negb].
  unfold bind at 1. rewrite Hc. reflexivity.
Qed.

(** The run from the world with another zoom radius, once the zoom
    circle in pixels is the same. *)
Lemma zoom_sync_with_radius (n : nat) (r : float)
    (b : float * float * float * float) (w : World) :
  _during_zoom_sync (obj w) = true ->
  let m :=
    finally
      (Aspect.set_four_limits false (Aspect.run_callback (S n)) b ;!
       Aspect._adjust_limits_aspect false adjust_limits_aspect
         (Aspect.run_callback (S n) true))
      (set_during_zoom_sync false) in
  exists w', final (m w) = Some w'
             /\ final (m (Aspect.with_radius r w))
                = Some (Aspect.with_radius r w').
Proof.
  intros Hs m.
  destruct (blind_zoom_block r (Aspect.run_callback (S n))
              (aspect_run_callback_quiet n) false b w Hs) as [E W].
  subst m. unfold finally. rewrite E. unfold wp in W.
  destruct ((Aspect.set_four_limits false (Aspect.run_callback (S n)) b ;!
             Aspect._adjust_limits_aspect false adjust_limits_aspect
               (Aspect.run_callback (S n) true)) w)
    as [[] w1|e w1|]; [| |destruct W];
    exists (with_obj (with_during_zoom_sync false) w1); now split.
Qed.

(** The same run outside any [delay_callback] block: the limits end as
    [Aspect.settled] says, nothing else of the object changes, and the
    run raises exactly when one of the adjustments does. *)
Lemma set_zoom_radius_center_settles (n : nat) (w : World)
    (c : float * float * float) :
  _during_zoom_sync (obj w) = false -> has_viewer (obj w) = true ->
  zoom_in_pixels (obj w) = Return c -> delay w = [] ->
  exists w',
    Aspect._set_zoom_radius_center (S (S n)) w
    = match snd (Aspect.settled (zoom_box c) (lims (obj w))) with
      | None => Done tt w'
      | Some e => Raised e w'
      end
    /\ obj w' = with_limits (fst (Aspect.settled (zoom_box c) (lims (obj w))))
                  (obj w).
Proof.
  intros Hs Hv Hc Hd.
  rewrite (aspect_set_zoom_radius_center_unfold (S n) w c Hs Hv Hc).
  destruct (zoom_block_settles (Aspect.run_callback (S n))
              (aspect_run_callback_quiet n) (zoom_box c)
              (with_obj (with_during_zoom_sync true)
                 (record (Entered SetZoomRadiusCenter) w)) eq_refl Hd)
    as (w1 & E & Ho & _).
  unfold finally. rewrite E.
  change (lims (obj (with_obj (with_during_zoom_sync true)
                       (record (Entered SetZoomRadiusCenter) w))))
    with (lims (obj w)) in *.
  exists (with_obj (with_during_zoom_sync false) w1).
  split.
  - now destruct (snd (Aspect.settled (zoom_box c) (lims (obj w)))).
  - cbn [obj with_obj]. rewrite Ho. cbn [obj with_obj record].
    now apply leave_sync_limits.
Qed.

(** C10: on a state that is attached, not linked by WCS and not in a
    sync, [_set_zoom_radius_center] takes the limits from the absolute
    value of the radius. With [zoom_radius] set to [r] and to [-r] the
    runs end, with the same four limits, and [zoom_radius] is still [r]
    and [-r]; this with the callbacks of the base class running at each
    assignment, whatever they do with the limits they find. Outside a
    [delay_callback] block the limits are those that the assignments of
    [center - |r|] and [center + |r|], each followed by the callback of
    the base class, and the final adjustment leave. *)
Theorem zoom_radius_sign (w : World) (n : nat) (r : float) :
  _during_zoom_sync (obj w) = false -> has_viewer (obj w) = true ->
  linked_by_wcs (obj w) = false ->
  exists w1 w2,
    final (Aspect._set_zoom_radius_center (S (S n)) (Aspect.with_radius r w))
    = Some w1
    /\ final (Aspect._set_zoom_radius_center (S (S n))
                (Aspect.with_radius (fneg r) w))
       = Some w2
    /\ lims (obj w1) = lims (obj w2)
    /\ zoom_radius (obj w1) = r /\ zoom_radius (obj w2) = fneg r
    /\ (delay w = [] ->
        lims (obj w1)
        = fst (Aspect.settled
                 (fsub (zoom_center_x (obj w)) (fabs r),
                  fadd (zoom_center_x (obj w)) (fabs r),
                  fsub (zoom_center_y (obj w)) (fabs r),
                  fadd (zoom_center_y (obj w)) (fabs r))
                 (lims (obj w)))).
Proof.
  intros Hs Hv Hl.
  assert (Habs : fabs (fneg r) = fabs r) by now destruct r.
  pose (c := (zoom_center_x (obj w), zoom_center_y (obj w), fabs r)).
  assert (Z1 : zoom_in_pixels (obj (Aspect.with_radius r w)) = Return c)
    by (unfold zoom_in_pixels; simpl; now rewrite Hl).
  assert (Z2 : zoom_in_pixels (obj (Aspect.with_radius (fneg r) w)) = Return c)
    by (unfold zoom_in_pixels; simpl; now rewrite Hl, Habs).
  rewrite (aspect_set_zoom_radius_center_unfold (S n)
             (Aspect.with_radius r w) c Hs Hv Z1).
  rewrite (aspect_set_zoom_radius_center_unfold (S n)
             (Aspect.with_radius (fneg r) w) c Hs Hv Z2).
  pose (ws := with_obj (with_during_zoom_sync true)
                (record (Entered SetZoomRadiusCenter) (Aspect.with_radius r w))).
  change (with_obj (with_during_zoom_sync true)
            (record (Entered SetZoomRadiusCenter) (Aspect.with_radius r w)))
    with ws.
  change (with_obj (with_during_zoom_sync true)
            (record (Entered SetZoomRadiusCenter)
               (Aspect.with_radius (fneg r) w)))
    with (Aspect.with_radius (fneg r) ws).
  destruct (zoom_sync_with_radius n (fneg r) (zoom_box c) ws eq_refl)
    as (w1 & F1 & F2).
  destruct (zoom_sync_with_radius n r (zoom_box c) ws eq_refl)
    as (w1' & F1' & F2').
  change (Aspect.with_radius r ws) with ws in F2'.
  exists w1, (Aspect.with_radius (fneg r) w1).
  split; [exact F1|]. split; [exact F2|]. split; [reflexivity|].
  split; [|split; [reflexivity|]].
  - rewrite F1 in F2'. injection F2' as ->. reflexivity.
  - intros Hd.
    destruct (set_zoom_radius_center_settles n (Aspect.with_radius r w) c
                Hs Hv Z1 Hd) as (w' & E & Ho).
    rewrite (aspect_set_zoom_radius_center_unfold (S n)
               (Aspect.with_radius r w) c Hs Hv Z1) in E.
    fold ws in E. rewrite E in F1.
    assert (Hw : w1 = w').
    { destruct (snd (Aspect.settled (zoom_box c)
                       (lims (obj (Aspect.with_radius r w)))));
        now injection F1. }
    rewrite Hw, Ho. reflexivity.
Qed.

(** X14: [_set_zoom_radius_center], on a state that is attached, not in
    a sync and not inside a [delay_callback] block, whose zoom circle
    converts to the pixel circle [c]: the run ends with the object
    changed in its four limits only. The limits are those that the four
    assignments of the box around [c], each followed by the callback of
    the base class when the value differs, and the final aspect
    adjustment leave; the run raises exactly when one of these
    adjustments raises, with the limits as they were at that point. The
    zoom properties are as they were and the sync flag is false. *)
Theorem set_zoom_radius_center_writes_limits_only (n : nat) (w : World)
    (c : float * float * float) :
  _during_zoom_sync (obj w) = false -> has_viewer (obj w) = true ->
  zoom_in_pixels (obj w) = Return c -> delay w = [] ->
  exists w',
    Aspect._set_zoom_radius_center (S (S n)) w
    = match snd (Aspect.settled (zoom_box c) (lims (obj w))) with
      | None => Done tt w'
      | Some e => Raised e w'
      end
    /\ lims (obj w') = fst (Aspect.settled (zoom_box c) (lims (obj w)))
    /\ zoom_radius (obj w') = zoom_radius (obj w)
    /\ zoom_center_x (obj w') = zoom_center_x (obj w)
    /\ zoom_center_y (obj w') = zoom_center_y (obj w)
    /\ frame (obj w') = frame (obj w).
Proof.
  intros Hs Hv Hc Hd.
  destruct (set_zoom_radius_center_settles n w c Hs Hv Hc Hd) as (w' & E & Ho).
  exists w'. split; [exact E|]. rewrite Ho. repeat split.
Qed.

End Facts.

(** [Image]'s run of [_set_zoom_radius_center] is the run with the
    callbacks of the base class when these keep every box they find. *)
Section Passive.
Context `{Aspect.Callbacks}.
Hypothesis keep_x : forall l, Aspect.adjust_limits_aspect_x l = AspectKeep.
Hypothesis keep_y : forall l, Aspect.adjust_limits_aspect_y l = AspectKeep.

Section Dispatchers.
Variable run : bool -> callback -> M World unit.
Variable call : callback -> M World unit.
Hypothesis run_quiet : forall b, quiet (run b).
Hypothesis call_quiet : quiet call.

Lemma set_limit_property_passive (p : limit) (v : option float) (w : World) :
  _during_zoom_sync (obj w) = true ->
  exists w',
    Aspect.set_limit_property false run p v w = Done tt w'
    /\ Image.set_limit_property call p v w = Done tt w'
    /\ _during_zoom_sync (obj w') = true.
Proof.
  intros Hs. rewrite set_limit_property_eq.
  unfold Image.set_limit_property. rewrite assign_eq, notify_eq.
  change (enabled p (stored p v w)) with (enabled p w).
  assert (Hs' : _during_zoom_sync (obj (stored p v w)) = true)
    by (destruct p; exact Hs).
  destruct (Py.ne _ v), (enabled p w); cbn [andb];
    try (exists (stored p v w); now split).
  unfold bind. rewrite adjust_limits_aspect_eq.
  assert (Hk : Aspect.on_assignment p (lims (obj (stored p v w))) = AspectKeep)
    by (destruct p; first [apply keep_x|apply keep_y]).
  rewrite Hk, notify_others_eq. simpl. unfold bind.
  rewrite (run_quiet false), call_quiet by exact Hs'.
  eexists. split; [reflexivity|]. split; [reflexivity|exact Hs'].
Qed.

Lemma set_four_limits_passive (b : float * float * float * float) (w : World) :
  _during_zoom_sync (obj w) = true ->
  exists w',
    Aspect.set_four_limits false run b w = Done tt w'
    /\ Image.set_four_limits call b w = Done tt w'
    /\ _during_zoom_sync (obj w') = true.
Proof.
  intros Hs. destruct b as [[[x0 x1] y0] y1].
  unfold Aspect.set_four_limits, Image.set_four_limits.
  destruct (set_limit_property_passive X_min (Some x0) w Hs)
    as (w1 & A1 & I1 & S1).
  destruct (set_limit_property_passive X_max (Some x1) w1 S1)
    as (w2 & A2 & I2 & S2).
  destruct (set_limit_property_passive Y_min (Some y0) w2 S2)
    as (w3 & A3 & I3 & S3).
  destruct (set_limit_property_passive Y_max (Some y1) w3 S3)
    as (w4 & A4 & I4 & S4).
  exists w4. unfold bind. rewrite A1, A2, A3, A4, I1, I2, I3, I4. now split.
Qed.

Lemma notify_round_passive (due : list limit) (w : World) :
  _during_zoom_sync (obj w) = true ->
  for_each due (notify on_limit (run true)) w
  = for_each due (notify on_limit call) w.
Proof.
  revert w. induction due as [|p due IH]; intros w Hs; [reflexivity|].
  simpl. unfold bind. rewrite !notify_eq.
  destruct (enabled p w); [|now apply IH].
  simpl. unfold bind. rewrite (run_quiet true), call_quiet by exact Hs.
  now apply IH.
Qed.

Lemma adjust_limits_aspect_passive (w : World) :
  _during_zoom_sync (obj w) = true ->
  Aspect._adjust_limits_aspect false adjust_limits_aspect (run true) w
  = Image._adjust_limits_aspect call w.
Proof.
  intros Hs.
  change (Image._adjust_limits_aspect call w)
    with (Aspect._adjust_limits_aspect false adjust_limits_aspect call w).
  rewrite !adjust_limits_aspect_eq.
  destruct (adjust_limits_aspect (lims (obj w))) as [|l|e];
    [reflexivity| |reflexivity].
  rewrite !delay_callback_eq. unfold finally.
  rewrite !(ImageBatch.four_assignments_delayed_eq _
              (x_min l) (x_max l) (y_min l) (y_max l) _
              (all_limits_disabled w)).
  unfold delay_exit.
  pose proof (proj1 (delay_exit_scan_obj_seen all_limits
                       (stored Y_max (y_max l) (stored Y_min (y_min l)
                          (stored X_max (x_max l) (stored X_min (x_min l)
                             (foldl (fun w p => delay_enter p w) w
                                all_limits))))))) as Hobj.
  destruct (delay_exit_scan all_limits _) as [w1 due]. cbn [fst] in Hobj.
  apply notify_round_passive.
  now rewrite Hobj, stored_four_obj, obj_delay_enter_all.
Qed.

Lemma zoom_block_passive (b : float * float * float * float) (w : World) :
  _during_zoom_sync (obj w) = true ->
  (Aspect.set_four_limits false run b ;!
   Aspect._adjust_limits_aspect false adjust_limits_aspect (run true)) w
  = (Image.set_four_limits call b ;! Image._adjust_limits_aspect call) w.
Proof.
  intros Hs.
  destruct (set_four_limits_passive b w Hs) as (w1 & A & I & S1).
  unfold bind. rewrite A, I. now apply adjust_limits_aspect_passive.
Qed.

End Dispatchers.

Lemma set_zoom_radius_center_passive (n : nat) (w : World) :
  Aspect._set_zoom_radius_center (S (S n)) w
  = Image._set_zoom_radius_center (S (S n)) w.
Proof.
  destruct (_during_zoom_sync (obj w) || negb (has_viewer (obj w))) eqn:Hg.
  - rewrite set_zoom_radius_center_unfold.
    rewrite set_zoom_radius_center_body_guard by exact Hg.
    unfold Aspect._set_zoom_radius_center. cbn [Aspect.run_callback].
    unfold bind at 1. unfold modify.
    unfold Aspect._set_zoom_radius_center_body. unfold bind at 1. unfold get.
    cbn [obj record]. now rewrite Hg.
  - apply orb_false_iff in Hg as [Hs Hv]. apply negb_false_iff in Hv.
    destruct (zoom_in_pixels (obj w)) as [c|e] eqn:Hc.
    + rewrite (aspect_set_zoom_radius_center_unfold (S n) w c Hs Hv Hc).
      rewrite (image_set_zoom_radius_center_unfold (S n) w c Hs Hv Hc).
      unfold finally.
      now rewrite (zoom_block_passive (Aspect.run_callback (S n))
                     (Image.run_callback (S n))
                     (aspect_run_callback_quiet n) (run_callback_quiet n)
                     (zoom_box c)
                     (with_obj (with_during_zoom_sync true)
                        (record (Entered SetZoomRadiusCenter) w))
                     eq_refl).
    + rewrite set_zoom_radius_center_unfold.
      rewrite (set_zoom_radius_center_body_throw _
                 (record (Entered SetZoomRadiusCenter) w) e);
        [|cbn [obj record]; now rewrite Hs, Hv|exact Hc].
      unfold Aspect._set_zoom_radius_center. cbn [Aspect.run_callback].
      unfold bind at 1. unfold modify.
      unfold Aspect._set_zoom_radius_center_body. unfold bind at 1. unfold get.
      cbn [obj record]. rewrite Hs, Hv. cbn [orb negb].
      unfold bind at 1. now rewrite Hc.
Qed.

End Passive.

(** C10 in a viewer twice as high as wide, where the callbacks of the
    base class resize the box at each assignment: around the centre 5, 2
    the radius 2 and the radius -2 both end with the limits 4, 6, 0 and
    4. *)
Lemma zoom_radius_sign_witness :
  let w :=
    with_obj (set_zoom Zoom_center_x (of_Z 5))
      (with_obj (set_zoom Zoom_center_y (of_Z 2))
         (Examples.image_world (limits_of_Z 0 10 0 4) false [])) in
  exists w1 w2,
    final (@Aspect._set_zoom_radius_center Examples.no_wcs Examples.tall_aspect
             Examples.tall_callbacks 2 (Aspect.with_radius (of_Z 2) w))
    = Some w1
    /\ final (@Aspect._set_zoom_radius_center Examples.no_wcs
                Examples.tall_aspect Examples.tall_callbacks 2
                (Aspect.with_radius (fneg (of_Z 2)) w))
       = Some w2
    /\ lims (obj w1) = lims (obj w2)
    /\ zoom_radius (obj w1) = of_Z 2 /\ zoom_radius (obj w2) = fneg (of_Z 2)
    /\ lims (obj w1) = limits_of_Z 4 6 0 4.
Proof.
  intros w.
  destruct (@zoom_radius_sign Examples.no_wcs Examples.tall_aspect
              Examples.tall_callbacks w 0 (of_Z 2) eq_refl eq_refl eq_refl)
    as (w1 & w2 & F1 & F2 & Hl & R1 & R2 & Hpin).
  exists w1, w2. do 5 (split; [assumption|]).
  rewrite (Hpin eq_refl). vm_compute. reflexivity.
Defined.

(** X14 in the same viewer: from the limits 0, 10, 0 and 4 the zoom
    circle of radius 2 around 5, 2 ends with the limits 4, 6, 0 and 4,
    not with the box 3, 7, 0, 4 resized once. *)
Lemma set_zoom_radius_center_writes_limits_only_witness :
  let w :=
    with_obj (set_zoom Zoom_radius (of_Z 2))
      (with_obj (set_zoom Zoom_center_x (of_Z 5))
         (with_obj (set_zoom Zoom_center_y (of_Z 2))
            (Examples.image_world (limits_of_Z 0 10 0 4) false []))) in
  exists w',
    @Aspect._set_zoom_radius_center Examples.no_wcs Examples.tall_aspect
      Examples.tall_callbacks 2 w = Done tt w'
    /\ lims (obj w') = limits_of_Z 4 6 0 4
    /\ zoom_radius (obj w') = of_Z 2.
Proof.
  intros w.
  destruct (@set_zoom_radius_center_writes_limits_only Examples.no_wcs
              Examples.tall_aspect Examples.tall_callbacks 0 w
              (of_Z 5, of_Z 2, of_Z 2) eq_refl eq_refl eq_refl eq_refl)
    as (w' & Hrun & Hl & Hr & _).
  exists w'. split; [|split; [|exact Hr]].
  - rewrite Hrun. vm_compute. reflexivity.
  - rewrite Hl. vm_compute. reflexivity.
Defined.

End AspectFacts.
